(** * Azure spot-price checker: acquisition engine and aggregator

    A shallow embedding of [src/index.js] (class [AzureSpotPriceChecker],
    in its current and in its earlier revision) and of
    [scripts/process-data.js] (function [processData]), with the
    properties of the specification stated and proved over it.

    Conventions of the embedding.
    - JavaScript numbers are IEEE-754 binary64 values: Rocq's primitive
      [float].  Array and string lengths are [nat]; a string is the
      sequence of its code units.
    - A value that comes out of [JSON.parse] is a [Value]: any JSON value,
      not only an array of Run Records.  Reading a property of [null] or
      [undefined] throws a [TypeError], as does calling a method that the
      value does not have.
    - A plain object is the list of its own properties in the order in
      which [Object.keys] lists them.  Objects built by the code ([{}]
      filled by assignments) inherit from [Object.prototype]; its property
      names are [Object_prototype].
    - The objects that the code builds with a fixed shape are records
      ([Sample], [RunRecord], [ProcessedData]); [sample_value],
      [record_value] and [processed_value] give them as values.
    - An [async] method is a computation in the monad [M]: it reads the
      outer world through an oracle that may depend on the whole history
      of the process, appends what it does to that history, and either
      returns or throws.
    - Conversions between numbers and strings ([Number::toString],
      [StringToNumber]) are built-ins of the platform.  Resource limits of
      the engine (call-stack depth, heap) are not modelled. *)

From Stdlib Require Import ZArith Floats.
From stdpp Require Import base strings list pretty.

Local Open Scope string_scope.

(** ** JavaScript values, errors and objects *)

Module JS.

#[warnings="-register-all"]
Inductive Value :=
  | VUndefined
  | VNull
  | VBool (b : bool)
  | VNum (x : float)
  | VStr (s : string)
  | VArr (elements : list Value)
  | VObj (properties : list (string * Value)).

(** A thrown JavaScript value: an [Error] with its [message], the [code]
    of a file-system error and the [response] of an axios HTTP error. *)
Record ErrResponse := mkErrResponse {
  status : nat;
  body : string
}.

Record JsError := mkJsError {
  message : string;
  code : option string;
  response : option ErrResponse
}.

Definition TypeError (msg : string) : JsError :=
  {| message := msg; code := None; response := None |}.

Definition SyntaxError (msg : string) : JsError :=
  {| message := msg; code := None; response := None |}.

(** The completion of an evaluation: a value, or a thrown error. *)
Inductive Result (A : Type) : Type :=
  | Return (a : A)
  | Throw (e : JsError).
Arguments Return {A} a.
Arguments Throw {A} e.

Global Instance Result_ret : MRet Result := λ A a, Return a.
Global Instance Result_bind : MBind Result := λ A B k r,
  match r with
  | Return a => k a
  | Throw e => Throw e
  end.
Global Instance Result_fmap : FMap Result := λ A B f r,
  match r with
  | Return a => Return (f a)
  | Throw e => Throw e
  end.

(** [xs.forEach(x => { s = body(s, x) })] for a body that may throw. *)
Fixpoint forEach {A S} (xs : list A) (body : S → A → Result S) (s : S)
    : Result S :=
  match xs with
  | [] => Return s
  | x :: xs' => s' ← body s x; forEach xs' body s'
  end.

(** [xs.map(f)] for an [f] that may throw. *)
Fixpoint map_each {A B} (f : A → Result B) (xs : list A) : Result (list B) :=
  match xs with
  | [] => Return []
  | x :: xs' => y ← f x; ys ← map_each f xs'; Return (y :: ys)
  end.

(** *** Own properties *)

(** The own enumerable properties of an object, in the order of
    [Object.keys]. *)
Definition Props (A : Type) : Type := list (string * A).

Fixpoint own {A} (k : string) (o : Props A) : option A :=
  match o with
  | [] => None
  | (k', v) :: o' => if decide (k' = k) then Some v else own k o'
  end.

Definition keys {A} (o : Props A) : list string := o.*1.

Fixpoint digits (s : string) (acc : N) : option N :=
  match s with
  | EmptyString => Some acc
  | String c s' =>
      let n := Ascii.N_of_ascii c in
      if (48 <=? n)%N && (n <=? 57)%N
      then digits s' (acc * 10 + (n - 48))%N
      else None
  end.

(** The array index that a property key denotes, if any: the key is the
    canonical decimal numeral of an integer below 2^32 - 1. *)
Definition array_index (k : string) : option N :=
  match digits k 0 with
  | Some n =>
      if bool_decide (pretty n = k) && (n <? 4294967295)%N then Some n
      else None
  | None => None
  end.

Fixpoint replace {A} (k : string) (v : A) (o : Props A) : Props A :=
  match o with
  | [] => []
  | (k', v') :: o' =>
      if decide (k' = k) then (k, v) :: o' else (k', v') :: replace k v o'
  end.

(** A new array-index key goes among the index keys, which come first in
    ascending order. *)
Fixpoint insert_index {A} (n : N) (k : string) (v : A) (o : Props A)
    : Props A :=
  match o with
  | [] => [(k, v)]
  | (k', v') :: o' =>
      match array_index k' with
      | Some n' =>
          if (n <? n')%N then (k, v) :: o
          else (k', v') :: insert_index n k v o'
      | None => (k, v) :: o
      end
  end.

(** [o[k] = v]: a property that exists keeps its place; a new one is
    listed after the others, unless its key is an array index. *)
Definition assign {A} (k : string) (v : A) (o : Props A) : Props A :=
  match own k o with
  | Some _ => replace k v o
  | None =>
      match array_index k with
      | Some n => insert_index n k v o
      | None => (o ++ [(k, v)])%list
      end
  end.

(** The names of the properties of [Object.prototype], which every plain
    object inherits. *)
Definition Object_prototype : list string :=
  [ "constructor"; "__defineGetter__"; "__defineSetter__"; "hasOwnProperty";
    "__lookupGetter__"; "__lookupSetter__"; "isPrototypeOf";
    "propertyIsEnumerable"; "toString"; "valueOf"; "__proto__";
    "toLocaleString" ].

(** *** Reading values *)

Definition nullish (v : Value) : bool :=
  match v with
  | VUndefined | VNull => true
  | _ => false
  end.

(** [ToBoolean]. *)
Definition truthy_value (v : Value) : bool :=
  match v with
  | VUndefined | VNull => false
  | VBool b => b
  | VNum x => negb (PrimFloat.eqb x 0 || PrimFloat.is_nan x)
  | VStr s => negb (String.eqb s EmptyString)
  | VArr _ | VObj _ => true
  end.

Fixpoint code_units (s : string) : list Value :=
  match s with
  | EmptyString => []
  | String c s' => VStr (String c EmptyString) :: code_units s'
  end.

(** The own enumerable string-keyed properties of a value that is not
    [null] or [undefined], as [Object.keys] lists them: the elements of an
    array and the code units of a string under their indices. *)
Definition entries (v : Value) : Props Value :=
  match v with
  | VObj properties => properties
  | VArr elements => imap (λ i e, (pretty i, e)) elements
  | VStr s => imap (λ i e, (pretty i, e)) (code_units s)
  | _ => []
  end.

Definition Object_keys (v : Value) : list string := keys (entries v).

(** [v[k]] for a value [v] that is not [null] or [undefined] and a key [k]
    that is not [length] and that no prototype of [v] defines (an own key,
    or one of the data fields the code reads by name). *)
Definition member (v : Value) (k : string) : Value :=
  default VUndefined (own k (entries v)).

Definition reading (v : Value) (k : string) : JsError :=
  TypeError ("Cannot read properties of "
             +:+ (match v with VNull => "null" | _ => "undefined" end)
             +:+ " (reading '" +:+ k +:+ "')").

(** [v.k], [v[k]]: throws on [null] and [undefined]. *)
Definition read (v : Value) (k : string) : Result Value :=
  if nullish v then Throw (reading v k) else Return (member v k).

(** The value of [v.length]: a count for an array and for a string, the
    own property of that name (or [undefined]) for another value. *)
Inductive Length :=
  | Count (n : nat)
  | Other (v : Value).

Definition get_length (v : Value) : Result Length :=
  match v with
  | VUndefined | VNull => Throw (reading v "length")
  | VArr elements => Return (Count (length elements))
  | VStr s => Return (Count (String.length s))
  | VObj properties => Return (Other (default VUndefined (own "length" properties)))
  | VBool _ | VNum _ => Return (Other VUndefined)
  end.

(** [v.method(...)] for an [Array.prototype] method: the elements of the
    array it is called on.  Any other value has no such method (a property
    of that name in a parsed object is not a function). *)
Definition array_method (v : Value) (receiver method : string)
    : Result (list Value) :=
  match v with
  | VArr elements => Return elements
  | VUndefined | VNull => Throw (reading v method)
  | _ => Throw (TypeError (receiver +:+ "." +:+ method +:+ " is not a function"))
  end.

(** [v.push(x)]: the elements of the array afterwards. *)
Definition push (v : Value) (receiver : string) (x : Value)
    : Result (list Value) :=
  elements ← array_method v receiver "push"; Return (elements ++ [x])%list.

End JS.
Export JS.

(** ** Data model *)

(** The object literal returned by [fetchPriceData]. *)
Record Sample := mkSample {
  region : string;
  timestamp : string;
  retailPrice : float;
  unitPrice : float;
  currencyCode : string;
  location : string;
  effectiveStartDate : string;
  meterName : string;
  skuName : string
}.

(** The [results] object of [run]: [{ timestamp, regions: {} }], its
    [regions] filled by assignments. *)
Record RunRecord := mkRunRecord {
  rr_timestamp : string;
  rr_regions : Props Sample
}.

(** The two object literals as values, their properties in the order of
    the literal. *)
Definition sample_value (s : Sample) : Value :=
  VObj [ ("region", VStr (region s));
         ("timestamp", VStr (timestamp s));
         ("retailPrice", VNum (retailPrice s));
         ("unitPrice", VNum (unitPrice s));
         ("currencyCode", VStr (currencyCode s));
         ("location", VStr (location s));
         ("effectiveStartDate", VStr (effectiveStartDate s));
         ("meterName", VStr (meterName s));
         ("skuName", VStr (skuName s)) ].

Definition record_value (r : RunRecord) : Value :=
  VObj [ ("timestamp", VStr (rr_timestamp r));
         ("regions", VObj (prod_map id sample_value <$> rr_regions r)) ].

(** The elements of an array of entries: what [data/price-logs.json]
    holds when it is a JSON array. *)
Definition Dataset := list Value.

(** ** The process and its outer world *)

Module Runtime.

(** Console output: the pieces of a template literal and the further
    arguments of the call, in order. *)
Inductive Level := LOG | WARN | ERROR.

Inductive Frag :=
  | Str (s : string)
  | Len (n : nat)
  | Num (x : float).

(** An HTTP request as the code configures it. *)
Record Request := mkRequest {
  url : string;
  headers : list (string * string);
  timeout : N
}.

(** The [requestBody] of the PUT. *)
Record PutBody := mkPutBody {
  pb_message : string;
  pb_content : string;
  pb_branch : string;
  pb_sha : option string
}.

(** What the process does to the outer world. *)
Inductive Event :=
  | Console (lvl : Level) (msg : list Frag)
  | DateNow
  | PricingGet (req : Request)
  | GithubGet (req : Request)
  | GithubPut (req : Request) (body : PutBody)
  | FsAccess (path : string)
  | FsMkdir (path : string)
  | FsWriteFile (path : string) (content : string)
  | FsReadFile (path : string)
  | SetTimeout (ms : N)
  | ProcessExit (exitCode : nat).

(** The history of a process: its events, the newest first. *)
Definition History := list Event.

(** One row of the pricing API's [Items] array (the fields consumed). *)
Record Item := mkItem {
  it_retailPrice : float;
  it_unitPrice : float;
  it_currencyCode : string;
  it_location : string;
  it_effectiveStartDate : string;
  it_meterName : string;
  it_skuName : string
}.

(** [response.data] of the pricing query; [Items] may be missing. *)
Record PricingData := mkPricingData {
  Items : option (list Item)
}.

(** [response.data] of the GitHub contents read. *)
Record FileData := mkFileData {
  content : option string;
  sha : option string
}.

(** [response.data] of the GitHub contents write: [commit.html_url]. *)
Record CommitData := mkCommitData {
  commit : option string
}.

(** An axios response; [data] may be empty. *)
Record Response (D : Type) := mkResponse {
  data : option D
}.
Arguments mkResponse {D} data.
Arguments data {D} r.

(** Built-ins of the Node.js platform that the code calls or relies on.
    [JSON_parse] rejects a text ([None], a [SyntaxError]) or yields the
    JSON value it denotes, whatever its shape. *)
Record Platform := mkPlatform {
  dirname : string;
  path_join : list string → string;
  encodeURIComponent : string → string;
  base64_encode : string → string;
  base64_decode : string → string;
  JSON_stringify : Value → string;
  JSON_parse : string → option Value;
  StringToNumber : string → float;
  Number_toString : float → string
}.

(** The outer world.  Every answer may depend on everything the process
    has done so far. *)
Record World := mkWorld {
  env : string → option string;
  clock : History → string;
  pricing_api : History → Request → Result (Response PricingData);
  github_read : History → Request → Result (Response FileData);
  github_write : History → Request → PutBody → Result (Response CommitData);
  fs_access_result : History → string → Result unit;
  fs_mkdir_result : History → string → Result unit;
  fs_writeFile_result : History → string → string → Result unit;
  fs_readFile_result : History → string → Result string
}.

(** *** Conversions *)

Section Conversions.
Context (P : Platform).

(** [ToString].  An array is joined with commas, [null] and [undefined]
    elements giving the empty string.  A parsed object has the inherited
    [toString] unless it has an own property of that name, which is then
    not a function. *)
Fixpoint ToString (v : Value) : Result string :=
  match v with
  | VUndefined => Return "undefined"
  | VNull => Return "null"
  | VBool b => Return (if b then "true" else "false")
  | VNum x => Return (Number_toString P x)
  | VStr s => Return s
  | VArr elements =>
      (fix join (l : list Value) : Result string :=
         match l with
         | [] => Return ""
         | e :: l' =>
             next ← (if nullish e then Return "" else ToString e);
             match l' with
             | [] => Return next
             | _ :: _ => rest ← join l'; Return (next +:+ "," +:+ rest)
             end
         end) elements
  | VObj properties =>
      match own "toString" properties with
      | Some _ => Throw (TypeError "Cannot convert object to primitive value")
      | None => Return "[object Object]"
      end
  end.

(** [ToPrimitive]: an array or object converts to the string above. *)
Definition ToPrimitive (v : Value) : Result Value :=
  match v with
  | VArr _ | VObj _ => VStr <$> ToString v
  | _ => Return v
  end.

(** [ToNumber]. *)
Definition ToNumber (v : Value) : Result float :=
  match v with
  | VUndefined => Return nan
  | VNull => Return 0%float
  | VBool b => Return (if b then 1%float else 0%float)
  | VNum x => Return x
  | VStr s => Return (StringToNumber P s)
  | VArr _ | VObj _ => s ← ToString v; Return (StringToNumber P s)
  end.

(** [a + b]: concatenation as soon as one side is a string, the sum of
    the two numbers otherwise. *)
Definition add (a b : Value) : Result Value :=
  pa ← ToPrimitive a;
  pb ← ToPrimitive b;
  match pa, pb with
  | VStr _, _ | _, VStr _ =>
      sa ← ToString pa; sb ← ToString pb; Return (VStr (sa +:+ sb))
  | _, _ =>
      na ← ToNumber pa; nb ← ToNumber pb; Return (VNum (na + nb)%float)
  end.

(** [v > 0]. *)
Definition greater_than_zero (v : Value) : Result bool :=
  n ← ToNumber v; Return (PrimFloat.ltb 0 n).

(** [len > 0] for the value of a [length]. *)
Definition positive (len : Length) : Result bool :=
  match len with
  | Count n => Return (0 <? n)%nat
  | Other v => greater_than_zero v
  end.

(** [${len}] in a template literal. *)
Definition template (len : Length) : Result Frag :=
  match len with
  | Count n => Return (Len n)
  | Other v => Str <$> ToString v
  end.

(** The key [len - 1] of [v[v.length - 1]]. *)
Definition last_key (len : Length) : Result string :=
  match len with
  | Count 0 => Return "-1"
  | Count (S n) => Return (pretty n)
  | Other v => n ← ToNumber v; Return (Number_toString P (n - 1)%float)
  end.

End Conversions.

(** *** Computations *)

(** An [async] computation: from the history so far to a returned value or
    a thrown error, and the history extended by what was done. *)
Definition M (A : Type) : Type := History → Result A * History.

Definition ret {A} (a : A) : M A := λ h, (Return a, h).

Definition throw {A} (e : JsError) : M A := λ h, (Throw e, h).

(** An evaluation that asks nothing of the outer world. *)
Definition lift {A} (r : Result A) : M A := λ h, (r, h).

Definition bind {A B} (m : M A) (k : A → M B) : M B :=
  λ h, match m h with
       | (Return a, h') => k a h'
       | (Throw e, h') => (Throw e, h')
       end.

(** [try { body } catch (error) { handler }]. *)
Definition try_catch {A} (body : M A) (handler : JsError → M A) : M A :=
  λ h, match body h with
       | (Return a, h') => (Return a, h')
       | (Throw e, h') => handler e h'
       end.

(** A call to the outer world: the answer is the oracle's at the current
    history, and the call is recorded. *)
Definition perform {A} (ev : Event) (answer : History → Result A) : M A :=
  λ h, (answer h, ev :: h).

Definition emit (ev : Event) : M unit := λ h, (Return tt, ev :: h).

Declare Scope js_scope.
Delimit Scope js_scope with js.
Notation "x <- m ;; k" := (bind m (λ x, k))
  (at level 100, m at next level, k at level 200, right associativity)
  : js_scope.
Notation "m ;; k" := (bind m (λ _, k))
  (at level 100, k at level 200, right associativity) : js_scope.

(** [for (const x of xs) { s = body(s, x) }]. *)
Fixpoint for_of {A S} (xs : list A) (body : S → A → M S) (s : S) : M S :=
  match xs with
  | [] => ret s
  | x :: xs' => bind (body s x) (for_of xs' body)
  end.

(** JavaScript truthiness of a possibly missing string. *)
Definition truthy (v : option string) : bool :=
  match v with
  | Some s => negb (String.eqb s EmptyString)
  | None => false
  end.

Section Primitives.
Context (P : Platform) (W : World).

Definition console_log (msg : list Frag) : M unit := emit (Console LOG msg).
Definition console_warn (msg : list Frag) : M unit := emit (Console WARN msg).
Definition console_error (msg : list Frag) : M unit := emit (Console ERROR msg).

(** [new Date().toISOString()]. *)
Definition Date_now : M string :=
  perform DateNow (λ h, Return (clock W h)).

Definition fs_access (path : string) : M unit :=
  perform (FsAccess path) (λ h, fs_access_result W h path).
Definition fs_mkdir (path : string) : M unit :=
  perform (FsMkdir path) (λ h, fs_mkdir_result W h path).
Definition fs_writeFile (path text : string) : M unit :=
  perform (FsWriteFile path text) (λ h, fs_writeFile_result W h path text).
Definition fs_readFile (path : string) : M string :=
  perform (FsReadFile path) (λ h, fs_readFile_result W h path).

(** [JSON.parse(text)]: throws a [SyntaxError] on a rejected document. *)
Definition JSON_parse_M (text : string) : M Value :=
  match JSON_parse P text with
  | Some v => ret v
  | None => throw (SyntaxError "Unexpected token in JSON")
  end.

(** [setTimeout] awaited through a promise. *)
Definition sleep (ms : N) : M unit := emit (SetTimeout ms).
End Primitives.

(** Runs a computation as far as its next call to the outer world. *)
Ltac step_M :=
  cbv beta iota zeta delta
    [try_catch bind perform emit ret throw lift
     console_log console_warn console_error Date_now sleep
     fs_access fs_mkdir fs_writeFile fs_readFile JSON_parse_M].

End Runtime.

(** ** scripts/process-data.js *)

Module Aggregator.
Import Runtime.

(** One element pushed on [processedData.regions[regionName].data]; its
    fields are what the entry holds, whatever that is. *)
Record Point := mkPoint {
  pt_timestamp : Value;
  pt_retailPrice : Value;
  pt_unitPrice : Value;
  pt_currencyCode : Value
}.

(** [processedData.regions[regionName].stats]; [None] is [null]. *)
Record Stats := mkStats {
  count : nat;
  current : Value;
  min : option float;
  max : option float;
  avg : option float
}.

(** [processedData.regions[regionName]]; [stats] is [undefined] until the
    second pass assigns it. *)
Record RegionData := mkRegionData {
  name : string;
  displayName : Value;
  data : list Point;
  stats : option Stats
}.

Record DateRange := mkDateRange {
  start : Value;
  end_ : Value
}.

Record Summary := mkSummary {
  totalEntries : Length;
  dateRange : DateRange
}.

Record ProcessedData := mkProcessedData {
  lastUpdated : string;
  regions : Props RegionData;
  summary : Summary
}.

(** [Math.min] and [Math.max] on numbers, as ECMAScript defines them:
    start from [+Infinity] (from [-Infinity]); a NaN argument makes the
    result NaN; [-0] is below [+0]. *)
Definition is_neg_zero (x : float) : bool :=
  PrimFloat.eqb x 0 && PrimFloat.ltb (1 / x) 0.
Definition is_pos_zero (x : float) : bool :=
  PrimFloat.eqb x 0 && PrimFloat.ltb 0 (1 / x).

Definition min_step (lowest number : float) : float :=
  if PrimFloat.is_nan lowest then lowest
  else if PrimFloat.is_nan number then number
  else if is_neg_zero number && is_pos_zero lowest then number
  else if PrimFloat.ltb number lowest then number
  else lowest.

Definition max_step (highest number : float) : float :=
  if PrimFloat.is_nan highest then highest
  else if PrimFloat.is_nan number then number
  else if is_pos_zero number && is_neg_zero highest then number
  else if PrimFloat.ltb highest number then number
  else highest.

(** [prices.length] as a number. *)
Definition number_of_nat (n : nat) : float :=
  PrimFloat.of_uint63 (Uint63.of_Z (Z.of_nat n)).

Definition push_data (p : Point) (r : RegionData) : RegionData :=
  {| name := name r; displayName := displayName r;
     data := data r ++ [p]; stats := stats r |}.

Section Aggregate.
Context (P : Platform).

(** [Math.min(...values)]: every argument is converted first. *)
Definition Math_min (values : list Value) : Result float :=
  coerced ← map_each (ToNumber P) values;
  Return (foldl min_step infinity coerced).

Definition Math_max (values : list Value) : Result float :=
  coerced ← map_each (ToNumber P) values;
  Return (foldl max_step neg_infinity coerced).

(** [prices.reduce((a, b) => a + b, 0)]. *)
Definition sum (prices : list Value) : Result Value :=
  forEach prices (add P) (VNum 0).

(** The [stats] object literal (lines 53-59) from the bucket's prices. *)
Definition calcStats (prices : list Value) : Result Stats :=
  let n := length prices in
  let current :=
    if (0 <? n)%nat then default VUndefined (prices !! (n - 1)%nat)
    else VNull in
  min ← (if (0 <? n)%nat then Some <$> Math_min prices else Return None);
  max ← (if (0 <? n)%nat then Some <$> Math_max prices else Return None);
  avg ← (if (0 <? n)%nat
         then total ← sum prices;
              t ← ToNumber P total;
              Return (Some (t / number_of_nat n)%float)
         else Return None);
  Return {| count := n; current := current; min := min; max := max;
            avg := avg |}.

(** Body of the inner [forEach] (lines 31-44) for one key of
    [entry.regions].  [processedData.regions[regionName]] finds the bucket
    of that name or, for a name of [Object.prototype], the inherited
    property, which is truthy and has no [data]. *)
Definition push_point (entry : Value) (acc : Props RegionData)
    (regionName : string) : Result (Props RegionData) :=
  let sample := member (member entry "regions") regionName in
  acc' ← (if bool_decide (regionName ∈ Object_prototype) then Return acc
          else
            match own regionName acc with
            | Some _ => Return acc
            | None =>
                location ← read sample "location";
                Return (assign regionName
                          {| name := regionName; displayName := location;
                             data := []; stats := None |} acc)
            end);
  match own regionName acc' with
  | Some bucket =>
      retailPrice ← read sample "retailPrice";
      Return (assign regionName
                (push_data {| pt_timestamp := member entry "timestamp";
                              pt_retailPrice := retailPrice;
                              pt_unitPrice := member sample "unitPrice";
                              pt_currencyCode := member sample "currencyCode" |}
                   bucket) acc')
  | None =>
      Throw (TypeError "Cannot read properties of undefined (reading 'push')")
  end.

(** Body of the outer [forEach] (lines 30-45):
    [Object.keys(entry.regions || {}).forEach(...)]. *)
Definition group_entry (acc : Props RegionData) (entry : Value)
    : Result (Props RegionData) :=
  regions ← read entry "regions";
  forEach (Object_keys (if truthy_value regions then regions else VObj []))
    (push_point entry) acc.

(** Body of the second pass (lines 50-59) for one bucket. *)
Definition set_stats (r : RegionData) : Result RegionData :=
  st ← calcStats (pt_retailPrice <$> data r);
  Return {| name := name r; displayName := displayName r; data := data r;
            stats := Some st |}.

(** The [summary] literal (lines 19-25) on the parsed document. *)
Definition summarize (priceData : Value) : Result Summary :=
  totalEntries ← get_length priceData;
  nonempty ← positive P totalEntries;
  start ← (if nonempty : bool then read (member priceData "0") "timestamp"
           else Return VNull);
  nonempty ← positive P totalEntries;
  end_ ← (if nonempty : bool
          then k ← last_key P totalEntries;
               read (member priceData k) "timestamp"
          else Return VNull);
  Return {| totalEntries := totalEntries;
            dateRange := {| start := start; end_ := end_ |} |}.

(** The first pass (lines 29-46): [priceData.forEach(...)] over the
    initially empty [regions] object. *)
Definition group (priceData : Value) : Result (Props RegionData) :=
  entries ← array_method priceData "priceData" "forEach";
  forEach entries group_entry [].

(** Lines 16-60 of [processData] on the parsed document; [now] is the
    value of [new Date().toISOString()]. *)
Definition aggregate (now : string) (priceData : Value)
    : Result ProcessedData :=
  summary ← summarize priceData;
  buckets ← group priceData;
  regions ← map_each (λ kr : string * RegionData,
                        r ← set_stats kr.2; Return (kr.1, r)) buckets;
  Return {| lastUpdated := now; regions := regions; summary := summary |}.

End Aggregate.

(** The summary as the value handed to [JSON.stringify]. *)
Definition length_value (len : Length) : Value :=
  match len with
  | Count n => VNum (number_of_nat n)
  | Other v => v
  end.

Definition number_or_null (x : option float) : Value :=
  match x with
  | Some x => VNum x
  | None => VNull
  end.

Definition point_value (p : Point) : Value :=
  VObj [ ("timestamp", pt_timestamp p);
         ("retailPrice", pt_retailPrice p);
         ("unitPrice", pt_unitPrice p);
         ("currencyCode", pt_currencyCode p) ].

Definition stats_value (st : Stats) : Value :=
  VObj [ ("count", VNum (number_of_nat (count st)));
         ("current", current st);
         ("min", number_or_null (min st));
         ("max", number_or_null (max st));
         ("avg", number_or_null (avg st)) ].

Definition region_value (r : RegionData) : Value :=
  VObj [ ("name", VStr (name r));
         ("displayName", displayName r);
         ("data", VArr (point_value <$> data r));
         ("stats", from_option stats_value VUndefined (stats r)) ].

Definition processed_value (d : ProcessedData) : Value :=
  VObj [ ("lastUpdated", VStr (lastUpdated d));
         ("regions", VObj (prod_map id region_value <$> regions d));
         ("summary",
          VObj [ ("totalEntries", length_value (totalEntries (summary d)));
                 ("dateRange",
                  VObj [ ("start", start (dateRange (summary d)));
                         ("end", end_ (dateRange (summary d))) ]) ]) ].

End Aggregator.

(** ** src/index.js *)

Module Checker.
Import Runtime.
Local Open Scope js_scope.

Definition AZURE_PRICING_API : string :=
  "https://prices.azure.com/api/retail/prices".
Definition API_VERSION : string := "2023-01-01-preview".

Record Region := mkRegion {
  name : string;
  displayName : string
}.

Definition REGIONS : list Region :=
  [ {| name := "eastus2"; displayName := "East US 2" |};
    {| name := "northeurope"; displayName := "North Europe" |} ].

Record VmConfig := mkVmConfig {
  serviceName : string;
  productName : string;
  armSkuName : string
}.

Definition VM_CONFIG : VmConfig :=
  {| serviceName := "Virtual Machines";
     productName := "Virtual Machines Dsv5 Series";
     armSkuName := "Standard_D16s_v5" |}.

Definition USER_AGENT : string * string :=
  ("User-Agent", "Azure-Spot-Price-Checker/1.0").

Definition newline : string := String (Ascii.ascii_of_nat 10) EmptyString.

Section AzureSpotPriceChecker.
Context (P : Platform) (W : World).

(** The fields set by the constructor. *)
Definition dataDir : string := path_join P [dirname P; ".."; "data"].
Definition logFile : string := path_join P [dataDir; "price-logs.json"].

Definition ensureDataDirectory : M unit :=
  try_catch
    (fs_access W dataDir ;;
     console_log [Str "📁 Data directory exists: "; Str dataDir])
    (λ error,
       console_log [Str "📁 Creating data directory: "; Str dataDir] ;;
       try_catch
         (fs_mkdir W dataDir ;;
          console_log [Str "✅ Data directory created successfully"])
         (λ mkdirError,
            if bool_decide (code mkdirError = Some "EROFS") then
              console_log
                [Str "📱 Read-only filesystem, skipping directory creation"] ;;
              ret tt
            else
              console_error [Str "❌ Failed to create data directory:";
                             Str (message mkdirError)] ;;
              throw mkdirError)).

Definition buildApiUrl (region : string) : string :=
  let baseUrl := AZURE_PRICING_API +:+ "?api-version=" +:+ API_VERSION in
  let filter :=
    "serviceName eq '" +:+ serviceName VM_CONFIG
    +:+ "' and productName eq '" +:+ productName VM_CONFIG
    +:+ "' and armRegionName eq '" +:+ region
    +:+ "' and armSkuName eq '" +:+ armSkuName VM_CONFIG
    +:+ "' and contains(skuName,'Spot')" in
  baseUrl +:+ "&$filter=" +:+ encodeURIComponent P filter.

Definition pricing_request (url : string) : Request :=
  {| url := url; headers := [USER_AGENT]; timeout := 30000%N |}.

(** Returns [Some] Sample, or [None] for the [null] of a failed fetch.
    [Items.length > 0] followed by [Items[0]] is the match on the head. *)
Definition fetchPriceData (region : string) : M (option Sample) :=
  try_catch
    (let url := buildApiUrl region in
     console_log [Str "Fetching price data for "; Str region; Str "..."] ;;
     response <- perform (PricingGet (pricing_request url))
                   (λ h, pricing_api W h (pricing_request url)) ;;
     match data response ≫= Items with
     | Some (item :: _) =>
         now <- Date_now W ;;
         ret (Some {| region := region;
                      timestamp := now;
                      retailPrice := it_retailPrice item;
                      unitPrice := it_unitPrice item;
                      currencyCode := it_currencyCode item;
                      location := it_location item;
                      effectiveStartDate := it_effectiveStartDate item;
                      meterName := it_meterName item;
                      skuName := it_skuName item |})
     | _ =>
         console_warn [Str "No pricing data found for region: "; Str region] ;;
         ret None
     end)
    (λ error,
       console_error [Str "Error fetching price data for "; Str region;
                      Str ":"; Str (message error)] ;;
       ret None).

Definition github_headers (githubToken : string) : list (string * string) :=
  [ ("Authorization", "token " +:+ githubToken);
    ("Accept", "application/vnd.github.v3+json");
    USER_AGENT ].

Definition is_404 (error : JsError) : bool :=
  match response error with
  | Some r => bool_decide (status r = 404)
  | None => false
  end.

Definition fetchDataFromGitHub : M Value :=
  let githubToken := env W "GITHUB_TOKEN" in
  let githubRepo := env W "GITHUB_REPO" in
  let githubOwner := env W "GITHUB_OWNER" in
  if negb (truthy githubToken) || negb (truthy githubRepo)
     || negb (truthy githubOwner) then
    console_log
      [Str "GitHub credentials not configured, skipping GitHub data fetch"] ;;
    ret (VArr [])
  else
    try_catch
      (console_log [Str "Fetching existing data from GitHub..."] ;;
       let url := "https://api.github.com/repos/" +:+ default "" githubOwner
                  +:+ "/" +:+ default "" githubRepo
                  +:+ "/contents/data/price-logs.json" in
       let req := {| url := url;
                     headers := github_headers (default "" githubToken);
                     timeout := 10000%N |} in
       response <- perform (GithubGet req) (λ h, github_read W h req) ;;
       match data response ≫= content with
       | Some encoded =>
           if truthy (Some encoded) then
             let content := base64_decode P encoded in
             JSON_parse_M P content
           else ret (VArr [])
       | None => ret (VArr [])
       end)
      (λ error,
         (if is_404 error then
            console_log
              [Str "No existing data file found in GitHub (first run)"]
          else
            console_error [Str "Error fetching data from GitHub:";
                           Str (message error)]) ;;
         ret (VArr [])).

(** [githubData.length] is read outside any [try]. *)
Definition loadExistingData : M Value :=
  githubData <- fetchDataFromGitHub ;;
  len <- lift (get_length githubData) ;;
  nonempty <- lift (positive P len) ;;
  if nonempty : bool then
    entries <- lift (template P len) ;;
    console_log [Str "✅ Loaded "; entries;
                 Str " existing entries from GitHub"] ;;
    ret githubData
  else
    try_catch
      (data <- fs_readFile W logFile ;;
       localData <- JSON_parse_M P data ;;
       len <- lift (get_length localData) ;;
       entries <- lift (template P len) ;;
       console_log [Str "📁 Loaded "; entries;
                    Str " entries from local file"] ;;
       ret localData)
      (λ _,
         console_log [Str "🆕 No existing data found, starting fresh"] ;;
         ret (VArr [])).

Definition saveData (newData : RunRecord) : M unit :=
  try_catch
    (ensureDataDirectory ;;
     fs_writeFile W logFile (JSON_stringify P (VArr [record_value newData])) ;;
     console_log [Str "📁 Data saved locally for current run"])
    (λ error,
       if bool_decide (code error = Some "EROFS") then
         console_log
           [Str "📱 Read-only filesystem detected, skipping local save (using GitHub only)"]
       else
         console_warn [Str "⚠️ Could not save locally: ";
                       Str (message error)]).

Definition pushToGitHub (allData : Dataset) : M unit :=
  let githubToken := env W "GITHUB_TOKEN" in
  let githubRepo := env W "GITHUB_REPO" in
  let githubOwner := env W "GITHUB_OWNER" in
  if negb (truthy githubToken) || negb (truthy githubRepo)
     || negb (truthy githubOwner) then
    console_log
      [Str "GitHub credentials not configured. Skipping GitHub push."]
  else
    try_catch
      (console_log [Str "Pushing updated data to GitHub repository..."] ;;
       let filePath := "data/price-logs.json" in
       let url := "https://api.github.com/repos/" +:+ default "" githubOwner
                  +:+ "/" +:+ default "" githubRepo
                  +:+ "/contents/" +:+ filePath in
       let get := {| url := url;
                     headers := github_headers (default "" githubToken);
                     timeout := 10000%N |} in
       sha <- try_catch
                (existingFileResponse <-
                   perform (GithubGet get) (λ h, github_read W h get) ;;
                 match data existingFileResponse with
                 | Some d =>
                     console_log [Str "Found existing file, will update it"] ;;
                     ret (sha d)
                 | None =>
                     throw (TypeError "Cannot read properties of undefined (reading 'sha')")
                 end)
                (λ error,
                   if is_404 error then
                     console_log
                       [Str "No existing file found, will create new one"] ;;
                     ret None
                   else throw error) ;;
       let content := JSON_stringify P (VArr allData) in
       let encodedContent := base64_encode P content in
       now <- Date_now W ;;
       let requestBody :=
         {| pb_message := "Update price data: " +:+ now;
            pb_content := encodedContent;
            pb_branch := "main";
            pb_sha := if truthy sha then sha else None |} in
       let put := {| url := url;
                     headers := github_headers (default "" githubToken);
                     timeout := 15000%N |} in
       response <- perform (GithubPut put requestBody)
                     (λ h, github_write W h put requestBody) ;;
       console_log [Str "✅ Successfully pushed "; Len (length allData);
                    Str " entries to GitHub"] ;;
       match data response ≫= commit with
       | Some html_url => console_log [Str "📝 Commit: "; Str html_url]
       | None =>
           throw (TypeError "Cannot read properties of undefined (reading 'html_url')")
       end)
      (λ error,
         console_error [Str "❌ Error pushing to GitHub:"; Str (message error)] ;;
         match response error with
         | Some r =>
             console_error [Str "Response status:"; Len (status r)] ;;
             console_error [Str "Response data:"; Str (body r)]
         | None => ret tt
         end).

(** The body of the [for (const region of REGIONS)] loop of [run]. *)
Definition attempt (results : RunRecord) (region : Region) : M RunRecord :=
  priceData <- fetchPriceData (name region) ;;
  results' <-
    match priceData with
    | Some sample =>
        console_log [Str "✅ "; Str (displayName region); Str ": $";
                     Num (retailPrice sample); Str "/hour"] ;;
        ret {| rr_timestamp := rr_timestamp results;
               rr_regions := assign (name region) sample (rr_regions results) |}
    | None =>
        console_log [Str "❌ "; Str (displayName region);
                     Str ": Failed to fetch data"] ;;
        ret results
    end ;;
  sleep 1000%N ;;
  ret results'.

(** Lines 169-188 of [run]: the Run Record of this invocation. *)
Definition collect : M RunRecord :=
  console_log [Str "=== Azure Spot Price Checker Started ==="] ;;
  t <- Date_now W ;;
  console_log [Str "Timestamp: "; Str t] ;;
  now <- Date_now W ;;
  for_of REGIONS attempt {| rr_timestamp := now; rr_regions := [] |}.

(** [existingData.push(results)] throws when what was loaded is not an
    array. *)
Definition run : M unit :=
  results <- collect ;;
  existingData <- loadExistingData ;;
  existingData <-
    lift (push existingData "existingData" (record_value results)) ;;
  saveData results ;;
  pushToGitHub existingData ;;
  console_log [Str ("=== Price Check Complete ===" +:+ newline)].

(** [main] with the process-level handlers: the exit code. *)
Definition main (h : History) : nat * History :=
  match run h with
  | (Return _, h') => (0, ProcessExit 0 :: h')
  | (Throw reason, h') =>
      (1, ProcessExit 1
          :: Console ERROR [Str "Unhandled Rejection at:"; Str "reason:";
                            Str (message reason)]
          :: h')
  end.
End AzureSpotPriceChecker.

End Checker.


(** ** scripts/process-data.js: the script around [aggregate] *)

Module ProcessData.
Import Runtime Aggregator.
Local Open Scope js_scope.

Section processData.
Context (P : Platform) (W : World).

Definition dataPath : string :=
  path_join P [dirname P; ".."; "data"; "price-logs.json"].
Definition outputPath : string :=
  path_join P [dirname P; ".."; "docs"; "price-data.json"].

(** Everything between the parse and the creation of the directory can
    throw; the one [catch] reports it and ends the process. *)
Definition processData : M unit :=
  try_catch
    (rawData <- fs_readFile W dataPath ;;
     priceData <- JSON_parse_M P rawData ;;
     len <- lift (get_length priceData) ;;
     entries <- lift (template P len) ;;
     console_log [Str "Processing "; entries; Str " price entries..."] ;;
     now <- Date_now W ;;
     processedData <- lift (aggregate P now priceData) ;;
     fs_mkdir W (path_join P [dirname P; ".."; "docs"]) ;;
     fs_writeFile W outputPath
       (JSON_stringify P (processed_value processedData)) ;;
     console_log [Str "✅ Processed data written to "; Str outputPath] ;;
     console_log
       [Str "Regions processed: ";
        Str (String.concat ", " (keys (regions processedData)))])
    (λ error,
       console_error [Str "Error processing data:"; Str (message error)] ;;
       emit (ProcessExit 1)).
End processData.

End ProcessData.

(** ** src/index.js, the earlier revision kept in the same file

    Lines 296-473: the version that keeps the history in the local file
    only.  Its constructor, [buildApiUrl], [fetchPriceData] and the loop of
    [run] are, word for word, those of the current revision and are shared
    with it. *)

Module Legacy.
Import Runtime.
Local Open Scope js_scope.

Section AzureSpotPriceChecker.
Context (P : Platform) (W : World).

Definition ensureDataDirectory : M unit :=
  try_catch (fs_access W (Checker.dataDir P))
    (λ _, fs_mkdir W (Checker.dataDir P)).

Definition loadExistingData : M Value :=
  try_catch
    (data <- fs_readFile W (Checker.logFile P) ;;
     JSON_parse_M P data)
    (λ _, ret (VArr [])).

Definition maxEntries : nat := 1440.

(** [existingData.push(newData)] throws when the file holds something
    else than an array; [existingData.splice(0, existingData.length -
    maxEntries)] removes the oldest entries. *)
Definition saveData (newData : RunRecord) : M unit :=
  ensureDataDirectory ;;
  existingData <- loadExistingData ;;
  existingData <-
    lift (push existingData "existingData" (record_value newData)) ;;
  let existingData :=
    if (maxEntries <? length existingData)%nat
    then drop (length existingData - maxEntries) existingData
    else existingData in
  fs_writeFile W (Checker.logFile P) (JSON_stringify P (VArr existingData)) ;;
  console_log [Str "Data saved. Total entries: "; Len (length existingData)].

Definition pushToGitHub (data : RunRecord) : M unit :=
  let githubToken := env W "GITHUB_TOKEN" in
  let githubRepo := env W "GITHUB_REPO" in
  let githubOwner := env W "GITHUB_OWNER" in
  if negb (truthy githubToken) || negb (truthy githubRepo)
     || negb (truthy githubOwner) then
    console_log
      [Str "GitHub credentials not configured. Skipping GitHub push."]
  else
    try_catch
      (console_log [Str "Pushing data to GitHub repository..."] ;;
       console_log [Str "Data to push:";
                    Str (JSON_stringify P (record_value data))])
      (λ error,
         console_error [Str "Error pushing to GitHub:"; Str (message error)]).

Definition run : M unit :=
  results <- Checker.collect P W ;;
  saveData results ;;
  pushToGitHub results ;;
  console_log [Str ("=== Price Check Complete ===" +:+ Checker.newline)].

Definition main (h : History) : nat * History :=
  match run h with
  | (Return _, h') => (0, ProcessExit 0 :: h')
  | (Throw reason, h') =>
      (1, ProcessExit 1
          :: Console ERROR [Str "Unhandled Rejection at:"; Str "reason:";
                            Str (message reason)]
          :: h')
  end.
End AzureSpotPriceChecker.

End Legacy.

(** * Specification vocabulary *)

Local Open Scope list_scope.

(** A Dataset of the specification, a sequence of Run Records, as the
    document that [JSON.parse] yields for it. *)
Definition dataset_value (D : list RunRecord) : Value :=
  VArr (record_value <$> D).

(** A Run Record whose region mapping lists each key once, none of them
    the name of a property of [Object.prototype]. *)
Definition plain_keys (entry : RunRecord) : Prop :=
  NoDup (keys (rr_regions entry))
  ∧ Forall (λ k, k ∉ Object_prototype) (keys (rr_regions entry)).

(** The Samples stored under region key [k], each with the Run Record it
    comes from, in the order of the dataset. *)
Definition samples_of (k : string) (D : list RunRecord)
    : list (RunRecord * Sample) :=
  omap (λ entry, pair entry <$> own k (rr_regions entry)) D.

(** The retail prices recorded for region key [k], oldest first. *)
Definition prices_of (k : string) (D : list RunRecord) : list float :=
  (λ es, retailPrice es.2) <$> samples_of k D.

(** The number of Samples in the dataset. *)
Definition sample_count (D : list RunRecord) : nat :=
  sum_list_with (λ entry, length (rr_regions entry)) D.

(** The number of points held by all the buckets together. *)
Definition placed (buckets : Props Aggregator.RegionData) : nat :=
  sum_list_with (λ kr : string * Aggregator.RegionData,
                   length (Aggregator.data kr.2)) buckets.

(** The point that the Sample [s] of the Run Record [entry] gives. *)
Definition point_of (entry : RunRecord) (s : Sample) : Aggregator.Point :=
  {| Aggregator.pt_timestamp := VStr (rr_timestamp entry);
     Aggregator.pt_retailPrice := VNum (retailPrice s);
     Aggregator.pt_unitPrice := VNum (unitPrice s);
     Aggregator.pt_currencyCode := VStr (currencyCode s) |}.

(** Numbers as a JSON document contains them: never NaN. *)
Definition not_nan (x : float) : Prop := PrimFloat.is_nan x = false.

(** The order of binary64 numbers. *)
Definition fle (x y : float) : Prop := PrimFloat.leb x y = true.

Definition is_minimum (m : float) (l : list float) : Prop :=
  m ∈ l ∧ ∀ y, y ∈ l → fle m y.

Definition is_maximum (m : float) (l : list float) : Prop :=
  m ∈ l ∧ ∀ y, y ∈ l → fle y m.

(** The exact value of a finite binary64 number, in units of 2^-1074 (of
    which every such number is an integer multiple). *)
Definition exact (x : float) : option Z :=
  match Prim2SF x with
  | S754_zero _ => Some 0%Z
  | S754_finite s m e =>
      Some ((if s then -1 else 1) * Z.pos m * 2 ^ (e + 1074))%Z
  | _ => None
  end.

(** The arithmetic mean of the specification, as far as binary64 can give
    it: the numbers [l] are finite and at least one, [a] is finite, and no
    binary64 number is nearer than [a] to the sum of [l] divided by their
    count.  When that quotient is a binary64 number, [a] is that number. *)
Definition is_arithmetic_mean (a : float) (l : list float) : Prop :=
  l ≠ []
  ∧ ∃ za zs, exact a = Some za ∧ mapM exact l = Some zs
      ∧ ∀ b zb, exact b = Some zb →
          (Z.abs (za * Z.of_nat (length l) - foldr Z.add 0 zs)
           ≤ Z.abs (zb * Z.of_nat (length l) - foldr Z.add 0 zs))%Z.

(** What a bucket holding [o] becomes once the Samples [hits] of its key
    have been pushed on it. *)
Definition extend (k : string) (o : option Aggregator.RegionData)
    (hits : list (RunRecord * Sample)) : option Aggregator.RegionData :=
  match o with
  | Some r =>
      Some {| Aggregator.name := Aggregator.name r;
              Aggregator.displayName := Aggregator.displayName r;
              Aggregator.data :=
                Aggregator.data r ++ (uncurry point_of <$> hits);
              Aggregator.stats := Aggregator.stats r |}
  | None =>
      match hits with
      | [] => None
      | es :: _ =>
          Some {| Aggregator.name := k;
                  Aggregator.displayName := VStr (location es.2);
                  Aggregator.data := uncurry point_of <$> hits;
                  Aggregator.stats := None |}
      end
  end.

(** The pricing queries among the events [evs], oldest first. *)
Definition pricing_requests (evs : Runtime.History) : list Runtime.Request :=
  rev (omap (λ ev, match ev with
                   | Runtime.PricingGet req => Some req
                   | _ => None
                   end) evs).

(** The bodies of the remote writes among the events [evs], oldest first. *)
Definition remote_writes (evs : Runtime.History) : list Runtime.PutBody :=
  rev (omap (λ ev, match ev with
                   | Runtime.GithubPut _ body => Some body
                   | _ => None
                   end) evs).

(** The local file writes among the events [evs], oldest first. *)
Definition local_writes (evs : Runtime.History) : list (string * string) :=
  rev (omap (λ ev, match ev with
                   | Runtime.FsWriteFile path text => Some (path, text)
                   | _ => None
                   end) evs).

(** The requests sent to GitHub among the events [evs], oldest first. *)
Definition github_requests (evs : Runtime.History) : list Runtime.Request :=
  rev (omap (λ ev, match ev with
                   | Runtime.GithubGet req => Some req
                   | Runtime.GithubPut req _ => Some req
                   | _ => None
                   end) evs).

(** The pricing queries and the pauses among the events [evs], oldest
    first. *)
Definition pacing (evs : Runtime.History) : list Runtime.Event :=
  rev (omap (λ ev, match ev with
                   | Runtime.PricingGet _ | Runtime.SetTimeout _ => Some ev
                   | _ => None
                   end) evs).

(** What the [catch] of [pushToGitHub] prints for [error], newest first. *)
Definition error_report (error : JsError) : Runtime.History :=
  match response error with
  | Some r =>
      [ Runtime.Console Runtime.ERROR
          [Runtime.Str "Response data:"; Runtime.Str (body r)];
        Runtime.Console Runtime.ERROR
          [Runtime.Str "Response status:"; Runtime.Len (status r)];
        Runtime.Console Runtime.ERROR
          [Runtime.Str "❌ Error pushing to GitHub:";
           Runtime.Str (message error)] ]
  | None =>
      [ Runtime.Console Runtime.ERROR
          [Runtime.Str "❌ Error pushing to GitHub:";
           Runtime.Str (message error)] ]
  end.

(** The entries that the earlier revision keeps of a history extended
    with one entry. *)
Definition retained (existing : Dataset) (newData : Value) : Dataset :=
  let all := existing ++ [newData] in
  if (Legacy.maxEntries <? length all)%nat
  then drop (length all - Legacy.maxEntries) all
  else all.

(** * Concrete platforms and worlds *)

Module Scenario.
Import Runtime Checker.

(** [path.join] for an absolute POSIX directory: the segments of all the
    parts, a [..] removing the segment before it. *)
Fixpoint segments (s cur : string) : list string :=
  match s with
  | EmptyString => [cur]
  | String c s' =>
      if String.eqb (String c EmptyString) "/" then cur :: segments s' EmptyString
      else segments s' (cur +:+ String c EmptyString)
  end.

Definition resolve (path : list string) (segment : string) : list string :=
  if String.eqb segment ".." then removelast path
  else if String.eqb segment "" || String.eqb segment "." then path
  else path ++ [segment].

Definition join (parts : list string) : string :=
  "/" +:+ String.concat "/"
            (foldl resolve [] (parts ≫= λ part, segments part EmptyString)).

(** [Number::toString] for the integers; fractions are not printed. *)
Definition integer_toString (x : float) : string :=
  match Prim2SF x with
  | S754_zero _ => "0"
  | S754_infinity s => if s then "-Infinity" else "Infinity"
  | S754_nan => "NaN"
  | S754_finite s m e =>
      let sign := if s then "-" else "" in
      if (0 <=? e)%Z then sign +:+ pretty (Z.pos m * 2 ^ e)%Z
      else if (Z.pos m mod 2 ^ (- e) =? 0)%Z
           then sign +:+ pretty (Z.pos m / 2 ^ (- e))%Z
           else "<fraction>"
  end.

(** [StringToNumber] for decimal numerals without sign or fraction. *)
Definition numeral_toNumber (s : string) : float :=
  match digits s 0 with
  | Some n => PrimFloat.of_uint63 (Uint63.of_Z (Z.of_N n))
  | None => nan
  end.

(** A document as text, written without the quotes of JSON. *)
Fixpoint print (v : Value) : string :=
  match v with
  | VUndefined => "undefined"
  | VNull => "null"
  | VBool b => if b then "true" else "false"
  | VNum x => integer_toString x
  | VStr s => s
  | VArr elements =>
      "[" +:+ (fix items (l : list Value) : string :=
                 match l with
                 | [] => ""
                 | e :: l' =>
                     match l' with
                     | [] => print e
                     | _ :: _ => print e +:+ "," +:+ items l'
                     end
                 end) elements +:+ "]"
  | VObj properties =>
      "{" +:+ (fix fields (o : list (string * Value)) : string :=
                 match o with
                 | [] => ""
                 | (k, e) :: o' =>
                     match o' with
                     | [] => k +:+ ":" +:+ print e
                     | _ :: _ => k +:+ ":" +:+ print e +:+ "," +:+ fields o'
                     end
                 end) properties +:+ "}"
  end.

(** ** Datasets *)

Definition sample_record : RunRecord :=
  {| rr_timestamp := "2025-01-01T00:00:00.000Z"; rr_regions := [] |}.

Definition sample_of (key : string) (price : float) : Sample :=
  {| region := key; timestamp := "2025-01-01T00:00:00.000Z";
     retailPrice := price; unitPrice := price; currencyCode := "USD";
     location := "US East 2"; effectiveStartDate := "2024-12-01T00:00:00Z";
     meterName := "D16s v5 Spot"; skuName := "D16s v5 Spot" |}.

Definition record_of (time key : string) (price : float) : RunRecord :=
  {| rr_timestamp := time; rr_regions := [(key, sample_of key price)] |}.

(** Scenario E: three Run Records with [eastus2] priced 1.0, 2.0, 3.0. *)
Definition scenarioE : list RunRecord :=
  [ record_of "2025-01-01T00:00:00.000Z" "eastus2" 1;
    record_of "2025-01-01T00:01:00.000Z" "eastus2" 2;
    record_of "2025-01-01T00:02:00.000Z" "eastus2" 3 ].

(** Prices 0.1, 0.2 and 0.3, as binary64 has them. *)
Definition tenths : list RunRecord :=
  [ record_of "2025-01-01T00:00:00.000Z" "eastus2" 0x1.999999999999ap-4;
    record_of "2025-01-01T00:01:00.000Z" "eastus2" 0x1.999999999999ap-3;
    record_of "2025-01-01T00:02:00.000Z" "eastus2" 0x1.3333333333333p-2 ].

(** Two prices of 1.797e308. *)
Definition huge : list RunRecord :=
  [ record_of "2025-01-01T00:00:00.000Z" "eastus2" 0x1.ffcd7672f2096p+1023;
    record_of "2025-01-01T00:01:00.000Z" "eastus2" 0x1.ffcd7672f2096p+1023 ].

(** The second Run Record reports another [location] for the region. *)
Definition relocated : list RunRecord :=
  [ record_of "2025-01-01T00:00:00.000Z" "eastus2" 1;
    {| rr_timestamp := "2025-01-01T00:01:00.000Z";
       rr_regions :=
         [ ("eastus2",
            {| region := "eastus2"; timestamp := "2025-01-01T00:01:00.000Z";
               retailPrice := 2; unitPrice := 2; currencyCode := "USD";
               location := "Virginia";
               effectiveStartDate := "2024-12-01T00:00:00Z";
               meterName := "D16s v5 Spot"; skuName := "D16s v5 Spot" |}) ] |} ].

(** A region whose key is the name of an inherited property. *)
Definition inherited_key : list RunRecord :=
  [ record_of "2025-01-01T00:00:00.000Z" "constructor" 1 ].

(** A history file at the limit of the earlier revision. *)
Definition full_history : Dataset :=
  replicate 1440 (record_value sample_record).

(** ** The platform *)

(** The documents that the platform's parser knows. *)
Definition documents : list Value :=
  [ VArr []; VNull; VObj []; VStr "price-logs";
    dataset_value [sample_record]; dataset_value scenarioE;
    dataset_value inherited_key; VArr full_history ].

Definition parse (text : string) : option Value :=
  head (filter (λ v, print v = text) documents).

Definition platform : Platform :=
  {| dirname := "/app/src";
     path_join := join;
     encodeURIComponent := id;
     base64_encode := λ s, "base64:" +:+ s;
     base64_decode := λ s, String.substring 7 (String.length s - 7) s;
     JSON_stringify := print;
     JSON_parse := parse;
     StringToNumber := numeral_toNumber;
     Number_toString := integer_toString |}.

(** ** Worlds *)

Definition item (price : float) : Item :=
  {| it_retailPrice := price; it_unitPrice := price;
     it_currencyCode := "USD"; it_location := "US East 2";
     it_effectiveStartDate := "2024-12-01T00:00:00Z";
     it_meterName := "D16s v5 Spot"; it_skuName := "D16s v5 Spot" |}.

Definition fs_error (c : string) : JsError :=
  {| message := c +:+ ": file system error"; code := Some c;
     response := None |}.

Definition http_error (s : nat) (b : string) : JsError :=
  {| message := "Request failed"; code := Some "ERR_BAD_REQUEST";
     response := Some {| status := s; body := b |} |}.

(** The file that GitHub serves for a document. *)
Definition file (document : Value) : Result (Response FileData) :=
  Return {| data := Some {| content := Some ("base64:" +:+ print document);
                            sha := Some "3d21ec5" |} |}.

(** A world that answers the remote read with [read] and the remote write
    with [write], on a read-only disk without a data directory. *)
Definition world_with (read : Result (Response FileData))
    (write : Result (Response CommitData)) : World :=
  {| env := λ k,
       if decide (k = "GITHUB_TOKEN") then Some "ghp_token"
       else if decide (k = "GITHUB_REPO") then Some "azure-spotnode-price-checker"
       else if decide (k = "GITHUB_OWNER") then Some "RAVEENSR"
       else None;
     clock := λ _, "2025-01-01T00:00:00.000Z";
     pricing_api := λ _ req,
       if decide (url req = buildApiUrl platform "eastus2")
       then Return {| data := Some {| Items := Some [item 0.125] |} |}
       else Return {| data := Some {| Items := Some [item 0.25] |} |};
     github_read := λ _ _, read;
     github_write := λ _ _ _, write;
     fs_access_result := λ _ _, Throw (fs_error "ENOENT");
     fs_mkdir_result := λ _ _, Throw (fs_error "EROFS");
     fs_writeFile_result := λ _ _ _, Throw (fs_error "EROFS");
     fs_readFile_result := λ _ _, Return "[]" |}.

(** The file exists, holds one Run Record and has a revision token; the
    write is refused. *)
Definition world : World :=
  world_with (file (dataset_value [sample_record]))
    (Throw (http_error 409 "conflict")).

(** The file exists and the write is accepted. *)
Definition accepting : World :=
  world_with (file (dataset_value [sample_record]))
    (Return {| data := Some {| commit := Some "https://github.com/commit/1" |} |}).

(** GitHub answers the read with a server error. *)
Definition unavailable : World :=
  world_with (Throw (http_error 500 "server error"))
    (Throw (http_error 409 "conflict")).


(** The remote document is a JSON string. *)
Definition texted : World :=
  world_with (file (VStr "price-logs")) (Throw (http_error 409 "conflict")).

(** A world without credentials, whose disk holds no readable file. *)
Definition offline : World :=
  {| env := λ _, None;
     clock := clock world;
     pricing_api := λ _ _, Throw (http_error 503 "unavailable");
     github_read := github_read world;
     github_write := github_write world;
     fs_access_result := fs_access_result world;
     fs_mkdir_result := fs_mkdir_result world;
     fs_writeFile_result := λ _ _ _, Throw (fs_error "EACCES");
     fs_readFile_result := λ _ _, Throw (fs_error "ENOENT") |}.

(** A world without credentials on a writable disk with a data directory,
    whose history file holds [document]; a write fails when [refused]. *)
Definition disk (document : Value) (refused : bool) : World :=
  {| env := λ _, None;
     clock := clock world;
     pricing_api := pricing_api world;
     github_read := github_read world;
     github_write := github_write world;
     fs_access_result := λ _ _, Return tt;
     fs_mkdir_result := λ _ _, Return tt;
     fs_writeFile_result := λ _ _ _,
       if refused then Throw (fs_error "ENOSPC") else Return tt;
     fs_readFile_result := λ _ _, Return (print document) |}.

End Scenario.

(** * The order of binary64 numbers *)

Section FloatOrder.

Lemma SFcompare_flip a b c :
  SFcompare a b = Some c → SFcompare b a = Some (CompOpp c).
Proof.
  destruct a as [[]|[]| |[] m1 e1], b as [[]|[]| |[] m2 e2]; simpl;
    intros H; inversion H; subst; clear H; try reflexivity.
  all: rewrite (Z.compare_antisym e1 e2);
    destruct (e1 ?= e2)%Z; simpl; try reflexivity;
    rewrite !Pos.compare_cont_spec; simpl;
    rewrite (Pos.compare_antisym m1 m2); by destruct (m1 ?= m2)%positive.
Qed.

Lemma SFcompare_defined a b :
  a ≠ S754_nan → b ≠ S754_nan → is_Some (SFcompare a b).
Proof.
  destruct a as [[]|[]| |[] m1 e1], b as [[]|[]| |[] m2 e2]; simpl;
    intros; try congruence; eauto.
Qed.

Lemma SFleb_chain a b c :
  SFleb a b = true → SFleb b c = true → SFleb a c = true.
Proof.
  unfold SFleb.
  destruct a as [[]|[]| |[] m1 e1], b as [[]|[]| |[] m2 e2],
           c as [[]|[]| |[] m3 e3];
    simpl; try (intros; congruence); try reflexivity.
  all: rewrite !Pos.compare_cont_spec; simpl;
    destruct (Z.compare_spec e1 e2), (Z.compare_spec e2 e3),
             (Z.compare_spec e1 e3);
    try lia; try (intros; congruence); subst; simpl;
    destruct (Pos.compare_spec m1 m2), (Pos.compare_spec m2 m3),
             (Pos.compare_spec m1 m3);
    simpl; try lia; try (intros; congruence).
Qed.

Lemma not_nan_Prim2SF x : not_nan x → Prim2SF x ≠ S754_nan.
Proof.
  unfold not_nan, PrimFloat.is_nan. rewrite FloatAxioms.eqb_spec.
  unfold SFeqb. intros H E. rewrite E in H. discriminate.
Qed.

Lemma fle_refl x : not_nan x → fle x x.
Proof.
  intros H%not_nan_Prim2SF. unfold fle. rewrite FloatAxioms.leb_spec.
  unfold SFleb.
  destruct (Prim2SF x) as [[]|[]| |[] m e]; simpl; try congruence;
    try reflexivity.
  all: rewrite Z.compare_refl, Pos.compare_cont_spec, Pos.compare_refl;
    reflexivity.
Qed.

Lemma fle_trans x y z : fle x y → fle y z → fle x z.
Proof. unfold fle. rewrite !FloatAxioms.leb_spec. apply SFleb_chain. Qed.

Lemma ltb_fle x y : PrimFloat.ltb x y = true → fle x y.
Proof.
  unfold fle. rewrite FloatAxioms.ltb_spec, FloatAxioms.leb_spec.
  unfold SFltb, SFleb. by destruct (SFcompare _ _) as [[]|].
Qed.

Lemma eqb_fle x y : PrimFloat.eqb x y = true → fle x y ∧ fle y x.
Proof.
  unfold fle. rewrite FloatAxioms.eqb_spec, !FloatAxioms.leb_spec.
  unfold SFeqb, SFleb.
  destruct (SFcompare (Prim2SF x) _) as [[]|] eqn:E; try discriminate.
  by rewrite (SFcompare_flip _ _ _ E).
Qed.

Lemma not_ltb_fle x y :
  not_nan x → not_nan y → PrimFloat.ltb x y = false → fle y x.
Proof.
  intros Hx%not_nan_Prim2SF Hy%not_nan_Prim2SF. unfold fle.
  rewrite FloatAxioms.ltb_spec, FloatAxioms.leb_spec. unfold SFltb, SFleb.
  destruct (SFcompare_defined _ _ Hx Hy) as [c E]. rewrite E.
  rewrite (SFcompare_flip _ _ _ E). by destruct c.
Qed.

Lemma fle_infinity_l x : fle infinity x → x = infinity.
Proof.
  unfold fle. rewrite FloatAxioms.leb_spec. intros H. apply Prim2SF_inj.
  change (Prim2SF infinity) with (S754_infinity false) in *.
  unfold SFleb in H. by destruct (Prim2SF x) as [[]|[]| |[] m e].
Qed.

Lemma fle_neg_infinity_r x : fle x neg_infinity → x = neg_infinity.
Proof.
  unfold fle. rewrite FloatAxioms.leb_spec. intros H. apply Prim2SF_inj.
  change (Prim2SF neg_infinity) with (S754_infinity true) in *.
  unfold SFleb in H. by destruct (Prim2SF x) as [[]|[]| |[] m e].
Qed.

Lemma zeros_fle x y :
  PrimFloat.eqb x 0 = true → PrimFloat.eqb y 0 = true → fle x y.
Proof.
  intros [Hx _]%eqb_fle [_ Hy]%eqb_fle. by eapply fle_trans.
Qed.

End FloatOrder.

(** * Own properties and assignment *)

Section PropsFacts.
Context {A : Type}.
Implicit Types (o : Props A) (k : string) (v : A).

Lemma own_None_keys k o : own k o = None ↔ k ∉ keys o.
Proof.
  unfold keys. induction o as [|[k' v'] o IH]; simpl.
  - split; [intros _ H; by apply elem_of_nil in H | done].
  - destruct (decide (k' = k)) as [->|Hne].
    + split; [done|]. intros H. exfalso. apply H, elem_of_cons. by left.
    + rewrite IH. split.
      * intros H [Heq|Hin]%elem_of_cons; [by subst | done].
      * intros H Hin. apply H, elem_of_cons. by right.
Qed.

Lemma own_Some_keys k o v : own k o = Some v → k ∈ keys o.
Proof.
  intros H. destruct (decide (k ∈ keys o)) as [|Hn]; [done|].
  apply own_None_keys in Hn. congruence.
Qed.

Lemma own_elem_of k o v : own k o = Some v → (k, v) ∈ o.
Proof.
  induction o as [|[k' v'] o IH]; simpl; [done|].
  destruct (decide (k' = k)) as [->|Hne].
  - intros [= ->]. apply elem_of_cons. by left.
  - intros H. apply elem_of_cons. right. by apply IH.
Qed.

Lemma elem_of_own k o v : NoDup (keys o) → (k, v) ∈ o → own k o = Some v.
Proof.
  unfold keys. induction o as [|[k' v'] o IH]; simpl.
  - by intros _ H%elem_of_nil.
  - intros [Hk Hnd]%NoDup_cons [[= -> ->]|Hin]%elem_of_cons.
    + by rewrite decide_True.
    + rewrite decide_False; [by apply IH|].
      intros ->. apply Hk. by apply (list_elem_of_fmap_2 fst _ (k, v)).
Qed.

Lemma own_app k o1 o2 :
  own k (o1 ++ o2) = match own k o1 with Some v => Some v | None => own k o2 end.
Proof.
  induction o1 as [|[k' v'] o1 IH]; simpl; [done|].
  by destruct (decide (k' = k)).
Qed.

Lemma own_replace k k' v o :
  own k' (replace k v o)
  = if decide (k = k') then (λ _, v) <$> own k o else own k' o.
Proof.
  induction o as [|[k0 v0] o IH]; simpl.
  - by destruct (decide (k = k')).
  - destruct (decide (k0 = k)) as [->|Hne]; simpl.
    + by destruct (decide (k = k')).
    + rewrite IH. destruct (decide (k = k')) as [->|Hne']; [|done].
      by rewrite decide_False.
Qed.

Lemma own_insert_index n k k' v o :
  own k o = None →
  own k' (insert_index n k v o) = if decide (k = k') then Some v else own k' o.
Proof.
  induction o as [|[k0 v0] o IH]; simpl; intros Hk.
  - by destruct (decide (k = k')).
  - destruct (decide (k0 = k)) as [->|Hne]; [done|].
    destruct (array_index k0) as [n0|]; [destruct (n <? n0)%N|]; simpl.
    + destruct (decide (k = k')) as [->|Hne']; [done|]. done.
    + rewrite IH by done.
      destruct (decide (k = k')) as [->|Hne']; [|done].
      by rewrite decide_False.
    + by destruct (decide (k = k')).
Qed.

Lemma own_assign k k' v o :
  own k' (assign k v o) = if decide (k = k') then Some v else own k' o.
Proof.
  unfold assign. destruct (own k o) as [x|] eqn:E.
  - rewrite own_replace, E. by destruct (decide (k = k')).
  - destruct (array_index k) as [n|].
    + by apply own_insert_index.
    + rewrite own_app. simpl.
      destruct (decide (k = k')) as [->|Hne].
      * by rewrite E.
      * by destruct (own k' o).
Qed.

Lemma own_assign_eq k v o : own k (assign k v o) = Some v.
Proof. by rewrite own_assign, decide_True. Qed.

Lemma own_assign_ne k k' v o : k ≠ k' → own k' (assign k v o) = own k' o.
Proof. intros. by rewrite own_assign, decide_False. Qed.

Lemma keys_assign k k' v o :
  k' ∈ keys (assign k v o) ↔ k' = k ∨ k' ∈ keys o.
Proof.
  destruct (decide (k' ∈ keys (assign k v o))) as [Hin|Hn].
  - split; [|done]. intros _.
    destruct (decide (k' = k)) as [|Hne]; [by left|]. right.
    destruct (decide (k' ∈ keys o)) as [|Hn]; [done|].
    apply own_None_keys in Hn.
    rewrite <- (own_assign_ne k k' v) in Hn by done.
    by apply own_None_keys in Hn.
  - split; [done|]. intros [->|Hin]; exfalso; apply Hn.
    + eapply own_Some_keys, own_assign_eq.
    + destruct (decide (k = k')) as [->|Hne].
      * eapply own_Some_keys, own_assign_eq.
      * destruct (own k' o) as [x|] eqn:E;
          [|by apply own_None_keys in E].
        eapply own_Some_keys. by rewrite own_assign_ne.
Qed.

(** A sum over the properties, when one is assigned. *)
Lemma sum_replace (f : string * A → nat) k v o x :
  (∀ k1 k2 y, f (k1, y) = f (k2, y)) →
  own k o = Some x →
  sum_list_with f (replace k v o) + f (k, x) = sum_list_with f o + f (k, v).
Proof.
  intros Hf. induction o as [|[k0 v0] o IH]; simpl; [done|].
  destruct (decide (k0 = k)) as [->|Hne]; simpl.
  - intros [= ->]. lia.
  - intros H. specialize (IH H). lia.
Qed.

Lemma sum_insert_index (f : string * A → nat) n k v o :
  sum_list_with f (insert_index n k v o) = f (k, v) + sum_list_with f o.
Proof.
  induction o as [|[k0 v0] o IH]; simpl; [done|].
  destruct (array_index k0) as [n0|]; [destruct (n <? n0)%N|]; simpl;
    [done | rewrite IH; lia | done].
Qed.

Lemma sum_assign (f : string * A → nat) k v o :
  (∀ k1 k2 y, f (k1, y) = f (k2, y)) →
  sum_list_with f (assign k v o) + from_option (λ x, f (k, x)) 0 (own k o)
  = sum_list_with f o + f (k, v).
Proof.
  intros Hf. unfold assign. destruct (own k o) as [x|] eqn:E; simpl.
  - by apply sum_replace.
  - destruct (array_index k) as [n|].
    + rewrite sum_insert_index. lia.
    + rewrite sum_list_with_app. simpl. lia.
Qed.

Lemma Forall_replace (Q : string * A → Prop) k v o :
  Q (k, v) → Forall Q o → Forall Q (replace k v o).
Proof.
  intros Hv. induction 1 as [|[k0 v0] o Hx Ho IH]; simpl; [done|].
  destruct (decide (k0 = k)); by constructor.
Qed.

Lemma Forall_insert_index (Q : string * A → Prop) n k v o :
  Q (k, v) → Forall Q o → Forall Q (insert_index n k v o).
Proof.
  intros Hv. induction 1 as [|[k0 v0] o Hx Ho IH]; simpl; [by constructor|].
  destruct (array_index k0) as [n0|]; [destruct (n <? n0)%N|];
    repeat constructor; done.
Qed.

Lemma Forall_assign (Q : string * A → Prop) k v o :
  Q (k, v) → Forall Q o → Forall Q (assign k v o).
Proof.
  intros Hv Ho. unfold assign. destruct (own k o).
  - by apply Forall_replace.
  - destruct (array_index k).
    + by apply Forall_insert_index.
    + apply Forall_app. by repeat constructor.
Qed.

Lemma keys_replace k v o : keys (replace k v o) = keys o.
Proof.
  unfold keys. induction o as [|[k0 v0] o IH]; simpl; [done|].
  destruct (decide (k0 = k)) as [->|]; simpl; [done|]. f_equal. apply IH.
Qed.

Lemma keys_insert_index n k v o :
  keys (insert_index n k v o) ≡ₚ k :: keys o.
Proof.
  unfold keys. induction o as [|[k0 v0] o IH]; simpl; [done|].
  destruct (array_index k0) as [n0|]; [destruct (n <? n0)%N|]; simpl;
    [done | | done].
  rewrite IH. apply Permutation_swap.
Qed.

(** Assignment keeps every key listed once. *)
Lemma NoDup_keys_assign k v o : NoDup (keys o) → NoDup (keys (assign k v o)).
Proof.
  intros Hnd. unfold assign. destruct (own k o) as [x|] eqn:E.
  - by rewrite keys_replace.
  - apply own_None_keys in E. destruct (array_index k) as [n|].
    + rewrite keys_insert_index. by apply NoDup_cons.
    + unfold keys in *. rewrite fmap_app. simpl.
      apply NoDup_app. split; [done|]. split; [|apply NoDup_singleton].
      intros y Hy ->%list_elem_of_singleton. done.
Qed.

End PropsFacts.

Lemma own_fmap {A B} (f : A → B) k (o : Props A) :
  own k (prod_map id f <$> o) = f <$> own k o.
Proof.
  induction o as [|[k' v'] o IH]; simpl; [done|].
  by destruct (decide (k' = k)).
Qed.

Lemma keys_fmap {A B} (f : A → B) (o : Props A) :
  keys (prod_map id f <$> o) = keys o.
Proof.
  unfold keys. rewrite <- list_fmap_compose. apply list_fmap_ext.
  by intros i [k v] _.
Qed.

(** The element of an array under the key of its index. *)
Lemma own_imap_pretty {A} (l : list A) : ∀ j i,
  own (pretty (j + i)%nat) (imap (λ n e, (pretty (j + n)%nat, e)) l) = l !! i.
Proof.
  induction l as [|x l IH]; intros j i; simpl; [done|].
  destruct i as [|i]; simpl.
  - by rewrite Nat.add_0_r, decide_True.
  - rewrite decide_False.
    2:{ intros H. apply (inj pretty) in H. lia. }
    rewrite <- (IH (S j) i).
    replace (j + S i)%nat with (S j + i)%nat by lia.
    f_equal. apply imap_ext. intros n y _. simpl. f_equal. f_equal. lia.
Qed.

Lemma member_element (l : list Value) i :
  member (VArr l) (pretty i) = default VUndefined (l !! i).
Proof.
  unfold member, entries. by rewrite <- (own_imap_pretty l 0 i).
Qed.

(** * Properties of the aggregator *)

Module AggregatorProofs.
Import Runtime Aggregator.

(** ** [Math.min] and [Math.max] on NaN-free arguments *)

Lemma min_step_sound lowest number :
  not_nan lowest → not_nan number →
  (min_step lowest number = lowest ∨ min_step lowest number = number)
  ∧ fle (min_step lowest number) lowest
  ∧ fle (min_step lowest number) number.
Proof.
  intros Hl Hn. unfold min_step. rewrite Hl, Hn.
  destruct (is_neg_zero number && is_pos_zero lowest) eqn:Ez.
  - apply andb_prop in Ez as [[E1 _]%andb_prop [E2 _]%andb_prop].
    split; [by right|]. split; [by apply zeros_fle | by apply fle_refl].
  - destruct (PrimFloat.ltb number lowest) eqn:El.
    + split; [by right|]. split; [by apply ltb_fle | by apply fle_refl].
    + split; [by left|]. split; [by apply fle_refl | by apply not_ltb_fle].
Qed.

Lemma max_step_sound highest number :
  not_nan highest → not_nan number →
  (max_step highest number = highest ∨ max_step highest number = number)
  ∧ fle highest (max_step highest number)
  ∧ fle number (max_step highest number).
Proof.
  intros Hl Hn. unfold max_step. rewrite Hl, Hn.
  destruct (is_pos_zero number && is_neg_zero highest) eqn:Ez.
  - apply andb_prop in Ez as [[E1 _]%andb_prop [E2 _]%andb_prop].
    split; [by right|]. split; [by apply zeros_fle | by apply fle_refl].
  - destruct (PrimFloat.ltb highest number) eqn:El.
    + split; [by right|]. split; [by apply ltb_fle | by apply fle_refl].
    + split; [by left|]. split; [by apply fle_refl | by apply not_ltb_fle].
Qed.

Lemma foldl_min_step values : ∀ lowest,
  not_nan lowest → Forall not_nan values →
  not_nan (foldl min_step lowest values)
  ∧ fle (foldl min_step lowest values) lowest
  ∧ (∀ y, y ∈ values → fle (foldl min_step lowest values) y)
  ∧ (foldl min_step lowest values = lowest
     ∨ foldl min_step lowest values ∈ values).
Proof.
  induction values as [|x l IH]; intros acc Ha Hl; simpl.
  - split; [done|]. split; [by apply fle_refl|]. split; [|by left].
    intros y Hy. by apply elem_of_nil in Hy.
  - apply Forall_cons in Hl as [Hx Hl].
    destruct (min_step_sound acc x Ha Hx) as (Hsel & Hle1 & Hle2).
    assert (Hn : not_nan (min_step acc x)) by (destruct Hsel as [-> | ->]; done).
    destruct (IH _ Hn Hl) as (Hr & Hra & Hall & Hin).
    split; [done|]. split; [by eapply fle_trans|]. split.
    + intros y [-> | Hy]%elem_of_cons; [by eapply fle_trans | by apply Hall].
    + destruct Hin as [-> | Hin]; [|right; by apply elem_of_cons; right].
      destruct Hsel as [-> | ->]; [by left | right; apply elem_of_cons; by left].
Qed.

Lemma foldl_max_step values : ∀ highest,
  not_nan highest → Forall not_nan values →
  not_nan (foldl max_step highest values)
  ∧ fle highest (foldl max_step highest values)
  ∧ (∀ y, y ∈ values → fle y (foldl max_step highest values))
  ∧ (foldl max_step highest values = highest
     ∨ foldl max_step highest values ∈ values).
Proof.
  induction values as [|x l IH]; intros acc Ha Hl; simpl.
  - split; [done|]. split; [by apply fle_refl|]. split; [|by left].
    intros y Hy. by apply elem_of_nil in Hy.
  - apply Forall_cons in Hl as [Hx Hl].
    destruct (max_step_sound acc x Ha Hx) as (Hsel & Hle1 & Hle2).
    assert (Hn : not_nan (max_step acc x)) by (destruct Hsel as [-> | ->]; done).
    destruct (IH _ Hn Hl) as (Hr & Hra & Hall & Hin).
    split; [done|]. split; [by eapply fle_trans|]. split.
    + intros y [-> | Hy]%elem_of_cons; [by eapply fle_trans | by apply Hall].
    + destruct Hin as [-> | Hin]; [|right; by apply elem_of_cons; right].
      destruct Hsel as [-> | ->]; [by left | right; apply elem_of_cons; by left].
Qed.

Lemma min_is_minimum values :
  values ≠ [] → Forall not_nan values →
  is_minimum (foldl min_step infinity values) values.
Proof.
  intros Hne Hl.
  destruct (foldl_min_step values infinity eq_refl Hl) as (_ & _ & Hall & Hin).
  split; [|done]. destruct Hin as [E | Hin]; [|done].
  destruct values as [|x l]; [done|].
  rewrite E in Hall |- *.
  assert (Hx : x ∈ x :: l) by (apply elem_of_cons; by left).
  by rewrite <- (fle_infinity_l x (Hall x Hx)).
Qed.

Lemma max_is_maximum values :
  values ≠ [] → Forall not_nan values →
  is_maximum (foldl max_step neg_infinity values) values.
Proof.
  intros Hne Hl.
  destruct (foldl_max_step values neg_infinity eq_refl Hl)
    as (_ & _ & Hall & Hin).
  split; [|done]. destruct Hin as [E | Hin]; [|done].
  destruct values as [|x l]; [done|].
  rewrite E in Hall |- *.
  assert (Hx : x ∈ x :: l) by (apply elem_of_cons; by left).
  by rewrite <- (fle_neg_infinity_r x (Hall x Hx)).
Qed.

(** ** Evaluations that return *)

Lemma map_each_ok {A B} (f : A → Result B) (g : A → B) xs :
  Forall (λ x, f x = Return (g x)) xs → map_each f xs = Return (g <$> xs).
Proof.
  induction 1 as [|x xs Hx _ IH]; simpl; [done|]. by rewrite Hx, IH.
Qed.

Lemma forEach_app {A S} (xs ys : list A) (body : S → A → Result S) s :
  forEach (xs ++ ys) body s = forEach xs body s ≫= forEach ys body.
Proof.
  revert s. induction xs as [|x xs IH]; intros s; simpl; [done|].
  destruct (body s x) as [s'|e]; simpl; [apply IH | done].
Qed.

(** ** The stats of a bucket of numbers *)

Section Numbers.
Context (P : Platform).

(** The stats literal, for prices that are numbers. *)
Definition stats_of (prices : list float) : Stats :=
  {| count := length prices;
     current := from_option VNum VNull (last prices);
     min := Some (foldl min_step infinity prices);
     max := Some (foldl max_step neg_infinity prices);
     avg := Some (foldl PrimFloat.add 0 prices
                  / number_of_nat (length prices))%float |}.

Lemma ToNumber_numbers prices :
  map_each (ToNumber P) (VNum <$> prices) = Return prices.
Proof.
  induction prices as [|x l IH]; [done|].
  rewrite fmap_cons. cbn [map_each ToNumber mbind Result_bind].
  by rewrite IH.
Qed.

Lemma add_numbers x y : add P (VNum x) (VNum y) = Return (VNum (x + y)%float).
Proof. reflexivity. Qed.

Lemma sum_numbers prices : ∀ x,
  forEach (VNum <$> prices) (add P) (VNum x)
  = Return (VNum (foldl PrimFloat.add x prices)).
Proof.
  induction prices as [|y l IH]; intros x; [done|].
  rewrite fmap_cons. cbn [forEach]. rewrite add_numbers.
  cbn [mbind Result_bind foldl]. apply IH.
Qed.

Lemma calcStats_numbers prices :
  prices ≠ [] → calcStats P (VNum <$> prices) = Return (stats_of prices).
Proof.
  intros Hne. unfold calcStats, Math_min, Math_max, sum, stats_of.
  rewrite length_fmap, ToNumber_numbers, sum_numbers, list_lookup_fmap.
  destruct prices as [|p prices]; [done|].
  rewrite last_lookup.
  cbn [length Nat.ltb Nat.leb Nat.pred Nat.sub mbind Result_bind fmap
       Result_fmap ToNumber].
  rewrite Nat.sub_0_r.
  destruct (lookup_lt_is_Some_2 (p :: prices) (length prices)) as [c Hc];
    [simpl; lia|].
  by rewrite Hc.
Qed.

Lemma calcStats_empty :
  calcStats P []
  = Return {| count := 0; current := VNull; min := None; max := None;
              avg := None |}.
Proof. reflexivity. Qed.

End Numbers.

(** ** A Run Record as the aggregator reads it *)

Lemma record_regions entry :
  member (record_value entry) "regions"
  = VObj (prod_map id sample_value <$> rr_regions entry).
Proof. reflexivity. Qed.

Lemma record_timestamp entry :
  member (record_value entry) "timestamp" = VStr (rr_timestamp entry).
Proof. reflexivity. Qed.

Lemma record_sample entry k s :
  own k (rr_regions entry) = Some s →
  member (member (record_value entry) "regions") k = sample_value s.
Proof.
  intros H. rewrite record_regions. unfold member, entries.
  by rewrite own_fmap, H.
Qed.

Lemma sample_fields s :
  read (sample_value s) "location" = Return (VStr (location s))
  ∧ read (sample_value s) "retailPrice" = Return (VNum (retailPrice s))
  ∧ member (sample_value s) "unitPrice" = VNum (unitPrice s)
  ∧ member (sample_value s) "currencyCode" = VStr (currencyCode s).
Proof. done. Qed.

(** ** Grouping *)

Lemma extend_nil k o : extend k o [] = o.
Proof.
  destruct o as [[]|]; simpl; [|done]. by rewrite app_nil_r.
Qed.

Lemma extend_app k o hits1 hits2 :
  extend k (extend k o hits1) hits2 = extend k o (hits1 ++ hits2).
Proof.
  destruct o as [r|]; simpl.
  - by rewrite fmap_app, app_assoc.
  - destruct hits1 as [|es hits1]; simpl; [done|].
    by rewrite fmap_app.
Qed.

Lemma placed_assign k r (acc : Props RegionData) :
  placed (assign k r acc) + from_option (λ x, length (data x)) 0 (own k acc)
  = placed acc + length (data r).
Proof.
  unfold placed.
  by apply (sum_assign (λ kr : string * RegionData, length (data kr.2))).
Qed.

(** One key of a Run Record: the bucket of that key is created if need
    be and receives the point of the Sample. *)
Lemma push_point_record entry acc k0 s0 :
  k0 ∉ Object_prototype →
  own k0 (rr_regions entry) = Some s0 →
  ∃ acc',
    push_point (record_value entry) acc k0 = Return acc'
    ∧ (NoDup (keys acc) → NoDup (keys acc'))
    ∧ (∀ k, own k acc'
            = if decide (k = k0) then extend k0 (own k0 acc) [(entry, s0)]
              else own k acc)
    ∧ placed acc' = S (placed acc).
Proof.
  intros Hproto Hs. unfold push_point.
  rewrite (record_sample _ _ _ Hs), record_timestamp.
  rewrite bool_decide_eq_false_2 by done.
  destruct (sample_fields s0) as (-> & -> & -> & ->).
  destruct (own k0 acc) as [r|] eqn:E;
    cbn [mbind Result_bind].
  - rewrite E. eexists. split; [reflexivity|].
    split; [apply NoDup_keys_assign|]. split.
    + intros k. rewrite own_assign.
      destruct (decide (k0 = k)) as [->|Hne].
      * by rewrite decide_True.
      * by rewrite decide_False.
    + pose proof (placed_assign k0
        (push_data {| pt_timestamp := VStr (rr_timestamp entry);
                      pt_retailPrice := VNum (retailPrice s0);
                      pt_unitPrice := VNum (unitPrice s0);
                      pt_currencyCode := VStr (currencyCode s0) |} r) acc) as H.
      rewrite E in H. simpl in H. rewrite length_app in H. simpl in H. lia.
  - rewrite own_assign_eq. eexists. split; [reflexivity|].
    split; [intros; by do 2 apply NoDup_keys_assign|]. split.
    + intros k. rewrite !own_assign.
      destruct (decide (k0 = k)) as [->|Hne].
      * by rewrite decide_True.
      * by rewrite decide_False.
    + match goal with
      | |- placed (assign k0 ?r2 (assign k0 ?r1 acc)) = _ =>
          pose proof (placed_assign k0 r2 (assign k0 r1 acc)) as H2;
          pose proof (placed_assign k0 r1 acc) as H1
      end.
      rewrite own_assign_eq in H2. rewrite E in H1. simpl in H1, H2. lia.
Qed.

Lemma forEach_push_point entry (l : Props Sample) : ∀ acc,
  NoDup (keys l) →
  Forall (λ k, k ∉ Object_prototype) (keys l) →
  (∀ k s, own k l = Some s → own k (rr_regions entry) = Some s) →
  ∃ acc',
    forEach (keys l) (push_point (record_value entry)) acc = Return acc'
    ∧ (NoDup (keys acc) → NoDup (keys acc'))
    ∧ (∀ k, own k acc'
            = match own k l with
              | Some s => extend k (own k acc) [(entry, s)]
              | None => own k acc
              end)
    ∧ placed acc' = length l + placed acc.
Proof.
  induction l as [|[k0 s0] l IH]; intros acc Hnd Hproto Hsub.
  - exists acc. by repeat split.
  - cbn [keys fmap list_fmap fst] in Hnd, Hproto |- *.
    apply NoDup_cons in Hnd as [Hk0 Hnd].
    apply Forall_cons in Hproto as [Hproto0 Hproto].
    destruct (push_point_record entry acc k0 s0) as (acc1 & Hp & Hnd1 & Hown1 & Hpl1).
    { done. }
    { apply Hsub. simpl. by rewrite decide_True. }
    destruct (IH acc1 Hnd) as (acc' & Hf & Hnd' & Hown' & Hpl').
    { done. }
    { intros k s Hks. apply Hsub. simpl. rewrite decide_False; [done|].
      intros ->. apply Hk0. by eapply own_Some_keys. }
    exists acc'. cbn [forEach]. rewrite Hp. cbn [mbind Result_bind].
    split; [exact Hf|]. split; [by auto|]. split.
    + intros k. rewrite Hown', !Hown1. simpl.
      destruct (decide (k0 = k)) as [->|Hne].
      * rewrite decide_True by done.
        assert (Hnone : own k l = None) by (by apply own_None_keys).
        by rewrite Hnone.
      * rewrite decide_False by done. done.
    + rewrite Hpl', Hpl1. simpl. lia.
Qed.

Lemma samples_of_cons k entry D :
  samples_of k (entry :: D) = samples_of k [entry] ++ samples_of k D.
Proof.
  unfold samples_of; simpl. by destruct (own k (rr_regions entry)).
Qed.

Lemma group_entry_record entry acc :
  plain_keys entry →
  ∃ acc',
    group_entry acc (record_value entry) = Return acc'
    ∧ (NoDup (keys acc) → NoDup (keys acc'))
    ∧ (∀ k, own k acc' = extend k (own k acc) (samples_of k [entry]))
    ∧ placed acc' = length (rr_regions entry) + placed acc.
Proof.
  intros [Hnd Hproto].
  destruct (forEach_push_point entry (rr_regions entry) acc Hnd Hproto)
    as (acc' & Hf & Hnd' & Hown & Hpl); [done|].
  exists acc'. split.
  { unfold group_entry, read. cbn [nullish record_value mbind Result_bind].
    rewrite record_regions. cbn [truthy_value]. unfold Object_keys, entries.
    by rewrite keys_fmap. }
  split; [done|]. split; [|done].
  intros k. rewrite Hown. unfold samples_of. simpl.
  destruct (own k (rr_regions entry)); simpl; [done|].
  by rewrite extend_nil.
Qed.

Lemma forEach_group_entry D : ∀ acc,
  Forall plain_keys D →
  ∃ acc',
    forEach (record_value <$> D) group_entry acc = Return acc'
    ∧ (NoDup (keys acc) → NoDup (keys acc'))
    ∧ (∀ k, own k acc' = extend k (own k acc) (samples_of k D))
    ∧ placed acc' = sample_count D + placed acc.
Proof.
  induction D as [|entry D IH]; intros acc HD.
  - exists acc. split; [done|]. split; [done|]. split; [|done].
    intros k. by rewrite extend_nil.
  - apply Forall_cons in HD as [He HD].
    destruct (group_entry_record entry acc He) as (acc1 & Hg & Hnd1 & Hown1 & Hpl1).
    destruct (IH acc1 HD) as (acc' & Hf & Hnd' & Hown' & Hpl').
    exists acc'. rewrite fmap_cons. cbn [forEach]. rewrite Hg.
    cbn [mbind Result_bind]. split; [exact Hf|]. split; [by auto|]. split.
    + intros k. by rewrite Hown', Hown1, extend_app, <- samples_of_cons.
    + rewrite Hpl', Hpl1. simpl. lia.
Qed.

(** ** The second pass and the whole summary *)

Definition number_of (p : Point) : option float :=
  match pt_retailPrice p with
  | VNum x => Some x
  | _ => None
  end.

(** A bucket of numbers after the second pass. *)
Definition finish (r : RegionData) : RegionData :=
  {| name := name r; displayName := displayName r; data := data r;
     stats := Some (stats_of (omap number_of (data r))) |}.

Lemma bucket_prices (hits : list (RunRecord * Sample)) :
  pt_retailPrice <$> (uncurry point_of <$> hits)
  = VNum <$> ((λ es : RunRecord * Sample, retailPrice es.2) <$> hits)
  ∧ omap number_of (uncurry point_of <$> hits)
    = (λ es : RunRecord * Sample, retailPrice es.2) <$> hits.
Proof.
  split.
  - rewrite <- !list_fmap_compose. apply list_fmap_ext. by intros _ [e s] _.
  - induction hits as [|[e s] hits IH]; [done|].
    simpl. f_equal. exact IH.
Qed.

Lemma set_stats_points P r (hits : list (RunRecord * Sample)) :
  hits ≠ [] → data r = uncurry point_of <$> hits →
  set_stats P r = Return (finish r).
Proof.
  intros Hne Hdata. unfold set_stats, finish. rewrite Hdata.
  destruct (bucket_prices hits) as [-> ->].
  rewrite calcStats_numbers; [done|]. by destruct hits.
Qed.

Lemma finish_extend k (hits : list (RunRecord * Sample)) es hits' :
  hits = es :: hits' →
  finish <$> extend k None hits
  = Some {| name := k; displayName := VStr (location es.2);
            data := uncurry point_of <$> hits;
            stats := Some (stats_of
                       ((λ es0 : RunRecord * Sample, retailPrice es0.2)
                          <$> hits)) |}.
Proof.
  intros ->. unfold extend. apply (f_equal Some).
  unfold finish. cbn [name displayName data].
  by destruct (bucket_prices (es :: hits')) as [_ ->].
Qed.

Lemma zero_key : "0" = pretty 0%nat.
Proof. reflexivity. Qed.

(** The date range of an array of Run Records. *)
Definition range_of (D : list RunRecord) : Summary :=
  {| totalEntries := Count (length D);
     dateRange :=
       {| start := from_option (λ e, VStr (rr_timestamp e)) VNull (head D);
          end_ := from_option (λ e, VStr (rr_timestamp e)) VNull (last D) |} |}.

(** On a sequence of Run Records the summary literal is evaluated without
    an error: what remains is the two passes. *)
Lemma aggregate_passes P now D :
  aggregate P now (dataset_value D)
  = buckets ← forEach (record_value <$> D) group_entry [];
    regions ← map_each (λ kr : string * RegionData,
                          r ← set_stats P kr.2; Return (kr.1, r)) buckets;
    Return {| lastUpdated := now; regions := regions; summary := range_of D |}.
Proof.
  unfold aggregate, summarize, group, dataset_value, range_of.
  cbn [get_length positive array_method mbind Result_bind].
  rewrite length_fmap.
  destruct D as [|entry D]; [done|].
  cbn [length Nat.ltb Nat.leb head from_option last_key mbind Result_bind].
  rewrite zero_key, !member_element, !list_lookup_fmap.
  rewrite last_lookup. cbn [length Nat.pred].
  destruct (lookup_lt_is_Some_2 (entry :: D) (length D)) as [e He];
    [simpl; lia|].
  rewrite He. reflexivity.
Qed.

Lemma placed_finish buckets :
  placed (prod_map id finish <$> buckets) = placed buckets.
Proof.
  unfold placed. induction buckets as [|[k r] l IH]; [done|].
  rewrite fmap_cons. simpl. f_equal. exact IH.
Qed.

(** The summary of a sequence of Run Records with plain keys. *)
Lemma aggregate_dataset P now D :
  Forall plain_keys D →
  ∃ buckets,
    NoDup (keys buckets)
    ∧ (∀ k, own k buckets = extend k None (samples_of k D))
    ∧ placed buckets = sample_count D
    ∧ aggregate P now (dataset_value D)
      = Return {| lastUpdated := now;
                  regions := prod_map id finish <$> buckets;
                  summary := range_of D |}.
Proof.
  intros HD.
  destruct (forEach_group_entry D [] HD) as (buckets & Hf & Hnd & Hown & Hpl).
  specialize (Hnd (NoDup_nil_2)).
  exists buckets. split; [done|]. split; [done|].
  split; [rewrite Hpl; unfold placed; simpl; lia|].
  rewrite aggregate_passes, Hf. cbn [mbind Result_bind].
  rewrite (map_each_ok _ (prod_map id finish)); [done|].
  apply Forall_forall. intros [k r] Hin. cbn [fst snd prod_map id].
  apply (elem_of_own _ _ _ Hnd) in Hin. rewrite Hown in Hin.
  destruct (samples_of k D) as [|es hits] eqn:E; [done|].
  simpl in Hin. injection Hin as <-.
  by rewrite (set_stats_points P _ (es :: hits)).
Qed.

Lemma aggregate_dataset_lookup P now D d k :
  Forall plain_keys D →
  aggregate P now (dataset_value D) = Return d →
  own k (regions d) = finish <$> extend k None (samples_of k D).
Proof.
  intros HD Hd.
  destruct (aggregate_dataset P now D HD) as (buckets & _ & Hown & _ & Ha).
  rewrite Ha in Hd. injection Hd as <-. cbn [regions].
  by rewrite own_fmap, Hown.
Qed.

(** ** A key that names an inherited property *)

(** No bucket is named after a property of [Object.prototype]. *)
Definition clean (acc : Props RegionData) : Prop :=
  ∀ k, k ∈ Object_prototype → own k acc = None.

Lemma push_point_inherited entry acc k0 :
  k0 ∈ Object_prototype → clean acc →
  push_point entry acc k0
  = Throw (TypeError "Cannot read properties of undefined (reading 'push')").
Proof.
  intros Hk Hclean. unfold push_point.
  rewrite bool_decide_eq_true_2 by done. cbn [mbind Result_bind].
  by rewrite (Hclean k0 Hk).
Qed.

Lemma forEach_push_point_inherited entry (l : Props Sample) : ∀ acc,
  NoDup (keys l) →
  (∀ k s, own k l = Some s → own k (rr_regions entry) = Some s) →
  clean acc →
  (Forall (λ k, k ∉ Object_prototype) (keys l)
   ∧ ∃ acc', forEach (keys l) (push_point (record_value entry)) acc
             = Return acc' ∧ clean acc')
  ∨ (¬ Forall (λ k, k ∉ Object_prototype) (keys l)
     ∧ ∃ e, forEach (keys l) (push_point (record_value entry)) acc = Throw e).
Proof.
  induction l as [|[k0 s0] l IH]; intros acc Hnd Hsub Hclean.
  - left. split; [constructor|]. by exists acc.
  - cbn [keys fmap list_fmap fst] in Hnd |- *.
    apply NoDup_cons in Hnd as [Hk0 Hnd]. cbn [forEach].
    destruct (decide (k0 ∈ Object_prototype)) as [Hin|Hout].
    { right. split; [by intros [Hn _]%Forall_cons|].
      rewrite push_point_inherited by done. by eexists. }
    destruct (push_point_record entry acc k0 s0 Hout)
      as (acc1 & -> & _ & Hown1 & _).
    { apply Hsub. simpl. by rewrite decide_True. }
    cbn [mbind Result_bind].
    destruct (IH acc1 Hnd) as [[Hall Hret] | [Hnot Hthrow]].
    { intros k s Hks. apply Hsub. simpl. rewrite decide_False; [done|].
      intros ->. apply Hk0. by eapply own_Some_keys. }
    { intros k Hk. rewrite Hown1. rewrite decide_False; [by apply Hclean|].
      by intros ->. }
    + left. split; [by constructor | done].
    + right. split; [|done]. by intros [_ Hn]%Forall_cons.
Qed.

Lemma group_entry_inherited entry acc :
  NoDup (keys (rr_regions entry)) → clean acc →
  (plain_keys entry
   ∧ ∃ acc', group_entry acc (record_value entry) = Return acc' ∧ clean acc')
  ∨ (¬ plain_keys entry
     ∧ ∃ e, group_entry acc (record_value entry) = Throw e).
Proof.
  intros Hnd Hclean.
  assert (Hg : group_entry acc (record_value entry)
               = forEach (keys (rr_regions entry))
                   (push_point (record_value entry)) acc).
  { unfold group_entry, read. cbn [nullish record_value mbind Result_bind].
    rewrite record_regions. cbn [truthy_value]. unfold Object_keys, entries.
    by rewrite keys_fmap. }
  rewrite Hg.
  destruct (forEach_push_point_inherited entry (rr_regions entry) acc Hnd)
    as [[Hall Hret] | [Hnot Hthrow]]; [done | done | |].
  - left. by split.
  - right. split; [|done]. by intros [_ H].
Qed.

Lemma forEach_group_entry_inherited D : ∀ acc,
  Forall (λ entry, NoDup (keys (rr_regions entry))) D →
  ¬ Forall plain_keys D → clean acc →
  ∃ e, forEach (record_value <$> D) group_entry acc = Throw e.
Proof.
  induction D as [|entry D IH]; intros acc Hnd Hnot Hclean.
  - exfalso. apply Hnot. constructor.
  - apply Forall_cons in Hnd as [Hnd0 Hnd]. rewrite fmap_cons. cbn [forEach].
    destruct (group_entry_inherited entry acc Hnd0 Hclean)
      as [[Hplain (acc1 & -> & Hclean1)] | [_ [e ->]]].
    + cbn [mbind Result_bind]. apply IH; [done | | done].
      intros HD. apply Hnot. by constructor.
    + by exists e.
Qed.

(** A region key that names a property of [Object.prototype] gets no
    bucket, and the push on its [data] throws. *)
Lemma aggregate_inherited_key P now D :
  Forall (λ entry, NoDup (keys (rr_regions entry))) D →
  ¬ Forall plain_keys D →
  ∃ e, aggregate P now (dataset_value D) = Throw e.
Proof.
  intros Hnd Hnot. rewrite aggregate_passes.
  destruct (forEach_group_entry_inherited D [] Hnd Hnot) as [e ->]; [done|].
  by exists e.
Qed.

(** ** The claims on the aggregator *)

(** C7, as the code has it.  For every sequence [D] of Run Records whose
    region keys are listed once and name no property of
    [Object.prototype], [aggregate] returns a summary; its buckets hold
    together as many points as [D] has Samples, and for every region key
    [k] the bucket of [k] holds exactly the Samples stored under [k] in
    [D], in the order of the dataset (no bucket exists when there is
    none): every Sample is placed once, under its own key.  The stats of a
    bucket have [count] the number of its Samples, [current] the last
    retail price, [avg] the binary64 quotient, by the count, of the
    binary64 sum of the retail prices taken from the left starting at 0
    and, the prices being numbers (no NaN), [min] and [max] their least and
    greatest element. *)
Theorem aggregate_buckets_and_stats (P : Platform) (now : string)
    (D : list RunRecord) :
  Forall plain_keys D →
  ∃ d,
    aggregate P now (dataset_value D) = Return d
    ∧ placed (regions d) = sample_count D
    ∧ ∀ k : string,
      match own k (regions d) with
      | None => samples_of k D = []
      | Some bucket =>
          samples_of k D ≠ []
          ∧ name bucket = k
          ∧ data bucket = uncurry point_of <$> samples_of k D
          ∧ ∃ st latest,
              stats bucket = Some st
              ∧ count st = length (samples_of k D)
              ∧ last (prices_of k D) = Some latest
              ∧ current st = VNum latest
              ∧ avg st
                = Some (foldl PrimFloat.add 0 (prices_of k D)
                        / PrimFloat.of_uint63
                            (Uint63.of_Z
                               (Z.of_nat (length (prices_of k D)))))%float
              ∧ (Forall not_nan (prices_of k D) →
                 ∃ lo hi, min st = Some lo ∧ max st = Some hi
                   ∧ is_minimum lo (prices_of k D)
                   ∧ is_maximum hi (prices_of k D))
      end.
Proof.
  intros HD.
  destruct (aggregate_dataset P now D HD) as (buckets & _ & Hown & Hpl & Ha).
  eexists. split; [exact Ha|]. cbn [regions].
  split; [by rewrite placed_finish|]. intros k.
  rewrite own_fmap, Hown. unfold prices_of.
  destruct (samples_of k D) as [|es hits] eqn:E; [done|].
  rewrite (finish_extend k _ es hits eq_refl).
  split; [done|]. split; [done|]. split; [done|].
  set (prices := (λ es0 : RunRecord * Sample, retailPrice es0.2) <$> es :: hits).
  assert (Hne : prices ≠ []) by done.
  destruct (last prices) as [latest|] eqn:El; [|by apply last_None in El].
  exists (stats_of prices), latest. cbn [stats]. split; [done|].
  unfold stats_of. cbn [count current min max avg]. rewrite El.
  split; [by unfold prices; rewrite !length_fmap|].
  split; [done|]. split; [done|]. split; [done|].
  intros Hnan. eexists _, _. split; [done|]. split; [done|]. split.
  - by apply min_is_minimum.
  - by apply max_is_maximum.
Qed.

(** The clock is the only input of [aggregate] besides the document. *)
Lemma aggregate_clock P t1 t2 priceData :
  aggregate P t2 priceData
  = match aggregate P t1 priceData with
    | Return d =>
        Return {| lastUpdated := t2; regions := regions d;
                  summary := summary d |}
    | Throw e => Throw e
    end
  ∧ ∀ d, aggregate P t1 priceData = Return d → lastUpdated d = t1.
Proof.
  unfold aggregate.
  destruct (summarize P priceData) as [s|e]; [|done].
  cbn [mbind Result_bind].
  destruct (group priceData) as [buckets|e]; [|done].
  cbn [mbind Result_bind].
  destruct (map_each _ _) as [regions|e]; [|done].
  cbn [mbind Result_bind]. split; [done|]. by intros d [= <-].
Qed.

(** C8, as the code has it.  [processData] stamps its output with the
    current time: two evaluations over the same document fail alike, or
    return two summaries that agree on every bucket and on the summary,
    carry each its own clock reading in [lastUpdated], and are equal
    exactly when the two readings are. *)
Theorem aggregate_equal_up_to_clock (P : Platform) (t1 t2 : string)
    (priceData : Value) :
  match aggregate P t1 priceData, aggregate P t2 priceData with
  | Return d1, Return d2 =>
      regions d1 = regions d2
      ∧ summary d1 = summary d2
      ∧ lastUpdated d1 = t1
      ∧ lastUpdated d2 = t2
      ∧ (d1 = d2 ↔ t1 = t2)
  | Throw e1, Throw e2 => e1 = e2
  | _, _ => False
  end.
Proof.
  destruct (aggregate_clock P t1 t2 priceData) as [-> Ht].
  destruct (aggregate P t1 priceData) as [d1|e]; [|done].
  specialize (Ht d1 eq_refl). cbn [regions summary lastUpdated].
  split; [done|]. split; [done|]. split; [done|]. split; [done|]. split.
  - intros H. apply (f_equal lastUpdated) in H. by rewrite Ht in H.
  - intros <-. destruct d1. simpl in Ht. by subst.
Qed.

Global Instance plain_keys_dec entry : Decision (plain_keys entry).
Proof. unfold plain_keys. apply _. Defined.

(** Scenario E has plain keys. *)
Lemma scenarioE_plain : Forall plain_keys Scenario.scenarioE.
Proof. apply (bool_decide_unpack _). by vm_compute. Qed.

Lemma exact_mean (a : float) (l : list float) za zs :
  l ≠ [] → exact a = Some za → mapM exact l = Some zs →
  (za * Z.of_nat (length l) - foldr Z.add 0 zs = 0)%Z →
  is_arithmetic_mean a l.
Proof.
  intros Hne Ha Hl Hz. split; [done|]. exists za, zs.
  split; [done|]. split; [done|]. intros b zb _. rewrite Hz. simpl.
  apply Z.abs_nonneg.
Qed.

(** Scenario E: three Run Records with [eastus2] priced 1.0, 2.0, 3.0 give
    count 3, current 3, min 1, max 3 and avg 2, which is their mean. *)
Lemma aggregate_buckets_and_stats_witness :
  ∃ d bucket st,
    aggregate Scenario.platform "2025-01-01T00:03:00.000Z"
      (dataset_value Scenario.scenarioE) = Return d
    ∧ own "eastus2" (regions d) = Some bucket
    ∧ stats bucket = Some st
    ∧ count st = 3 ∧ current st = VNum 3 ∧ avg st = Some 2%float
    ∧ is_arithmetic_mean 2 [1; 2; 3]%float
    ∧ ∃ lo hi, min st = Some lo ∧ max st = Some hi
        ∧ is_minimum lo [1; 2; 3]%float ∧ is_maximum hi [1; 2; 3]%float.
Proof.
  destruct (aggregate_buckets_and_stats Scenario.platform
              "2025-01-01T00:03:00.000Z" Scenario.scenarioE scenarioE_plain)
    as (d & Hd & _ & H).
  specialize (H "eastus2").
  destruct (own "eastus2" (regions d)) as [bucket|] eqn:E.
  - destruct H as (_ & _ & _ & st & latest & Hst & Hcount & Hlast & Hcur
                   & Havg & Hmm).
    exists d, bucket, st. split; [exact Hd|]. split; [exact E|].
    split; [exact Hst|]. split; [exact Hcount|].
    vm_compute in Hlast. injection Hlast as <-.
    split; [exact Hcur|]. split; [exact Havg|].
    split.
    + eapply exact_mean; [done | reflexivity | reflexivity | reflexivity].
    + apply Hmm. repeat constructor.
  - discriminate H.
Defined.

(** C7 as stated fails.  With the prices 0.1, 0.2 and 0.3 the [avg]
    computed is 0.20000000000000004, while 0.2 is nearer to their mean;
    with two prices of 1.797e308 the sum overflows and [avg] is
    [Infinity], while their mean is 1.797e308; and a Run Record with a
    region key [constructor] is not aggregated at all: an error is
    thrown. *)
Lemma aggregate_not_the_mean :
  (∃ d bucket st a,
     aggregate Scenario.platform "2025-01-01T00:03:00.000Z"
       (dataset_value Scenario.tenths) = Return d
     ∧ own "eastus2" (regions d) = Some bucket
     ∧ stats bucket = Some st
     ∧ avg st = Some a
     ∧ ¬ is_arithmetic_mean a (prices_of "eastus2" Scenario.tenths))
  ∧ (∃ d bucket st a,
       aggregate Scenario.platform "2025-01-01T00:03:00.000Z"
         (dataset_value Scenario.huge) = Return d
       ∧ own "eastus2" (regions d) = Some bucket
       ∧ stats bucket = Some st
       ∧ avg st = Some a
       ∧ ¬ is_arithmetic_mean a (prices_of "eastus2" Scenario.huge)
       ∧ is_arithmetic_mean 0x1.ffcd7672f2096p+1023
           (prices_of "eastus2" Scenario.huge))
  ∧ (∃ e,
       aggregate Scenario.platform "2025-01-01T00:03:00.000Z"
         (dataset_value Scenario.inherited_key) = Throw e).
Proof.
  split; [|split].
  - eexists _, _, _, _. split; [vm_compute; reflexivity|].
    split; [reflexivity|]. split; [reflexivity|]. split; [reflexivity|].
    intros (_ & za & zs & Ha & Hzs & Hnear).
    vm_compute in Ha. vm_compute in Hzs.
    injection Ha as <-. injection Hzs as <-.
    specialize (Hnear 0x1.999999999999ap-3%float _ eq_refl).
    vm_compute in Hnear. by apply Hnear.
  - eexists _, _, _, _. split; [vm_compute; reflexivity|].
    split; [reflexivity|]. split; [reflexivity|]. split; [reflexivity|].
    split.
    + intros (_ & za & zs & Ha & _). vm_compute in Ha. discriminate Ha.
    + eapply exact_mean; [done | reflexivity | reflexivity | reflexivity].
  - eexists. vm_compute. reflexivity.
Qed.

(** C8 as stated fails: the same (empty) dataset aggregated at two
    different instants gives two different outputs. *)
Lemma aggregate_not_idempotent :
  aggregate Scenario.platform "2025-01-01T00:00:00.000Z" (VArr [])
  ≠ aggregate Scenario.platform "2025-01-01T00:01:00.000Z" (VArr []).
Proof. vm_compute. intros H. discriminate H. Qed.

End AggregatorProofs.

(** * Further properties of the aggregator *)

Module AggregatorExtras.
Import Runtime Aggregator AggregatorProofs.

Lemma samples_of_app k D1 D2 :
  samples_of k (D1 ++ D2) = samples_of k D1 ++ samples_of k D2.
Proof. unfold samples_of. apply omap_app. Qed.

Lemma samples_of_nonempty k D :
  samples_of k D ≠ [] ↔ ∃ entry, entry ∈ D ∧ k ∈ keys (rr_regions entry).
Proof.
  split.
  - destruct (samples_of k D) as [|es hits] eqn:E; [done|]. intros _.
    assert (Hin : es ∈ samples_of k D) by (rewrite E; apply elem_of_cons; by left).
    apply list_elem_of_omap in Hin as (entry & Hentry & Hes).
    exists entry. split; [done|].
    destruct (own k (rr_regions entry)) eqn:Ek; [|done].
    by eapply own_Some_keys.
  - intros (entry & Hentry & Hk) Hnil.
    destruct (own k (rr_regions entry)) as [s|] eqn:Ek;
      [|by apply own_None_keys in Ek].
    assert (Hin : (entry, s) ∈ samples_of k D).
    { apply list_elem_of_omap. exists entry. split; [done|]. by rewrite Ek. }
    rewrite Hnil in Hin. by apply elem_of_nil in Hin.
Qed.

(** A sequence of Run Records is aggregated exactly when none of its
    region keys names a property of [Object.prototype]; the buckets of the
    summary are then the region keys that occur in some Run Record, each
    listed once. *)
Theorem aggregate_keys (P : Platform) (now : string) (D : list RunRecord) :
  Forall (λ entry, NoDup (keys (rr_regions entry))) D →
  (Forall plain_keys D ↔ ∃ d, aggregate P now (dataset_value D) = Return d)
  ∧ ∀ d, aggregate P now (dataset_value D) = Return d →
      NoDup (keys (regions d))
      ∧ ∀ k, k ∈ keys (regions d)
             ↔ ∃ entry, entry ∈ D ∧ k ∈ keys (rr_regions entry).
Proof.
  intros Hnd.
  assert (Hiff : Forall plain_keys D
                 ↔ ∃ d, aggregate P now (dataset_value D) = Return d).
  { split.
    - intros HD. destruct (aggregate_dataset P now D HD) as (? & _ & _ & _ & Ha).
      by eexists.
    - intros [d Hd]. destruct (decide (Forall plain_keys D)) as [|Hnot]; [done|].
      destruct (aggregate_inherited_key P now D Hnd Hnot) as [e He].
      congruence. }
  split; [exact Hiff|]. intros d Hd.
  assert (HD : Forall plain_keys D) by (apply Hiff; by exists d).
  destruct (aggregate_dataset P now D HD) as (buckets & Hndb & Hown & _ & Ha).
  rewrite Ha in Hd. injection Hd as <-. cbn [regions].
  rewrite keys_fmap. split; [done|]. intros k.
  rewrite <- samples_of_nonempty. specialize (Hown k). split.
  - intros Hk Hnil. rewrite Hnil in Hown. by apply own_None_keys in Hown.
  - intros Hne. destruct (own k buckets) as [r|] eqn:E.
    + by eapply own_Some_keys.
    + by destruct (samples_of k D).
Qed.

Lemma aggregate_keys_witness :
  ∃ d,
    aggregate Scenario.platform "2025-01-01T00:03:00.000Z"
      (dataset_value Scenario.scenarioE) = Return d
    ∧ keys (regions d) = ["eastus2"]
    ∧ ¬ ∃ d', aggregate Scenario.platform "2025-01-01T00:03:00.000Z"
                (dataset_value Scenario.inherited_key) = Return d'.
Proof.
  destruct (aggregate_keys Scenario.platform "2025-01-01T00:03:00.000Z"
              Scenario.scenarioE) as [[Hret _] _].
  { apply (bool_decide_unpack _). by vm_compute. }
  destruct (Hret scenarioE_plain) as [d Hd].
  exists d. split; [exact Hd|]. split.
  { vm_compute in Hd. injection Hd as <-. reflexivity. }
  destruct (aggregate_keys Scenario.platform "2025-01-01T00:03:00.000Z"
              Scenario.inherited_key) as [[_ Hplain] _].
  { apply (bool_decide_unpack _). by vm_compute. }
  intros Hd'. apply Hplain in Hd'.
  by apply (bool_decide_pack _) in Hd'.
Defined.

(** A bucket is named after its key and takes its display name from the
    first Sample stored under that key: the [location] of later Samples
    never changes it. *)
Theorem bucket_name_from_first_sample (P : Platform) (now : string)
    (D : list RunRecord) (d : ProcessedData) (k : string) :
  Forall plain_keys D →
  aggregate P now (dataset_value D) = Return d →
  name <$> own k (regions d) = (λ _, k) <$> head (samples_of k D)
  ∧ displayName <$> own k (regions d)
    = (λ es : RunRecord * Sample, VStr (location es.2))
        <$> head (samples_of k D).
Proof.
  intros HD Hd. rewrite (aggregate_dataset_lookup P now D d k HD Hd).
  destruct (samples_of k D) as [|es hits] eqn:E; [done|].
  by rewrite (finish_extend k _ es hits eq_refl).
Qed.

Lemma bucket_name_from_first_sample_witness :
  ∃ d,
    aggregate Scenario.platform "2025-01-01T00:03:00.000Z"
      (dataset_value Scenario.relocated) = Return d
    ∧ displayName <$> own "eastus2" (regions d) = Some (VStr "US East 2").
Proof.
  assert (HD : Forall plain_keys Scenario.relocated).
  { apply (bool_decide_unpack _). by vm_compute. }
  destruct (aggregate_dataset Scenario.platform "2025-01-01T00:03:00.000Z"
              Scenario.relocated HD) as (buckets & _ & _ & _ & Ha).
  eexists. split; [exact Ha|].
  destruct (bucket_name_from_first_sample Scenario.platform
              "2025-01-01T00:03:00.000Z" Scenario.relocated _ "eastus2" HD Ha)
    as [_ Hname].
  exact Hname.
Defined.

(** The points of the bucket of [k], none when there is no bucket. *)
Definition points (d : ProcessedData) (k : string) : list Point :=
  from_option data [] (own k (regions d)).

Lemma points_samples P now D d k :
  Forall plain_keys D → aggregate P now (dataset_value D) = Return d →
  points d k = uncurry point_of <$> samples_of k D.
Proof.
  intros HD Hd. unfold points.
  rewrite (aggregate_dataset_lookup P now D d k HD Hd).
  destruct (samples_of k D) as [|es hits] eqn:E; [done|].
  by rewrite (finish_extend k _ es hits eq_refl).
Qed.

(** Aggregating a dataset extended by later Run Records keeps every point
    the shorter dataset gave, in front of the new ones, and keeps the
    display name of every bucket that already existed. *)
Theorem aggregate_append (P : Platform) (now1 now2 now3 : string)
    (D1 D2 : list RunRecord) (k : string) :
  Forall plain_keys D1 → Forall plain_keys D2 →
  ∃ d1 d2 d3,
    aggregate P now1 (dataset_value D1) = Return d1
    ∧ aggregate P now2 (dataset_value D2) = Return d2
    ∧ aggregate P now3 (dataset_value (D1 ++ D2)) = Return d3
    ∧ points d3 k = points d1 k ++ points d2 k
    ∧ (is_Some (own k (regions d1)) →
       displayName <$> own k (regions d3) = displayName <$> own k (regions d1)).
Proof.
  intros H1 H2.
  assert (H3 : Forall plain_keys (D1 ++ D2)) by (by apply Forall_app).
  destruct (aggregate_dataset P now1 D1 H1) as (? & _ & _ & _ & Ha1).
  destruct (aggregate_dataset P now2 D2 H2) as (? & _ & _ & _ & Ha2).
  destruct (aggregate_dataset P now3 (D1 ++ D2) H3) as (? & _ & _ & _ & Ha3).
  eexists _, _, _. split; [exact Ha1|]. split; [exact Ha2|].
  split; [exact Ha3|]. split.
  - rewrite (points_samples _ _ _ _ _ H1 Ha1), (points_samples _ _ _ _ _ H2 Ha2),
      (points_samples _ _ _ _ _ H3 Ha3).
    by rewrite samples_of_app, fmap_app.
  - rewrite (aggregate_dataset_lookup _ _ _ _ k H1 Ha1),
      (aggregate_dataset_lookup _ _ _ _ k H3 Ha3), samples_of_app.
    destruct (samples_of k D1) as [|es hits] eqn:E; [by intros [? [=]]|].
    intros _.
    rewrite (finish_extend k _ es hits eq_refl).
    by rewrite (finish_extend k ((es :: hits) ++ samples_of k D2) es
                  (hits ++ samples_of k D2) eq_refl).
Qed.

(** Scenario E split after its first record. *)
Lemma aggregate_append_witness :
  ∃ d1 d2 d3,
    aggregate Scenario.platform "2025-01-01T00:00:30.000Z"
      (dataset_value (take 1 Scenario.scenarioE)) = Return d1
    ∧ aggregate Scenario.platform "2025-01-01T00:03:00.000Z"
        (dataset_value (drop 1 Scenario.scenarioE)) = Return d2
    ∧ aggregate Scenario.platform "2025-01-01T00:03:00.000Z"
        (dataset_value Scenario.scenarioE) = Return d3
    ∧ points d3 "eastus2" = points d1 "eastus2" ++ points d2 "eastus2"
    ∧ length (points d3 "eastus2") = 3.
Proof.
  destruct (aggregate_append Scenario.platform "2025-01-01T00:00:30.000Z"
              "2025-01-01T00:03:00.000Z" "2025-01-01T00:03:00.000Z"
              (take 1 Scenario.scenarioE) (drop 1 Scenario.scenarioE) "eastus2")
    as (d1 & d2 & d3 & H1 & H2 & H3 & Hdata & _).
  { apply (bool_decide_unpack _). by vm_compute. }
  { apply (bool_decide_unpack _). by vm_compute. }
  exists d1, d2, d3. split; [exact H1|]. split; [exact H2|].
  split; [exact H3|]. split; [exact Hdata|].
  vm_compute in H3. injection H3 as <-. reflexivity.
Defined.

(** In every bucket built from Run Records, [count] is the length of
    [data] and [current], [min] and [max] are numbers; when the retail
    prices are no NaN, the stats are ordered: [min <= current <= max].  A
    stored price [null] is not refused: it is the [current] of its bucket
    and counts as 0 in [min], [max] and [avg]. *)
Theorem stats_ordered (P : Platform) (now : string) (D : list RunRecord)
    (d : ProcessedData) (k : string) (bucket : RegionData) :
  Forall plain_keys D →
  aggregate P now (dataset_value D) = Return d →
  own k (regions d) = Some bucket →
  (∃ st cur lo hi,
     stats bucket = Some st
     ∧ count st = length (data bucket)
     ∧ current st = VNum cur ∧ min st = Some lo ∧ max st = Some hi
     ∧ (Forall not_nan (prices_of k D) → fle lo cur ∧ fle cur hi))
  ∧ calcStats P [VNull]
    = Return {| count := 1; current := VNull; min := Some 0%float;
                max := Some 0%float; avg := Some 0%float |}.
Proof.
  intros HD Hd. rewrite (aggregate_dataset_lookup P now D d k HD Hd).
  split; [|reflexivity]. revert H. unfold prices_of.
  destruct (samples_of k D) as [|es hits] eqn:E; [done|].
  rewrite (finish_extend k _ es hits eq_refl).
  intros Hb. apply (inj Some) in Hb. subst bucket. cbn [stats data].
  set (prices := (λ es0 : RunRecord * Sample, retailPrice es0.2) <$> es :: hits).
  assert (Hne : prices ≠ []) by done.
  destruct (last prices) as [cur|] eqn:El; [|by apply last_None in El].
  exists (stats_of prices), cur, (foldl min_step infinity prices),
         (foldl max_step neg_infinity prices).
  split; [done|]. unfold stats_of. cbn [count current min max]. rewrite El.
  split; [by unfold prices; rewrite !length_fmap|].
  split; [done|]. split; [done|]. split; [done|].
  intros Hnan.
  assert (Hcur : cur ∈ prices).
  { rewrite last_lookup in El. by eapply list_elem_of_lookup_2. }
  destruct (min_is_minimum prices Hne Hnan) as [_ Hlo].
  destruct (max_is_maximum prices Hne Hnan) as [_ Hhi].
  split; [by apply Hlo | by apply Hhi].
Qed.

Lemma stats_ordered_witness :
  ∃ d bucket st,
    aggregate Scenario.platform "2025-01-01T00:03:00.000Z"
      (dataset_value Scenario.scenarioE) = Return d
    ∧ own "eastus2" (regions d) = Some bucket
    ∧ stats bucket = Some st
    ∧ count st = length (data bucket)
    ∧ ∃ cur lo hi, current st = VNum cur ∧ min st = Some lo
        ∧ max st = Some hi ∧ fle lo cur ∧ fle cur hi.
Proof.
  assert (Ha : ∃ d,
    aggregate Scenario.platform "2025-01-01T00:03:00.000Z"
      (dataset_value Scenario.scenarioE) = Return d
    ∧ is_Some (own "eastus2" (regions d))).
  { eexists. split; [vm_compute; reflexivity|]. vm_compute. eauto. }
  destruct Ha as (d & Ha & [bucket E]).
  destruct (stats_ordered Scenario.platform _ _ _ _ _ scenarioE_plain Ha E)
    as [(st & cur & lo & hi & Hst & Hcount & Hcur & Hlo & Hhi & Hord) _].
  exists d, bucket, st. split; [exact Ha|]. split; [exact E|].
  split; [exact Hst|]. split; [exact Hcount|]. exists cur, lo, hi.
  split; [exact Hcur|]. split; [exact Hlo|]. split; [exact Hhi|].
  apply Hord. repeat constructor.
Defined.

(** The summary counts the entries of the array, and its date range is
    the [timestamp] of the first and of the last entry in the order of the
    file (both null for the empty array), whatever the timestamps are. *)
Theorem summary_range (P : Platform) (now : string) (D : list Value)
    (d : ProcessedData) :
  aggregate P now (VArr D) = Return d →
  summary d
  = {| totalEntries := Count (length D);
       dateRange :=
         {| start := from_option (λ e, member e "timestamp") VNull (head D);
            end_ := from_option (λ e, member e "timestamp") VNull (last D) |} |}.
Proof.
  unfold aggregate.
  destruct (summarize P (VArr D)) as [s|e] eqn:Es; [|done].
  cbn [mbind Result_bind].
  destruct (group (VArr D)) as [buckets|e]; [|done]. cbn [mbind Result_bind].
  destruct (map_each _ _) as [regions|e]; [|done]. cbn [mbind Result_bind].
  intros [= <-]. cbn [summary]. revert Es. unfold summarize.
  cbn [get_length positive mbind Result_bind].
  destruct D as [|entry D]; [by intros [= <-]|].
  cbn [length Nat.ltb Nat.leb head from_option last_key mbind Result_bind].
  rewrite zero_key, !member_element, last_lookup. cbn [length Nat.pred].
  destruct (lookup_lt_is_Some_2 (entry :: D) (length D)) as [e He];
    [simpl; lia|].
  rewrite He. cbn [lookup list_lookup default from_option id]. unfold read.
  destruct (nullish entry); cbn [mbind Result_bind]; [done|].
  destruct (nullish e); cbn [mbind Result_bind]; [done|]. by intros [= <-].
Qed.

Lemma summary_range_witness :
  ∃ d,
    aggregate Scenario.platform "2025-01-01T00:03:00.000Z"
      (dataset_value Scenario.scenarioE) = Return d
    ∧ summary d
      = {| totalEntries := Count 3;
           dateRange := {| start := VStr "2025-01-01T00:00:00.000Z";
                           end_ := VStr "2025-01-01T00:02:00.000Z" |} |}.
Proof.
  destruct (aggregate_dataset Scenario.platform "2025-01-01T00:03:00.000Z"
              Scenario.scenarioE scenarioE_plain) as (buckets & _ & _ & _ & Ha).
  eexists. split; [exact Ha|].
  exact (summary_range Scenario.platform "2025-01-01T00:03:00.000Z"
           (record_value <$> Scenario.scenarioE) _ Ha).
Defined.

End AggregatorExtras.

(** * Properties of the script around the aggregator *)

Module ProcessDataProofs.
Import Runtime Aggregator ProcessData AggregatorProofs.

Section Script.
Context (P : Platform) (W : World).

(** The [catch] of [processData] at history [h]. *)
Definition failed (error : JsError) (h : History) : Result unit * History :=
  (Return tt,
   ProcessExit 1
   :: Console ERROR [Str "Error processing data:"; Str (message error)]
   :: h).

Definition docsDir : string := path_join P [dirname P; ".."; "docs"].

(** The history once the document has been read, parsed and announced
    with [entries] for its length. *)
Definition announced (entries : Frag) (h : History) : History :=
  Console LOG [Str "Processing "; entries; Str " price entries..."]
  :: FsReadFile (dataPath P) :: h.

(** The text written for the summary [d]. *)
Definition output (d : ProcessedData) : string :=
  JSON_stringify P (processed_value d).

(** What [processData] does, by the answers of the outer world and the
    outcome of each evaluation. *)
Lemma processData_spec h :
  processData P W h
  = match fs_readFile_result W h (dataPath P) with
    | Throw error => failed error (FsReadFile (dataPath P) :: h)
    | Return text =>
        match JSON_parse P text with
        | None =>
            failed (SyntaxError "Unexpected token in JSON")
              (FsReadFile (dataPath P) :: h)
        | Some priceData =>
            match get_length priceData ≫= template P with
            | Throw error => failed error (FsReadFile (dataPath P) :: h)
            | Return entries =>
                let h3 := DateNow :: announced entries h in
                match aggregate P (clock W (announced entries h)) priceData with
                | Throw error => failed error h3
                | Return d =>
                    let h4 := FsMkdir docsDir :: h3 in
                    let h5 := FsWriteFile (outputPath P) (output d) :: h4 in
                    match fs_mkdir_result W h3 docsDir with
                    | Throw error => failed error h4
                    | Return _ =>
                        match fs_writeFile_result W h4 (outputPath P)
                                (output d) with
                        | Throw error => failed error h5
                        | Return _ =>
                            (Return tt,
                             Console LOG
                               [Str "Regions processed: ";
                                Str (String.concat ", " (keys (regions d)))]
                             :: Console LOG [Str "✅ Processed data written to ";
                                             Str (outputPath P)]
                             :: h5)
                        end
                    end
                end
            end
        end
    end.
Proof.
  unfold processData, failed, output, announced, docsDir. step_M.
  destruct (fs_readFile_result W _ _) as [text|e]; step_M; [|done].
  destruct (JSON_parse P text) as [priceData|]; step_M; [|done].
  destruct (get_length priceData) as [len|e]; cbn [mbind Result_bind];
    [|done].
  destruct (template P len) as [entries|e]; [|done].
  destruct (aggregate P _ priceData) as [d|e]; [|done].
  destruct (fs_mkdir_result W _ _) as [[]|e]; [|done].
  by destruct (fs_writeFile_result W _ _ _) as [[]|e].
Qed.

(** A document that is not an array is never aggregated. *)
Lemma aggregate_not_array now priceData :
  (∀ entries, priceData ≠ VArr entries) →
  ∃ e, aggregate P now priceData = Throw e.
Proof.
  intros Hna. unfold aggregate.
  destruct (summarize P priceData) as [s|e]; [|by exists e].
  cbn [mbind Result_bind]. unfold group, array_method.
  destruct priceData; try (by eexists). by destruct (Hna elements).
Qed.

End Script.




End ProcessDataProofs.

(** * Further properties of the script around the aggregator *)

Module ProcessDataExtras.
Import Runtime Aggregator ProcessData ProcessDataProofs.

Section Script.
Context (P : Platform) (W : World).

(** Every step of the script succeeds at history [h]. *)
Definition succeeds (h : History) : Prop :=
  ∃ text priceData entries d,
    fs_readFile_result W h (dataPath P) = Return text
    ∧ JSON_parse P text = Some priceData
    ∧ get_length priceData ≫= template P = Return entries
    ∧ aggregate P (clock W (announced P entries h)) priceData = Return d
    ∧ fs_mkdir_result W (DateNow :: announced P entries h) (docsDir P)
      = Return tt
    ∧ fs_writeFile_result W
        (FsMkdir (docsDir P) :: DateNow :: announced P entries h)
        (outputPath P) (output P d) = Return tt.

(** When the raw dataset cannot be read, or is not valid JSON, the script
    prints the error and exits with code 1 without creating the output
    directory or writing anything. *)
Theorem processData_fails_closed (h : History) :
  (∃ error, fs_readFile_result W h (dataPath P) = Throw error)
  ∨ (∃ text, fs_readFile_result W h (dataPath P) = Return text
             ∧ JSON_parse P text = None) →
  ∃ error,
    processData P W h
    = (Return tt,
       [ ProcessExit 1;
         Console ERROR [Str "Error processing data:"; Str (message error)];
         FsReadFile (dataPath P) ] ++ h).
Proof.
  rewrite processData_spec. intros [[e ->] | (text & -> & ->)]; by eexists.
Qed.

(** The script never throws.  It exits with code 1 exactly when one of its
    steps fails: reading, parsing, reading the length of the document,
    aggregating it, creating the directory, writing.  Whatever it writes,
    it writes to the output path: the summary of the document it read.  A
    document that is not an array always ends in exit code 1, with no
    directory created and nothing written. *)
Theorem processData_exit_iff_failure (h : History) :
  ∃ evs,
    processData P W h = (Return tt, evs ++ h)
    ∧ (ProcessExit 1 ∈ evs ↔ ¬ succeeds h)
    ∧ (∀ path text, (path, text) ∈ local_writes evs →
         path = outputPath P
         ∧ ∃ raw priceData now d,
             fs_readFile_result W h (dataPath P) = Return raw
             ∧ JSON_parse P raw = Some priceData
             ∧ aggregate P now priceData = Return d
             ∧ text = output P d)
    ∧ (∀ raw priceData,
         fs_readFile_result W h (dataPath P) = Return raw →
         JSON_parse P raw = Some priceData →
         (∀ entries, priceData ≠ VArr entries) →
         ProcessExit 1 ∈ evs
         ∧ local_writes evs = []
         ∧ ∀ path, FsMkdir path ∉ evs).
Proof.
  rewrite processData_spec. unfold succeeds, failed.
  destruct (fs_readFile_result W h (dataPath P)) as [raw|e] eqn:Er.
  2:{ eexists [_; _; _]. split; [reflexivity|]. split; [|split].
      - split; [by intros _ (? & ? & ? & ? & [=] & _)|]. intros _.
        apply elem_of_cons; by left.
      - by intros path text ?%elem_of_nil.
      - by intros ? ? [=]. }
  destruct (JSON_parse P raw) as [priceData|] eqn:Ep.
  2:{ eexists [_; _; _]. split; [reflexivity|]. split; [|split].
      - split; [|intros _; apply elem_of_cons; by left].
        intros _ (? & ? & ? & ? & [= <-] & Hp & _). congruence.
      - by intros path text ?%elem_of_nil.
      - intros ? ? [= <-] Hp. congruence. }
  destruct (get_length priceData ≫= template P) as [entries|e] eqn:El.
  2:{ eexists [_; _; _]. split; [reflexivity|]. split; [|split].
      - split; [|intros _; apply elem_of_cons; by left].
        intros _ (? & ? & ? & ? & [= <-] & Hp & Hl & _).
        rewrite Ep in Hp. injection Hp as <-. congruence.
      - by intros path text ?%elem_of_nil.
      - intros ? ? _ _ _. split; [apply elem_of_cons; by left|].
        split; [done|]. intros path Hin.
        repeat (apply elem_of_cons in Hin as [Hin|Hin]; [discriminate Hin|]).
        by apply elem_of_nil in Hin. }
  cbv zeta.
  destruct (aggregate P _ priceData) as [d|e] eqn:Ea.
  2:{ eexists [_; _; _; _; _]. split; [reflexivity|]. split; [|split].
      - split; [|intros _; apply elem_of_cons; by left].
        intros _ (? & ? & ? & ? & [= <-] & Hp & Hl & Ha & _).
        rewrite Ep in Hp. injection Hp as <-.
        rewrite El in Hl. injection Hl as <-. congruence.
      - by intros path text ?%elem_of_nil.
      - intros ? ? _ _ _. split; [apply elem_of_cons; by left|].
        split; [done|]. intros path Hin.
        repeat (apply elem_of_cons in Hin as [Hin|Hin]; [discriminate Hin|]).
        by apply elem_of_nil in Hin. }
  assert (Harr : ∀ raw0 priceData0,
    Return raw = Return raw0 → JSON_parse P raw0 = Some priceData0 →
    (∀ entries0, priceData0 ≠ VArr entries0) → False).
  { intros ? ? [= <-] Hp Hna. rewrite Ep in Hp. injection Hp as <-.
    destruct (aggregate_not_array P (clock W (announced P entries h))
                priceData Hna) as [e He].
    congruence. }
  destruct (fs_mkdir_result W _ _) as [[]|e] eqn:Em.
  2:{ eexists [_; _; _; _; _; _]. split; [reflexivity|]. split; [|split].
      - split; [|intros _; apply elem_of_cons; by left].
        intros _ (? & ? & ? & ? & [= <-] & Hp & Hl & Ha & Hm & _).
        rewrite Ep in Hp. injection Hp as <-.
        rewrite El in Hl. injection Hl as <-. congruence.
      - by intros path text ?%elem_of_nil.
      - intros ? ? H1 H2 H3. destruct (Harr _ _ H1 H2 H3). }
  destruct (fs_writeFile_result W _ _ _) as [[]|e] eqn:Ew.
  - eexists [_; _; _; _; _; _; _]. split; [reflexivity|]. split; [|split].
    + split.
      * intros Hin. exfalso.
        repeat (apply elem_of_cons in Hin as [Hin|Hin]; [discriminate Hin|]).
        by apply elem_of_nil in Hin.
      * intros Hno. exfalso. apply Hno. by exists raw, priceData, entries, d.
    + intros path text [= -> ->]%list_elem_of_singleton. split; [done|].
      by eexists raw, priceData, _, d.
    + intros ? ? H1 H2 H3. destruct (Harr _ _ H1 H2 H3).
  - eexists [_; _; _; _; _; _; _]. split; [reflexivity|]. split; [|split].
    + split; [|intros _; apply elem_of_cons; by left].
      intros _ (? & ? & ? & d' & [= <-] & Hp & Hl & Ha & _ & Hw).
      rewrite Ep in Hp. injection Hp as <-.
      rewrite El in Hl. injection Hl as <-.
      rewrite Ea in Ha. injection Ha as <-. congruence.
    + intros path text [= -> ->]%list_elem_of_singleton. split; [done|].
      by eexists raw, priceData, _, d.
    + intros ? ? H1 H2 H3. destruct (Harr _ _ H1 H2 H3).
Qed.

End Script.

(** No file on disk: the read fails. *)
Lemma processData_fails_closed_witness :
  ∃ error,
    processData Scenario.platform Scenario.offline []
    = (Return tt,
       [ ProcessExit 1;
         Console ERROR [Str "Error processing data:"; Str (message error)];
         FsReadFile "/app/data/price-logs.json" ]).
Proof.
  destruct (processData_fails_closed Scenario.platform Scenario.offline [])
    as [error Herr].
  - left. by eexists.
  - exists error. exact Herr.
Defined.

(** The file holds the document [{}]: exit code 1, no directory, no
    output. *)
Lemma processData_exit_iff_failure_witness :
  ∃ evs,
    processData Scenario.platform (Scenario.disk (VObj []) false) []
    = (Return tt, evs ++ [])
    ∧ ProcessExit 1 ∈ evs ∧ local_writes evs = []
    ∧ FsMkdir "/app/docs" ∉ evs.
Proof.
  destruct (processData_exit_iff_failure Scenario.platform
              (Scenario.disk (VObj []) false) [])
    as (evs & Hp & _ & _ & Hobj).
  destruct (Hobj "{}" (VObj []) eq_refl eq_refl) as (Hexit & Hlw & Hmk);
    [done|].
  exists evs. split; [exact Hp|]. split; [exact Hexit|].
  split; [exact Hlw | apply Hmk].
Defined.

End ProcessDataExtras.

(** * Properties of the acquisition engine *)

Module CheckerProofs.
Import Runtime Checker.

Section Engine.
Context (P : Platform) (W : World).

(** ** The fetch client *)



(** ** The loop over the configured regions *)

(** The Run Record after the attempt on region [rg] with outcome [o]. *)
Definition recorded (results : RunRecord) (rg : Region) (o : option Sample)
    : RunRecord :=
  match o with
  | Some sample =>
      {| rr_timestamp := rr_timestamp results;
         rr_regions := assign (name rg) sample (rr_regions results) |}
  | None => results
  end.

Definition request_for (rg : Region) : Request :=
  pricing_request (buildApiUrl P (name rg)).

Lemma pricing_requests_app evs1 evs2 :
  pricing_requests (evs1 ++ evs2)
  = pricing_requests evs2 ++ pricing_requests evs1.
Proof. unfold pricing_requests. by rewrite omap_app, rev_app_distr. Qed.

Lemma fetchPriceData_returns r h :
  ∃ o evs,
    fetchPriceData P W r h = (Return o, evs ++ h)
    ∧ pricing_requests evs = [pricing_request (buildApiUrl P r)]
    ∧ ∀ s, o = Some s → region s = r.
Proof.
  unfold fetchPriceData. step_M.
  destruct (pricing_api W _ _) as [response|error]; step_M.
  - destruct (data response ≫= Items) as [[|item items]|]; step_M;
      eexists _, [_; _; _]; (split; [reflexivity|]);
      (split; [reflexivity|]); by intros s [= <-].
  - eexists _, [_; _; _]. split; [reflexivity|].
    split; [reflexivity|]. by intros s [=].
Qed.

Lemma attempt_returns results rg h :
  ∃ o h1 evs,
    fetchPriceData P W (name rg) h = (Return o, h1)
    ∧ attempt P W results rg h = (Return (recorded results rg o), evs ++ h)
    ∧ pricing_requests evs = [request_for rg]
    ∧ ∀ s, o = Some s → region s = name rg.
Proof.
  destruct (fetchPriceData_returns (name rg) h) as (o & evs & Hf & Hreq & Hreg).
  exists o, (evs ++ h). unfold attempt. step_M. rewrite Hf.
  destruct o as [sample|]; step_M.
  - exists (SetTimeout 1000 :: Console LOG
              [Str "✅ "; Str (displayName rg); Str ": $";
               Num (retailPrice sample); Str "/hour"] :: evs).
    split; [done|]. split; [done|]. split; [|done].
    change (pricing_requests ([SetTimeout 1000; Console LOG
              [Str "✅ "; Str (displayName rg); Str ": $";
               Num (retailPrice sample); Str "/hour"]] ++ evs)
            = [request_for rg]).
    by rewrite pricing_requests_app, Hreq.
  - exists (SetTimeout 1000 :: Console LOG
              [Str "❌ "; Str (displayName rg);
               Str ": Failed to fetch data"] :: evs).
    split; [done|]. split; [done|]. split; [|done].
    change (pricing_requests ([SetTimeout 1000; Console LOG
              [Str "❌ "; Str (displayName rg);
               Str ": Failed to fetch data"]] ++ evs)
            = [request_for rg]).
    by rewrite pricing_requests_app, Hreq.
Qed.

Lemma for_of_app {A S} (xs ys : list A) (body : S → A → M S) s h :
  for_of (xs ++ ys) body s h = bind (for_of xs body s) (for_of ys body) h.
Proof.
  revert s h. induction xs as [|x xs IH]; intros s h; simpl.
  - reflexivity.
  - unfold bind. destruct (body s x h) as [[s'|e] h']; [|done].
    apply IH.
Qed.

Lemma for_of_attempt regions : ∀ results h,
  ∃ results' evs,
    for_of regions (attempt P W) results h = (Return results', evs ++ h)
    ∧ rr_timestamp results' = rr_timestamp results
    ∧ pricing_requests evs = request_for <$> regions
    ∧ (∀ k, k ∉ name <$> regions →
            own k (rr_regions results') = own k (rr_regions results))
    ∧ (∀ k s, own k (rr_regions results') = Some s →
              own k (rr_regions results) = Some s
              ∨ (k ∈ name <$> regions ∧ region s = k)).
Proof.
  induction regions as [|rg regions IH]; intros results h; simpl.
  - exists results, []. unfold ret. repeat split; auto.
  - destruct (attempt_returns results rg h) as (o & h1 & evs & _ & Ha & Hreq & Hreg).
    unfold bind. rewrite Ha.
    destruct (IH (recorded results rg o) (evs ++ h))
      as (results' & evs' & Hfor & Hts & Hreqs & Hout & Hin).
    exists results', (evs' ++ evs). rewrite Hfor, <- app_assoc.
    split; [done|]. split; [by rewrite Hts; destruct o|].
    split; [by rewrite pricing_requests_app, Hreq, Hreqs|]. split.
    + intros k [Hk1 Hk2]%not_elem_of_cons. rewrite Hout by done.
      destruct o; simpl; [|done]. by rewrite own_assign_ne.
    + intros k s Hks. destruct (Hin k s Hks) as [Hrec | [Hk Hs]].
      * destruct o as [sample|]; simpl in Hrec; [|by left].
        destruct (decide (name rg = k)) as [<-|Hne].
        -- rewrite own_assign_eq in Hrec. injection Hrec as <-. right.
           split; [apply elem_of_cons; by left | by apply Hreg].
        -- rewrite own_assign_ne in Hrec by done. by left.
      * right. split; [apply elem_of_cons; by right | done].
Qed.

(** The key of a region holds what the fetch of that region returned,
    when its name is not configured twice. *)
Lemma for_of_attempt_key pre rg post results h res_pre h_pre o h_post :
  name rg ∉ name <$> pre → name rg ∉ name <$> post →
  for_of pre (attempt P W) results h = (Return res_pre, h_pre) →
  fetchPriceData P W (name rg) h_pre = (Return o, h_post) →
  ∃ results' h',
    for_of (pre ++ rg :: post) (attempt P W) results h = (Return results', h')
    ∧ own (name rg) (rr_regions results')
      = match o with
        | Some s => Some s
        | None => own (name rg) (rr_regions results)
        end.
Proof.
  intros Hpre Hpost Hfor Hfetch.
  rewrite for_of_app. unfold bind at 1. rewrite Hfor. simpl.
  destruct (attempt_returns res_pre rg h_pre) as (o' & h1 & evs & Hf & Ha & _).
  rewrite Hfetch in Hf. injection Hf as <- <-.
  unfold bind. rewrite Ha.
  destruct (for_of_attempt post (recorded res_pre rg o) (evs ++ h_pre))
    as (results' & evs' & Hfor' & _ & _ & Hout & _).
  exists results', (evs' ++ evs ++ h_pre). split; [done|].
  rewrite Hout by done.
  destruct (for_of_attempt pre results h)
    as (res_pre' & evs0 & Hfor0 & _ & _ & Hout0 & _).
  rewrite Hfor in Hfor0. injection Hfor0 as <- _.
  destruct o as [s|]; simpl.
  - by rewrite own_assign_eq.
  - by apply Hout0.
Qed.


(** ** Loading the prior dataset *)

(** All three GitHub settings are present and non-empty. *)
Definition configured : bool :=
  truthy (env W "GITHUB_TOKEN") && truthy (env W "GITHUB_REPO")
  && truthy (env W "GITHUB_OWNER").

Definition contents_url : string :=
  "https://api.github.com/repos/" +:+ default "" (env W "GITHUB_OWNER")
  +:+ "/" +:+ default "" (env W "GITHUB_REPO")
  +:+ "/contents/data/price-logs.json".

Definition read_request : Request :=
  {| url := contents_url;
     headers := github_headers (default "" (env W "GITHUB_TOKEN"));
     timeout := 10000%N |}.

Definition write_request : Request :=
  {| url := contents_url;
     headers := github_headers (default "" (env W "GITHUB_TOKEN"));
     timeout := 15000%N |}.

Lemma credentials_test :
  negb (truthy (env W "GITHUB_TOKEN")) || negb (truthy (env W "GITHUB_REPO"))
  || negb (truthy (env W "GITHUB_OWNER")) = negb configured.
Proof.
  unfold configured.
  by destruct (truthy (env W "GITHUB_TOKEN")),
              (truthy (env W "GITHUB_REPO")),
              (truthy (env W "GITHUB_OWNER")).
Qed.

(** What [fetchDataFromGitHub] does, by the answer of the remote read. *)
Lemma fetchDataFromGitHub_spec h :
  let h1 := Console LOG [Str "Fetching existing data from GitHub..."] :: h in
  fetchDataFromGitHub P W h
  = if configured then
      match github_read W h1 read_request with
      | Return response =>
          match data response ≫= content with
          | Some encoded =>
              if truthy (Some encoded) then
                match JSON_parse P (base64_decode P encoded) with
                | Some d => (Return d, GithubGet read_request :: h1)
                | None =>
                    (Return (VArr []),
                     Console ERROR
                       [Str "Error fetching data from GitHub:";
                        Str (message (SyntaxError "Unexpected token in JSON"))]
                     :: GithubGet read_request :: h1)
                end
              else (Return (VArr []), GithubGet read_request :: h1)
          | None => (Return (VArr []), GithubGet read_request :: h1)
          end
      | Throw error =>
          (Return (VArr []),
           (if is_404 error then
              Console LOG
                [Str "No existing data file found in GitHub (first run)"]
            else
              Console ERROR [Str "Error fetching data from GitHub:";
                             Str (message error)])
           :: GithubGet read_request :: h1)
      end
    else
      (Return (VArr []),
       Console LOG
         [Str "GitHub credentials not configured, skipping GitHub data fetch"]
       :: h).
Proof.
  intros h1. subst h1. unfold fetchDataFromGitHub.
  rewrite credentials_test. destruct configured; cbn [negb]; step_M.
  - fold contents_url. fold read_request.
    destruct (github_read W _ _) as [response|error]; step_M.
    + destruct (data response ≫= content) as [encoded|]; [|done].
      destruct (truthy (Some encoded)); [|done]. step_M.
      by destruct (JSON_parse P _).
    + by destruct (is_404 error).
  - done.
Qed.


(** The outcome of the local fallback when the snapshot cannot be used. *)
Definition fresh (h1 : History) : Result Value * History :=
  (Return (VArr []),
   Console LOG [Str "🆕 No existing data found, starting fresh"]
   :: FsReadFile (logFile P) :: h1).

(** The [try] of [loadExistingData] and its [catch], at history [h1]. *)
Definition local_load (h1 : History) : Result Value * History :=
  match fs_readFile_result W h1 (logFile P) with
  | Return text =>
      match JSON_parse P text with
      | Some localData =>
          match get_length localData ≫= template P with
          | Return entries =>
              (Return localData,
               Console LOG [Str "📁 Loaded "; entries;
                            Str " entries from local file"]
               :: FsReadFile (logFile P) :: h1)
          | Throw _ => fresh h1
          end
      | None => fresh h1
      end
  | Throw _ => fresh h1
  end.

(** What [loadExistingData] does once the remote load has returned. *)
Lemma loadExistingData_spec h githubData h1 :
  fetchDataFromGitHub P W h = (Return githubData, h1) →
  loadExistingData P W h
  = match get_length githubData with
    | Return len =>
        match positive P len with
        | Return true =>
            match template P len with
            | Return entries =>
                (Return githubData,
                 Console LOG [Str "✅ Loaded "; entries;
                              Str " existing entries from GitHub"] :: h1)
            | Throw e => (Throw e, h1)
            end
        | Return false => local_load h1
        | Throw e => (Throw e, h1)
        end
    | Throw e => (Throw e, h1)
    end.
Proof.
  intros Hgh. unfold loadExistingData. unfold bind at 1. rewrite Hgh.
  unfold local_load, fresh. step_M.
  destruct (get_length githubData) as [len|e]; [|done].
  destruct (positive P len) as [[]|e]; [| |done].
  - by destruct (template P len).
  - destruct (fs_readFile_result W _ _) as [text|e]; [|done].
    destruct (JSON_parse P text) as [localData|]; [|done].
    destruct (get_length localData) as [len'|e];
      cbn [mbind Result_bind]; [|done].
    by destruct (template P len').
Qed.

(** The same when the remote load has returned an array. *)
Lemma loadExistingData_array h elements h1 :
  fetchDataFromGitHub P W h = (Return (VArr elements), h1) →
  loadExistingData P W h
  = if (0 <? length elements)%nat then
      (Return (VArr elements),
       Console LOG [Str "✅ Loaded "; Len (length elements);
                    Str " existing entries from GitHub"] :: h1)
    else local_load h1.
Proof.
  intros Hgh. rewrite (loadExistingData_spec _ _ _ Hgh).
  cbn [get_length positive template]. by destruct (0 <? length elements)%nat.
Qed.





(** ** The local fallback store *)

(** What [ensureDataDirectory] does, by the answers of the file system. *)
Lemma ensureDataDirectory_spec h :
  let h1 := FsAccess (dataDir P) :: h in
  let h2 := Console LOG [Str "📁 Creating data directory: ";
                         Str (dataDir P)] :: h1 in
  let h3 := FsMkdir (dataDir P) :: h2 in
  ensureDataDirectory P W h
  = match fs_access_result W h (dataDir P) with
    | Return _ =>
        (Return tt,
         Console LOG [Str "📁 Data directory exists: "; Str (dataDir P)]
         :: h1)
    | Throw _ =>
        match fs_mkdir_result W h2 (dataDir P) with
        | Return _ =>
            (Return tt,
             Console LOG [Str "✅ Data directory created successfully"]
             :: h3)
        | Throw mkdirError =>
            if bool_decide (code mkdirError = Some "EROFS") then
              (Return tt,
               Console LOG
                 [Str "📱 Read-only filesystem, skipping directory creation"]
               :: h3)
            else
              (Throw mkdirError,
               Console ERROR [Str "❌ Failed to create data directory:";
                              Str (message mkdirError)]
               :: h3)
        end
    end.
Proof.
  intros h1 h2 h3. subst h1 h2 h3. unfold ensureDataDirectory. step_M.
  destruct (fs_access_result W _ _) as [[]|e]; step_M; [done|].
  destruct (fs_mkdir_result W _ _) as [[]|e']; step_M; [done|].
  by destruct (bool_decide _).
Qed.

(** [ensureDataDirectory] only extends the history, never writes a file,
    and throws no read-only-filesystem error. *)
Lemma ensureDataDirectory_effects h :
  ∃ r evs,
    ensureDataDirectory P W h = (r, evs ++ h)
    ∧ local_writes evs = []
    ∧ ∀ e, r = Throw e → code e ≠ Some "EROFS".
Proof.
  rewrite ensureDataDirectory_spec. cbv zeta.
  destruct (fs_access_result W _ _) as [[]|e].
  { eexists _, [_; _]. by repeat split. }
  destruct (fs_mkdir_result W _ _) as [[]|e'].
  { eexists _, [_; _; _; _]. by repeat split. }
  destruct (bool_decide _) eqn:Ecode.
  { eexists _, [_; _; _; _]. by repeat split. }
  eexists _, [_; _; _; _]. split; [reflexivity|]. split; [reflexivity|].
  intros e0 [= <-]. by apply bool_decide_eq_false in Ecode.
Qed.

(** The last line [saveData] prints when the local write fails. *)
Definition local_failure_notice (error : JsError) : Event :=
  if bool_decide (code error = Some "EROFS") then
    Console LOG
      [Str "📱 Read-only filesystem detected, skipping local save (using GitHub only)"]
  else
    Console WARN [Str "⚠️ Could not save locally: "; Str (message error)].

Lemma saveData_spec newData h :
  let text := JSON_stringify P (VArr [record_value newData]) in
  saveData P W newData h
  = match ensureDataDirectory P W h with
    | (Return _, h1) =>
        match fs_writeFile_result W h1 (logFile P) text with
        | Return _ =>
            (Return tt,
             Console LOG [Str "📁 Data saved locally for current run"]
             :: FsWriteFile (logFile P) text :: h1)
        | Throw error =>
            (Return tt,
             local_failure_notice error
             :: FsWriteFile (logFile P) text :: h1)
        end
    | (Throw error, h1) => (Return tt, local_failure_notice error :: h1)
    end.
Proof.
  intros text. subst text. unfold saveData, local_failure_notice.
  unfold try_catch at 1. unfold bind at 1.
  destruct (ensureDataDirectory P W h) as [[[]|e] h1]; step_M.
  - destruct (fs_writeFile_result W _ _ _) as [[]|e]; step_M; [done|].
    by destruct (bool_decide _).
  - by destruct (bool_decide _).
Qed.


(** ** The remote dataset store: save *)

(** The write request for [allData], with revision token [sha], composed
    at clock reading [now]. *)
Definition request_body (allData : Dataset) (sha : option string)
    (now : string) : PutBody :=
  {| pb_message := "Update price data: " +:+ now;
     pb_content := base64_encode P (JSON_stringify P (VArr allData));
     pb_branch := "main";
     pb_sha := if truthy sha then sha else None |}.

(** The [catch] of [pushToGitHub] at history [h]. *)
Definition caught (error : JsError) (h : History) : Result unit * History :=
  (Return tt, error_report error ++ h).

(** The rest of the [try] block once the revision token is settled. *)
Definition send (allData : Dataset) (sha : option string) (h : History)
    : Result unit * History :=
  let body := request_body allData sha (clock W h) in
  let h1 := GithubPut write_request body :: DateNow :: h in
  match github_write W (DateNow :: h) write_request body with
  | Return response =>
      let h2 := Console LOG [Str "✅ Successfully pushed ";
                             Len (length allData);
                             Str " entries to GitHub"] :: h1 in
      match data response ≫= commit with
      | Some html_url =>
          (Return tt, Console LOG [Str "📝 Commit: "; Str html_url] :: h2)
      | None =>
          caught (TypeError "Cannot read properties of undefined (reading 'html_url')") h2
      end
  | Throw error => caught error h1
  end.

Lemma pushToGitHub_spec allData h :
  let h1 := Console LOG [Str "Pushing updated data to GitHub repository..."]
            :: h in
  let h2 := GithubGet read_request :: h1 in
  pushToGitHub P W allData h
  = if configured then
      match github_read W h1 read_request with
      | Return existingFileResponse =>
          match data existingFileResponse with
          | Some d =>
              send allData (sha d)
                (Console LOG [Str "Found existing file, will update it"]
                 :: h2)
          | None =>
              caught (TypeError "Cannot read properties of undefined (reading 'sha')") h2
          end
      | Throw error =>
          if is_404 error then
            send allData None
              (Console LOG [Str "No existing file found, will create new one"]
               :: h2)
          else caught error h2
      end
    else
      (Return tt,
       Console LOG
         [Str "GitHub credentials not configured. Skipping GitHub push."]
       :: h).
Proof.
  intros h1 h2. subst h1 h2. unfold pushToGitHub.
  rewrite credentials_test. destruct configured; cbn [negb]; step_M; [|done].
  change ("https://api.github.com/repos/" +:+ default "" (env W "GITHUB_OWNER")
          +:+ "/" +:+ default "" (env W "GITHUB_REPO")
          +:+ "/contents/" +:+ "data/price-logs.json") with contents_url.
  fold read_request. fold write_request.
  unfold send, caught, error_report, request_body.
  destruct (github_read W _ _) as [resp|error]; step_M.
  - destruct (data resp) as [d|]; step_M; [|done].
    destruct (github_write W _ _ _) as [response|error]; step_M.
    + by destruct (data response ≫= commit).
    + by destruct (response error).
  - destruct (is_404 error) eqn:E404; step_M.
    + destruct (github_write W _ _ _) as [response|error']; step_M.
      * by destruct (data response ≫= commit).
      * by destruct (response error').
    + by destruct (response error).
Qed.


Definition is_read (ev : Event) : bool :=
  match ev with GithubGet _ => true | _ => false end.

Definition is_write (ev : Event) : bool :=
  match ev with GithubPut _ _ => true | _ => false end.

(** A list splits in one way only around its single element with [p]. *)
Lemma split_unique (p : Event → bool) pre x post : ∀ pre' x' post',
  pre ++ x :: post = pre' ++ x' :: post' →
  p x = true → p x' = true →
  Forall (λ e, p e = false) pre' → Forall (λ e, p e = false) post' →
  pre = pre' ∧ x = x' ∧ post = post'.
Proof.
  induction pre as [|a pre IH]; intros [|b pre'] x' post'; simpl;
    intros [= ? ?] Hx Hx' Hpre Hpost; subst.
  - done.
  - apply Forall_cons in Hpre as [Hb _]. congruence.
  - apply Forall_app in Hpost as [_ [Hb _]%Forall_cons]. congruence.
  - apply Forall_cons in Hpre as [_ Hpre].
    destruct (IH pre' x' post') as (-> & -> & ->); done.
Qed.

Lemma no_split (p : Event → bool) (evs : History) pre x post :
  Forall (λ e, p e = false) evs → p x = true → evs ≠ pre ++ x :: post.
Proof.
  intros Hall Hx ->. apply Forall_app in Hall as [_ [Hb _]%Forall_cons].
  congruence.
Qed.

Lemma error_report_quiet error :
  Forall (λ e, is_read e = false) (error_report error)
  ∧ Forall (λ e, is_write e = false) (error_report error)
  ∧ remote_writes (error_report error) = [].
Proof.
  unfold error_report. destruct (response error);
    repeat split; by repeat constructor.
Qed.

Lemma remote_writes_app evs1 evs2 :
  remote_writes (evs1 ++ evs2) = remote_writes evs2 ++ remote_writes evs1.
Proof. unfold remote_writes. by rewrite omap_app, rev_app_distr. Qed.

(** The request is written exactly once; what follows it in the history
    only reports on its outcome. *)
Lemma send_shape allData sha h :
  let body := request_body allData sha (clock W h) in
  ∃ report,
    send allData sha h
    = (Return tt, report ++ GithubPut write_request body :: DateNow :: h)
    ∧ Forall (λ e, is_read e = false) report
    ∧ Forall (λ e, is_write e = false) report
    ∧ remote_writes report = []
    ∧ ∀ e, github_write W (DateNow :: h) write_request body = Throw e →
           report = error_report e.
Proof.
  intros body. unfold send. fold body.
  destruct (github_write W _ _ _) as [response|error].
  - destruct (data response ≫= commit) as [html_url|].
    + eexists [_; _]. split; [reflexivity|].
      repeat split; by repeat constructor.
    + unfold caught. eexists (error_report _ ++ [_]).
      rewrite <- app_assoc. split; [reflexivity|].
      destruct (error_report_quiet
        (TypeError "Cannot read properties of undefined (reading 'html_url')"))
        as (Hr & Hw & Hrw).
      split; [apply Forall_app; split; [done | by repeat constructor]|].
      split; [apply Forall_app; split; [done | by repeat constructor]|].
      split; [by rewrite remote_writes_app, Hrw|]. by intros e [=].
  - unfold caught. exists (error_report error). split; [reflexivity|].
    destruct (error_report_quiet error) as (Hr & Hw & Hrw).
    split; [done|]. split; [done|]. split; [done|]. by intros e [= <-].
Qed.


(** C2.  With credentials, [pushToGitHub] first reads the current file
    to learn its SHA.  When the read answers, the write request carries
    that SHA (if it is a non-empty token); when the read fails with a 404,
    the write request carries none.  Every write request sent carries the
    whole of [allData], stringified and base64-encoded, and a message
    made of the clock reading taken just before the write. *)
Theorem save_protocol (allData : Dataset) (h : History) :
  configured = true →
  let h1 := Console LOG [Str "Pushing updated data to GitHub repository..."]
            :: h in
  let h2 := GithubGet read_request :: h1 in
  ∃ evs,
    pushToGitHub P W allData h = (Return tt, evs ++ h2)
    ∧ (∀ existingFileResponse d,
         github_read W h1 read_request = Return existingFileResponse →
         data existingFileResponse = Some d →
         remote_writes evs
         = [ {| pb_message :=
                  "Update price data: "
                  +:+ clock W (Console LOG
                                 [Str "Found existing file, will update it"]
                               :: h2);
                pb_content := base64_encode P (JSON_stringify P (VArr allData));
                pb_branch := "main";
                pb_sha := if truthy (sha d) then sha d else None |} ])
    ∧ (∀ error,
         github_read W h1 read_request = Throw error →
         is_404 error = true →
         remote_writes evs
         = [ {| pb_message :=
                  "Update price data: "
                  +:+ clock W (Console LOG
                                 [Str "No existing file found, will create new one"]
                               :: h2);
                pb_content := base64_encode P (JSON_stringify P (VArr allData));
                pb_branch := "main";
                pb_sha := None |} ])
    ∧ (∀ body, body ∈ remote_writes evs →
         pb_content body = base64_encode P (JSON_stringify P (VArr allData))
         ∧ pb_branch body = "main"
         ∧ ∃ now, pb_message body = "Update price data: " +:+ now).
Proof.
  intros Hc h1 h2. rewrite pushToGitHub_spec, Hc. fold h1. fold h2.
  assert (Hsend : ∀ sha note,
    ∃ evs, send allData sha (Console LOG note :: h2) = (Return tt, evs ++ h2)
           ∧ remote_writes evs
             = [request_body allData sha (clock W (Console LOG note :: h2))]).
  { intros sha0 note.
    destruct (send_shape allData sha0 (Console LOG note :: h2))
      as (report & Hs & _ & _ & Hrw & _).
    exists (report ++ [GithubPut write_request
                         (request_body allData sha0
                            (clock W (Console LOG note :: h2)));
                       DateNow; Console LOG note]).
    rewrite <- app_assoc. split; [exact Hs|].
    by rewrite remote_writes_app, Hrw. }
  assert (Hcaught : ∀ e,
    ∃ evs, caught e h2 = (Return tt, evs ++ h2) ∧ remote_writes evs = []).
  { intros e. exists (error_report e). split; [done|].
    apply error_report_quiet. }
  assert (Hbody : ∀ sha0 now body,
    body ∈ [request_body allData sha0 now] →
    pb_content body = base64_encode P (JSON_stringify P (VArr allData))
    ∧ pb_branch body = "main"
    ∧ ∃ now, pb_message body = "Update price data: " +:+ now).
  { intros sha0 now body ->%list_elem_of_singleton. simpl. eauto. }
  destruct (github_read W h1 read_request) as [resp|error].
  - destruct (data resp) as [d|] eqn:Ed.
    + destruct (Hsend (sha d) [Str "Found existing file, will update it"])
        as (evs & -> & Hrw).
      exists evs. split; [done|]. split.
      { intros ? d0 [= <-] Hd. rewrite Ed in Hd. injection Hd as <-.
        exact Hrw. }
      split; [by intros ? [=]|]. rewrite Hrw. apply Hbody.
    + destruct (Hcaught (TypeError "Cannot read properties of undefined (reading 'sha')"))
        as (evs & -> & Hrw).
      exists evs. split; [done|]. split; [intros ? ? [= <-]; congruence|].
      split; [by intros ? [=]|]. rewrite Hrw. by intros ? ?%elem_of_nil.
  - destruct (is_404 error) eqn:E404.
    + destruct (Hsend None [Str "No existing file found, will create new one"])
        as (evs & -> & Hrw).
      exists evs. split; [done|]. split; [by intros ? ? [=]|].
      split; [intros ? [= <-] _; exact Hrw|]. rewrite Hrw. apply Hbody.
    + destruct (Hcaught error) as (evs & -> & Hrw).
      exists evs. split; [done|]. split; [by intros ? ? [=]|].
      split; [intros ? [= <-]; congruence|].
      rewrite Hrw. by intros ? ?%elem_of_nil.
Qed.


(** Every way [pushToGitHub] can go: it returns, and what it printed
    last reports on the request that failed. *)
Lemma pushToGitHub_effects allData h :
  ∃ evs,
    pushToGitHub P W allData h = (Return tt, evs ++ h)
    ∧ (configured = false →
       evs = [Console LOG
                [Str "GitHub credentials not configured. Skipping GitHub push."]])
    ∧ (configured = true → ∃ evs', evs = evs' ++ [GithubGet read_request;
         Console LOG [Str "Pushing updated data to GitHub repository..."]])
    ∧ (∀ pre post error,
         evs = pre ++ GithubGet read_request :: post →
         github_read W (post ++ h) read_request = Throw error →
         is_404 error = false →
         pre = error_report error)
    ∧ (∀ pre post body error,
         evs = pre ++ GithubPut write_request body :: post →
         github_write W (post ++ h) write_request body = Throw error →
         pre = error_report error)
    ∧ (∀ body, body ∈ remote_writes evs →
         pb_content body = base64_encode P (JSON_stringify P (VArr allData))).
Proof.
  rewrite pushToGitHub_spec. cbv zeta.
  set (pushlog := Console LOG
                    [Str "Pushing updated data to GitHub repository..."]).
  destruct configured eqn:Hc.
  2:{ eexists [_]. split; [reflexivity|]. split; [done|]. split; [done|].
      split; [|split].
      - intros pre post e Hsplit. exfalso. revert Hsplit.
        apply (no_split is_read); by repeat constructor.
      - intros pre post body e Hsplit. exfalso. revert Hsplit.
        apply (no_split is_write); by repeat constructor.
      - by intros body ?%elem_of_nil. }
  assert (Hsend : ∀ sha note,
    (∀ e, github_read W (pushlog :: h) read_request = Throw e →
          is_404 e = true) →
    ∃ evs,
      send allData sha (Console LOG note :: GithubGet read_request
                        :: pushlog :: h) = (Return tt, evs ++ h)
      ∧ (true = false → evs = [Console LOG
           [Str "GitHub credentials not configured. Skipping GitHub push."]])
      ∧ (true = true → ∃ evs', evs = evs' ++ [GithubGet read_request; pushlog])
      ∧ (∀ pre post error,
           evs = pre ++ GithubGet read_request :: post →
           github_read W (post ++ h) read_request = Throw error →
           is_404 error = false → pre = error_report error)
      ∧ (∀ pre post body error,
           evs = pre ++ GithubPut write_request body :: post →
           github_write W (post ++ h) write_request body = Throw error →
           pre = error_report error)
      ∧ (∀ body, body ∈ remote_writes evs →
           pb_content body = base64_encode P (JSON_stringify P (VArr allData)))).
  { intros sha0 note Hread.
    set (h3 := Console LOG note :: GithubGet read_request :: pushlog :: h).
    destruct (send_shape allData sha0 h3)
      as (report & Hs & Hqr & Hqw & Hrw & Herr).
    set (body := request_body allData sha0 (clock W h3)) in *.
    exists (report ++ [GithubPut write_request body; DateNow;
                       Console LOG note; GithubGet read_request; pushlog]).
    rewrite <- app_assoc. split; [exact Hs|].
    split; [done|]. split.
    { intros _. exists (report ++ [GithubPut write_request body; DateNow;
                                   Console LOG note]).
      by rewrite <- app_assoc. }
    split; [|split].
    - intros pre post e Hsplit He H404.
      destruct (split_unique is_read pre (GithubGet read_request) post
                  (report ++ [GithubPut write_request body; DateNow;
                              Console LOG note])
                  (GithubGet read_request) [pushlog])
        as (_ & _ & ->); try done.
      { by rewrite <- app_assoc. }
      { apply Forall_app. split; [done | by repeat constructor]. }
      { by repeat constructor. }
      apply Hread in He. congruence.
    - intros pre post body0 e Hsplit He.
      destruct (split_unique is_write pre (GithubPut write_request body0) post
                  report (GithubPut write_request body)
                  [DateNow; Console LOG note; GithubGet read_request; pushlog])
        as (-> & [= ->] & ->); try done.
      { by repeat constructor. }
      by apply Herr.
    - rewrite remote_writes_app, Hrw. simpl.
      by intros body0 ->%list_elem_of_singleton. }
  assert (Hcaught : ∀ e,
    (∀ error, github_read W (pushlog :: h) read_request = Throw error →
              error = e) →
    ∃ evs,
      caught e (GithubGet read_request :: pushlog :: h) = (Return tt, evs ++ h)
      ∧ (true = false → evs = [Console LOG
           [Str "GitHub credentials not configured. Skipping GitHub push."]])
      ∧ (true = true → ∃ evs', evs = evs' ++ [GithubGet read_request; pushlog])
      ∧ (∀ pre post error,
           evs = pre ++ GithubGet read_request :: post →
           github_read W (post ++ h) read_request = Throw error →
           is_404 error = false → pre = error_report error)
      ∧ (∀ pre post body error,
           evs = pre ++ GithubPut write_request body :: post →
           github_write W (post ++ h) write_request body = Throw error →
           pre = error_report error)
      ∧ (∀ body, body ∈ remote_writes evs →
           pb_content body = base64_encode P (JSON_stringify P (VArr allData)))).
  { intros e Hread. destruct (error_report_quiet e) as (Hqr & Hqw & Hrw).
    exists (error_report e ++ [GithubGet read_request; pushlog]).
    unfold caught. rewrite <- app_assoc. split; [done|]. split; [done|].
    split; [by eauto|]. split; [|split].
    - intros pre post error Hsplit He _.
      destruct (split_unique is_read pre (GithubGet read_request) post
                  (error_report e) (GithubGet read_request) [pushlog])
        as (-> & _ & ->); try done.
      { by repeat constructor. }
      by rewrite (Hread _ He).
    - intros pre post body error Hsplit. exfalso. revert Hsplit.
      apply (no_split is_write); [|done].
      apply Forall_app. split; [done | by repeat constructor].
    - rewrite remote_writes_app, Hrw. by intros body ?%elem_of_nil. }
  destruct (github_read W (pushlog :: h) read_request) as [resp|error] eqn:Er.
  - destruct (data resp) as [d|].
    + apply Hsend. by intros e [=].
    + apply Hcaught. by intros e [=].
  - destruct (is_404 error) eqn:E404.
    + apply Hsend. by intros e [= <-].
    + apply Hcaught. by intros e [= <-].
Qed.


(** ** The orchestrator *)

(** The history once [run] has printed its banner. *)
Definition started (h : History) : History :=
  Console LOG
    [Str "Timestamp: ";
     Str (clock W (Console LOG
                     [Str "=== Azure Spot Price Checker Started ==="]
                   :: h))]
  :: DateNow
  :: Console LOG [Str "=== Azure Spot Price Checker Started ==="] :: h.

(** The history at which the loop over the regions starts. *)
Definition loop_start (h : History) : History := DateNow :: started h.

(** The Run Record the loop starts from. *)
Definition first_record (h : History) : RunRecord :=
  {| rr_timestamp := clock W (started h); rr_regions := [] |}.

Lemma REGIONS_names : name <$> REGIONS = ["eastus2"; "northeurope"].
Proof. reflexivity. Qed.

Lemma REGIONS_NoDup : NoDup (name <$> REGIONS).
Proof.
  rewrite REGIONS_names. apply NoDup_cons. split; [|apply NoDup_singleton].
  intros H%list_elem_of_singleton. discriminate H.
Qed.

Lemma collect_unfold h :
  collect P W h
  = for_of REGIONS (attempt P W) (first_record h) (loop_start h).
Proof. unfold collect. by step_M. Qed.


Lemma for_of_attempt_NoDup regions : ∀ results h results' h',
  for_of regions (attempt P W) results h = (Return results', h') →
  NoDup (keys (rr_regions results)) → NoDup (keys (rr_regions results')).
Proof.
  induction regions as [|rg regions IH]; intros results h results' h'; simpl.
  - unfold ret. by intros [= <- _].
  - destruct (attempt_returns results rg h) as (o & h1 & evs & _ & Ha & _).
    unfold bind. rewrite Ha. intros Hfor Hnd. apply (IH _ _ _ _ Hfor).
    destruct o; simpl; [by apply NoDup_keys_assign | done].
Qed.

Lemma collect_returns h :
  ∃ results evs,
    collect P W h = (Return results, evs ++ h)
    ∧ rr_timestamp results = rr_timestamp (first_record h)
    ∧ pricing_requests evs = request_for <$> REGIONS
    ∧ (∀ k, k ∉ name <$> REGIONS → own k (rr_regions results) = None)
    ∧ (∀ k s, own k (rr_regions results) = Some s →
              k ∈ name <$> REGIONS ∧ region s = k)
    ∧ NoDup (keys (rr_regions results)).
Proof.
  rewrite collect_unfold.
  destruct (for_of_attempt REGIONS (first_record h) (loop_start h))
    as (results & evs & Hfor & Hts & Hreq & Hout & Hin).
  exists results.
  exists (evs ++ [DateNow;
                  Console LOG
                    [Str "Timestamp: ";
                     Str (clock W (Console LOG
                            [Str "=== Azure Spot Price Checker Started ==="]
                            :: h))];
                  DateNow;
                  Console LOG [Str "=== Azure Spot Price Checker Started ==="]]).
  pose proof (for_of_attempt_NoDup _ _ _ _ _ Hfor (NoDup_nil_2)) as Hnd.
  unfold loop_start, started in Hfor.
  rewrite <- app_assoc. split; [exact Hfor|]. split; [done|].
  split; [by rewrite pricing_requests_app, Hreq|]. split; [|split; [|done]].
  - intros k Hk. by rewrite Hout.
  - intros k s Hks. by destruct (Hin k s Hks) as [?|?].
Qed.

Lemma local_writes_app evs1 evs2 :
  local_writes (evs1 ++ evs2) = local_writes evs2 ++ local_writes evs1.
Proof. unfold local_writes. by rewrite omap_app, rev_app_distr. Qed.

Lemma saveData_effects newData h :
  ∃ evs,
    saveData P W newData h = (Return tt, evs ++ h)
    ∧ (local_writes evs = []
       ∨ local_writes evs
         = [(logFile P, JSON_stringify P (VArr [record_value newData]))]).
Proof.
  rewrite saveData_spec. cbv zeta.
  destruct (ensureDataDirectory_effects h) as (r & evs & -> & Hw & _).
  destruct r as [[]|e].
  - destruct (fs_writeFile_result W _ _ _) as [[]|e].
    + exists ([Console LOG [Str "📁 Data saved locally for current run"];
               FsWriteFile (logFile P)
                 (JSON_stringify P (VArr [record_value newData]))] ++ evs).
      rewrite <- app_assoc. split; [done|]. right.
      by rewrite local_writes_app, Hw.
    + exists ([local_failure_notice e;
               FsWriteFile (logFile P)
                 (JSON_stringify P (VArr [record_value newData]))] ++ evs).
      rewrite <- app_assoc. split; [done|]. right.
      rewrite local_writes_app, Hw. unfold local_failure_notice.
      by destruct (bool_decide _).
  - exists ([local_failure_notice e] ++ evs). split; [done|]. left.
    rewrite local_writes_app, Hw. unfold local_failure_notice.
    by destruct (bool_decide _).
Qed.

(** The first line of the remote save. *)
Definition pushlog : Event :=
  Console LOG [Str "Pushing updated data to GitHub repository..."].

(** The revision token once the read of the current file has settled it,
    with the history at that point: the SHA of the file that exists, none
    after a 404.  Nothing when the read fails otherwise. *)
Definition settled (h : History) : option (option string * History) :=
  let h2 := GithubGet read_request :: pushlog :: h in
  match github_read W (pushlog :: h) read_request with
  | Return existingFileResponse =>
      match data existingFileResponse with
      | Some d =>
          Some (sha d,
                Console LOG [Str "Found existing file, will update it"] :: h2)
      | None => None
      end
  | Throw error =>
      if is_404 error then
        Some (None,
              Console LOG [Str "No existing file found, will create new one"]
              :: h2)
      else None
  end.

(** The write requests of the remote save: one, for the whole of
    [allData], once the revision token is settled; none otherwise. *)
Lemma pushToGitHub_writes allData h :
  ∃ evs,
    pushToGitHub P W allData h = (Return tt, evs ++ h)
    ∧ remote_writes evs
      = if configured then
          match settled h with
          | Some (sha, h3) => [request_body allData sha (clock W h3)]
          | None => []
          end
        else [].
Proof.
  rewrite pushToGitHub_spec. cbv zeta. unfold settled, pushlog.
  destruct configured; [|by eexists [_]].
  set (h2 := GithubGet read_request :: _ :: h).
  assert (Hsend : ∀ sha note,
    ∃ evs, send allData sha (Console LOG note :: h2) = (Return tt, evs ++ h)
           ∧ remote_writes evs
             = [request_body allData sha (clock W (Console LOG note :: h2))]).
  { intros sha0 note.
    destruct (send_shape allData sha0 (Console LOG note :: h2))
      as (report & Hs & _ & _ & Hrw & _).
    exists (report ++ [GithubPut write_request
                         (request_body allData sha0
                            (clock W (Console LOG note :: h2)));
                       DateNow; Console LOG note; GithubGet read_request;
                       Console LOG
                         [Str "Pushing updated data to GitHub repository..."]]).
    rewrite <- app_assoc. split; [exact Hs|].
    by rewrite remote_writes_app, Hrw. }
  assert (Hcaught : ∀ e,
    ∃ evs, caught e h2 = (Return tt, evs ++ h) ∧ remote_writes evs = []).
  { intros e.
    exists (error_report e
            ++ [GithubGet read_request;
                Console LOG
                  [Str "Pushing updated data to GitHub repository..."]]).
    unfold caught. rewrite <- app_assoc. split; [done|].
    rewrite remote_writes_app.
    by destruct (error_report_quiet e) as (_ & _ & ->). }
  destruct (github_read W _ _) as [resp|error].
  - destruct (data resp) as [d|]; [apply Hsend | apply Hcaught].
  - destruct (is_404 error); [apply Hsend | apply Hcaught].
Qed.

(** [run] once the record is collected and the load has ended. *)
Lemma run_unfold h results h1 r h2 :
  collect P W h = (Return results, h1) →
  loadExistingData P W h1 = (r, h2) →
  run P W h
  = match r ≫= (λ existingData,
                  push existingData "existingData" (record_value results)) with
    | Return allData =>
        match saveData P W results h2 with
        | (Return _, h3) =>
            match pushToGitHub P W allData h3 with
            | (Return _, h4) =>
                (Return tt,
                 Console LOG [Str ("=== Price Check Complete ===" +:+ newline)]
                 :: h4)
            | (Throw e, h4) => (Throw e, h4)
            end
        | (Throw e, h3) => (Throw e, h3)
        end
    | Throw e => (Throw e, h2)
    end.
Proof.
  intros Hc Hl. unfold run. unfold bind at 1. rewrite Hc.
  unfold bind at 1. rewrite Hl.
  destruct r as [v|e]; [|done]. cbn [mbind Result_bind].
  unfold bind at 1, lift.
  destruct (push v _ _) as [allData|e]; [|done].
  unfold bind at 1. destruct (saveData P W results h2) as [[[]|e] h3]; [|done].
  unfold bind at 1.
  destruct (pushToGitHub P W allData h3) as [[[]|e] h4]; [|done].
  by step_M.
Qed.

(** When the load returns an array, the remaining stages of [run] follow
    in sequence and none of them throws. *)
Lemma run_stages h results h1 existing h2 :
  collect P W h = (Return results, h1) →
  loadExistingData P W h1 = (Return (VArr existing), h2) →
  ∃ h3 evs,
    saveData P W results h2 = (Return tt, h3)
    ∧ pushToGitHub P W (existing ++ [record_value results]) h3
      = (Return tt, evs ++ h3)
    ∧ run P W h
      = (Return tt,
         Console LOG [Str ("=== Price Check Complete ===" +:+ newline)]
         :: evs ++ h3).
Proof.
  intros Hc Hl. destruct (saveData_effects results h2) as (evs3 & Hs & _).
  destruct (pushToGitHub_effects (existing ++ [record_value results])
              (evs3 ++ h2)) as (evs & Hp & _).
  exists (evs3 ++ h2), evs. split; [done|]. split; [done|].
  rewrite (run_unfold _ _ _ _ _ Hc Hl).
  cbn [mbind Result_bind push array_method]. by rewrite Hs, Hp.
Qed.

(** When the load throws, or returns something else than an array, [run]
    throws before anything is saved. *)
Lemma run_throws h results h1 r h2 :
  collect P W h = (Return results, h1) →
  loadExistingData P W h1 = (r, h2) →
  (∀ existing, r ≠ Return (VArr existing)) →
  ∃ e, run P W h = (Throw e, h2).
Proof.
  intros Hc Hl Hna. rewrite (run_unfold _ _ _ _ _ Hc Hl).
  destruct r as [v|e]; [|by eexists].
  cbn [mbind Result_bind push array_method].
  destruct v; try (by eexists). by destruct (Hna elements).
Qed.

(** C1.  [run] builds one Run Record: its [regions] hold, under the name
    of each configured region, what the fetch of that region returned (the
    Sample, or nothing when the fetch failed), and no other key.  When the
    load returns the dataset [existing], [run] returns, and what it hands
    to the remote save is [existing] with that record appended: one
    record more, the prior ones unchanged and in order.  With credentials
    and the revision token settled, exactly one write request is sent,
    and it carries exactly that dataset; otherwise none is sent. *)
Theorem run_appends_one_record (h : History) :
  ∃ results h1,
    collect P W h = (Return results, h1)
    ∧ (∀ pre rg post res_pre h_pre o h_post,
         REGIONS = pre ++ rg :: post →
         for_of pre (attempt P W) (first_record h) (loop_start h)
         = (Return res_pre, h_pre) →
         fetchPriceData P W (name rg) h_pre = (Return o, h_post) →
         own (name rg) (rr_regions results) = o)
    ∧ (∀ k, k ∉ name <$> REGIONS → own k (rr_regions results) = None)
    ∧ ∀ existing h2,
        loadExistingData P W h1 = (Return (VArr existing), h2) →
        ∃ h3 evs,
          saveData P W results h2 = (Return tt, h3)
          ∧ pushToGitHub P W (existing ++ [record_value results]) h3
            = (Return tt, evs ++ h3)
          ∧ run P W h
            = (Return tt,
               Console LOG [Str ("=== Price Check Complete ===" +:+ newline)]
               :: evs ++ h3)
          ∧ remote_writes evs
            = (if configured then
                 match settled h3 with
                 | Some (sha, h4) =>
                     [request_body (existing ++ [record_value results]) sha
                        (clock W h4)]
                 | None => []
                 end
               else [])
          ∧ (∀ body, body ∈ remote_writes evs →
               pb_content body
               = base64_encode P
                   (JSON_stringify P
                      (VArr (existing ++ [record_value results]))))
          ∧ length (existing ++ [record_value results]) = S (length existing)
          ∧ take (length existing) (existing ++ [record_value results])
            = existing
          ∧ (existing ++ [record_value results]) !! length existing
            = Some (record_value results).
Proof.
  destruct (collect_returns h)
    as (results & evs1 & Hc & _ & _ & Hout & _ & _).
  exists results, (evs1 ++ h). split; [done|]. split; [|split; [exact Hout|]].
  - intros pre rg post res_pre h_pre o h_post HR Hpre Hf.
    assert (Hnd : (name rg ∉ name <$> pre) ∧ (name rg ∉ name <$> post)).
    { pose proof REGIONS_NoDup as Hall.
      rewrite HR, fmap_app, fmap_cons in Hall.
      apply NoDup_app in Hall as (_ & Hdis & [Hpost _]%NoDup_cons).
      split; [|done]. intros Hin. apply (Hdis _ Hin), elem_of_cons. by left. }
    destruct Hnd as [Hn1 Hn2].
    destruct (for_of_attempt_key pre rg post (first_record h) (loop_start h)
                res_pre h_pre o h_post Hn1 Hn2 Hpre Hf)
      as (results' & h' & Hfor & Hkey).
    rewrite <- HR, <- collect_unfold, Hc in Hfor. injection Hfor as <- _.
    rewrite Hkey. by destruct o.
  - intros existing h2 Hl.
    destruct (run_stages _ _ _ _ _ Hc Hl) as (h3 & evs & Hs & Hp & Hrun).
    exists h3, evs. split; [done|]. split; [done|]. split; [done|].
    destruct (pushToGitHub_writes (existing ++ [record_value results]) h3)
      as (evs' & Hp' & Hrw).
    rewrite Hp in Hp'. injection Hp' as Heq.
    apply app_inv_tail in Heq as <-. split; [exact Hrw|]. split.
    { rewrite Hrw. destruct configured; [|by intros ? ?%elem_of_nil].
      destruct (settled h3) as [[sha0 h4]|]; [|by intros ? ?%elem_of_nil].
      by intros body ->%list_elem_of_singleton. }
    split; [rewrite length_app; simpl; lia|].
    split; [by rewrite take_app_length|]. by rewrite list_lookup_middle.
Qed.

(** C3.  [pushToGitHub] returns whatever happens to the remote save.
    Without credentials it only prints the skip notice.  When the read of
    the current file fails (other than with a 404) or the write fails,
    the error is caught and the last lines printed are its report: the
    message, then the status and the body of the response when the error
    carries one.  Whatever the remote save meets, once the load has
    returned a dataset [run] returns and the process exits with code 0. *)
Theorem remote_save_never_fatal (allData : Dataset) (h : History) :
  (∃ evs,
     pushToGitHub P W allData h = (Return tt, evs ++ h)
     ∧ (configured = false →
        evs = [Console LOG
                 [Str "GitHub credentials not configured. Skipping GitHub push."]])
     ∧ (∀ pre post error,
          evs = pre ++ GithubGet read_request :: post →
          github_read W (post ++ h) read_request = Throw error →
          is_404 error = false →
          pre = error_report error)
     ∧ (∀ pre post body error,
          evs = pre ++ GithubPut write_request body :: post →
          github_write W (post ++ h) write_request body = Throw error →
          pre = error_report error))
  ∧ (∀ error r,
       response error = Some r →
       error_report error
       = [ Console ERROR [Str "Response data:"; Str (body r)];
           Console ERROR [Str "Response status:"; Len (status r)];
           Console ERROR [Str "❌ Error pushing to GitHub:";
                          Str (message error)] ])
  ∧ (∀ error,
       response error = None →
       error_report error
       = [ Console ERROR [Str "❌ Error pushing to GitHub:";
                          Str (message error)] ])
  ∧ (∀ results h1 existing h2,
       collect P W h = (Return results, h1) →
       loadExistingData P W h1 = (Return (VArr existing), h2) →
       ∃ h3 evs,
         saveData P W results h2 = (Return tt, h3)
         ∧ pushToGitHub P W (existing ++ [record_value results]) h3
           = (Return tt, evs ++ h3)
         ∧ run P W h
           = (Return tt,
              Console LOG [Str ("=== Price Check Complete ===" +:+ newline)]
              :: evs ++ h3)
         ∧ main P W h
           = (0,
              ProcessExit 0
              :: Console LOG [Str ("=== Price Check Complete ===" +:+ newline)]
              :: evs ++ h3)).
Proof.
  split.
  { destruct (pushToGitHub_effects allData h)
      as (evs & Hp & Hskip & _ & Hread & Hwrite & _).
    by exists evs. }
  split; [by intros e r; unfold error_report; intros ->|].
  split; [by intros e; unfold error_report; intros ->|].
  intros results h1 existing h2 Hc Hl.
  destruct (run_stages _ _ _ _ _ Hc Hl) as (h3 & evs & Hs & Hp & Hrun).
  exists h3, evs. split; [done|]. split; [done|]. split; [done|].
  unfold main. by rewrite Hrun.
Qed.

(** C6.  [saveData] returns whatever the file system answers.  The only
    file it may write is the log file, with the current Run Record alone
    as its whole content.  A directory creation refused for a read-only
    file system is skipped without an error; a write refused for that
    reason ends with the skip notice, any other failure with a warning
    that carries its message.  In [run], whatever [saveData] met at the
    history [h2] it was called at, the remote save follows it: with
    credentials, the read of the revision token is sent. *)
Theorem saveData_advisory (newData : RunRecord) (h : History) :
  (∃ evs,
     saveData P W newData h = (Return tt, evs ++ h)
     ∧ (local_writes evs = []
        ∨ local_writes evs
          = [(logFile P, JSON_stringify P (VArr [record_value newData]))]))
  ∧ (∀ accessError mkdirError,
       fs_access_result W h (dataDir P) = Throw accessError →
       fs_mkdir_result W
         (Console LOG [Str "📁 Creating data directory: "; Str (dataDir P)]
          :: FsAccess (dataDir P) :: h) (dataDir P) = Throw mkdirError →
       code mkdirError = Some "EROFS" →
       ensureDataDirectory P W h
       = (Return tt,
          Console LOG
            [Str "📱 Read-only filesystem, skipping directory creation"]
          :: FsMkdir (dataDir P)
          :: Console LOG [Str "📁 Creating data directory: "; Str (dataDir P)]
          :: FsAccess (dataDir P) :: h))
  ∧ (∀ h1 error,
       ensureDataDirectory P W h = (Return tt, h1) →
       fs_writeFile_result W h1 (logFile P)
         (JSON_stringify P (VArr [record_value newData]))
       = Throw error →
       saveData P W newData h
       = (Return tt,
          (if bool_decide (code error = Some "EROFS") then
             Console LOG
               [Str "📱 Read-only filesystem detected, skipping local save (using GitHub only)"]
           else
             Console WARN [Str "⚠️ Could not save locally: ";
                           Str (message error)])
          :: FsWriteFile (logFile P)
               (JSON_stringify P (VArr [record_value newData])) :: h1))
  ∧ (∀ h1 error,
       ensureDataDirectory P W h = (Throw error, h1) →
       saveData P W newData h
       = (Return tt,
          Console WARN [Str "⚠️ Could not save locally: ";
                        Str (message error)] :: h1))
  ∧ (∀ h0 results h1 existing,
       collect P W h0 = (Return results, h1) →
       loadExistingData P W h1 = (Return (VArr existing), h) →
       ∃ h3 evs,
         saveData P W results h = (Return tt, h3)
         ∧ pushToGitHub P W (existing ++ [record_value results]) h3
           = (Return tt, evs ++ h3)
         ∧ run P W h0
           = (Return tt,
              Console LOG [Str ("=== Price Check Complete ===" +:+ newline)]
              :: evs ++ h3)
         ∧ (configured = true →
            ∃ evs', evs = evs' ++ [GithubGet read_request;
              Console LOG [Str "Pushing updated data to GitHub repository..."]])).
Proof.
  split; [apply saveData_effects|]. split.
  { intros e0 e Ha Hm Hcode. rewrite ensureDataDirectory_spec. cbv zeta.
    rewrite Ha, Hm. by rewrite bool_decide_eq_true_2. }
  split.
  { intros h1 e He Hw. rewrite saveData_spec. cbv zeta. by rewrite He, Hw. }
  split.
  { intros h1 e He. rewrite saveData_spec. cbv zeta. rewrite He.
    destruct (ensureDataDirectory_effects h) as (r & evs & Hr & _ & Hcode).
    rewrite He in Hr. injection Hr as <- _.
    unfold local_failure_notice. by rewrite bool_decide_eq_false_2 by eauto. }
  intros h0 results h1 existing Hc Hl.
  destruct (run_stages _ _ _ _ _ Hc Hl) as (h3 & evs & Hs & Hp & Hrun).
  exists h3, evs. repeat (split; [done|]).
  destruct (pushToGitHub_effects (existing ++ [record_value results]) h3)
    as (evs' & Hp' & _ & Hattempt & _).
  rewrite Hp in Hp'. injection Hp' as Heq. apply app_inv_tail in Heq as ->.
  exact Hattempt.
Qed.

(** C10.  The Run Record that [run] builds has its keys among the two
    configured region names, each at most once; it was built by one
    pricing query per region, sent in the order of [REGIONS]; and it
    stores under each key a Sample whose own [region] is that key. *)
Theorem run_record_invariant (h : History) :
  ∃ results evs,
    collect P W h = (Return results, evs ++ h)
    ∧ keys (rr_regions results) ⊆ ["eastus2"; "northeurope"]
    ∧ NoDup (keys (rr_regions results))
    ∧ pricing_requests evs
      = [ pricing_request (buildApiUrl P "eastus2");
          pricing_request (buildApiUrl P "northeurope") ]
    ∧ ∀ k s, own k (rr_regions results) = Some s → region s = k.
Proof.
  destruct (collect_returns h)
    as (results & evs & Hc & _ & Hreq & Hout & Hin & Hnd).
  exists results, evs. split; [done|].
  split; [|split; [done|split; [done|]]].
  - intros k Hk. rewrite <- REGIONS_names.
    destruct (decide (k ∈ name <$> REGIONS)) as [|Hn]; [done|].
    apply Hout, own_None_keys in Hn. by destruct Hn.
  - intros k s Hs. by destruct (Hin k s Hs).
Qed.

End Engine.

End CheckerProofs.

(** * Concrete runs *)

Module Witnesses.
Import Runtime Checker CheckerProofs.

(** The file exists on GitHub: the write request carries its revision
    token and the whole dataset. *)
Lemma save_protocol_witness :
  ∃ evs,
    pushToGitHub Scenario.platform Scenario.world
      [record_value Scenario.sample_record] []
    = (Return tt,
       evs ++ [ GithubGet (read_request Scenario.world);
                Console LOG
                  [Str "Pushing updated data to GitHub repository..."] ])
    ∧ remote_writes evs
      = [ {| pb_message := "Update price data: 2025-01-01T00:00:00.000Z";
             pb_content :=
               "base64:"
               +:+ Scenario.print (VArr [record_value Scenario.sample_record]);
             pb_branch := "main";
             pb_sha := Some "3d21ec5" |} ].
Proof.
  destruct (save_protocol Scenario.platform Scenario.world
              [record_value Scenario.sample_record] [] eq_refl)
    as (evs & Hp & Hupdate & _).
  exists evs. split; [exact Hp|].
  exact (Hupdate _ _ eq_refl eq_refl).
Defined.

(** The conflict answered to the write is caught and reported with its
    status and body, and the process exits with code 0. *)
Lemma remote_save_never_fatal_witness :
  (∃ evs,
     pushToGitHub Scenario.platform Scenario.world [] [] = (Return tt, evs ++ [])
     ∧ take 3 evs
       = [ Console ERROR [Str "Response data:"; Str "conflict"];
           Console ERROR [Str "Response status:"; Len 409];
           Console ERROR [Str "❌ Error pushing to GitHub:";
                          Str "Request failed"] ])
  ∧ (loadExistingData Scenario.platform Scenario.world
       (collect Scenario.platform Scenario.world []).2).1
    = Return (VArr [record_value Scenario.sample_record])
  ∧ (main Scenario.platform Scenario.world []).1 = 0.
Proof.
  destruct (remote_save_never_fatal Scenario.platform Scenario.world [] [])
    as ((evs & Hp & _ & _ & Hwrite) & _ & _ & Hrun).
  split; [|split; [by vm_compute|]].
  - exists evs. split; [exact Hp|].
    assert (Hevs : pushToGitHub Scenario.platform Scenario.world [] []
                   = (Return tt,
                      error_report (Scenario.http_error 409 "conflict")
                      ++ GithubPut (write_request Scenario.world)
                           (request_body Scenario.platform [] (Some "3d21ec5")
                              "2025-01-01T00:00:00.000Z")
                      :: [DateNow;
                          Console LOG [Str "Found existing file, will update it"];
                          GithubGet (read_request Scenario.world);
                          Console LOG
                            [Str "Pushing updated data to GitHub repository..."]]))
      by reflexivity.
    rewrite Hp, app_nil_r in Hevs. injection Hevs as ->.
    etransitivity; [|reflexivity].
    apply (Hwrite _
      [DateNow; Console LOG [Str "Found existing file, will update it"];
       GithubGet (read_request Scenario.world);
       Console LOG [Str "Pushing updated data to GitHub repository..."]]
      (request_body Scenario.platform [] (Some "3d21ec5")
         "2025-01-01T00:00:00.000Z")
      (Scenario.http_error 409 "conflict")); reflexivity.
  - destruct (collect Scenario.platform Scenario.world []) as [r1 h1] eqn:Ec.
    vm_compute in Ec. injection Ec as <- <-.
    edestruct Hrun as (h3 & evs' & _ & _ & _ & ->);
      [reflexivity | vm_compute; reflexivity | reflexivity].
Defined.



(** On the read-only disk the directory creation is skipped, the write is
    refused and skipped as well, and [saveData] returns; in the run, the
    remote save follows and reads the revision token. *)
Lemma saveData_advisory_witness :
  saveData Scenario.platform Scenario.world Scenario.sample_record []
  = (Return tt,
     [ Console LOG
         [Str "📱 Read-only filesystem detected, skipping local save (using GitHub only)"];
       FsWriteFile "/app/data/price-logs.json"
         (Scenario.print (VArr [record_value Scenario.sample_record]));
       Console LOG
         [Str "📱 Read-only filesystem, skipping directory creation"];
       FsMkdir "/app/data";
       Console LOG [Str "📁 Creating data directory: "; Str "/app/data"];
       FsAccess "/app/data" ])
  ∧ ∃ h3 evs evs',
      run Scenario.platform Scenario.world []
      = (Return tt,
         Console LOG [Str ("=== Price Check Complete ===" +:+ newline)]
         :: evs ++ h3)
      ∧ local_writes (take 6 h3)
        = [("/app/data/price-logs.json",
            Scenario.print
              (VArr [record_value
                       {| rr_timestamp := "2025-01-01T00:00:00.000Z";
                          rr_regions :=
                            [ ("eastus2", Scenario.sample_of "eastus2" 0.125);
                              ("northeurope",
                               Scenario.sample_of "northeurope" 0.25) ] |}]))]
      ∧ evs = evs' ++ [ GithubGet (read_request Scenario.world);
                        Console LOG
                          [Str "Pushing updated data to GitHub repository..."] ].
Proof.
  split.
  - destruct (saveData_advisory Scenario.platform Scenario.world
                Scenario.sample_record [])
      as (_ & Hmkdir & Hwrite & _).
    exact (Hwrite _ (Scenario.fs_error "EROFS")
             (Hmkdir (Scenario.fs_error "ENOENT") (Scenario.fs_error "EROFS")
                eq_refl eq_refl eq_refl)
             eq_refl).
  - destruct (saveData_advisory Scenario.platform Scenario.world
                Scenario.sample_record
                (loadExistingData Scenario.platform Scenario.world
                   (collect Scenario.platform Scenario.world []).2).2)
      as (_ & _ & _ & _ & Hrun).
    edestruct (Hrun []) as (h3 & evs & Hs & _ & Hr & Hattempt);
      [vm_compute; reflexivity | vm_compute; reflexivity |].
    destruct (Hattempt eq_refl) as [evs' Hevs].
    exists h3, evs, evs'. split; [exact Hr|]. split; [|exact Hevs].
    vm_compute in Hs. injection Hs as <-. vm_compute. reflexivity.
Defined.

(** Both fetches succeed and GitHub serves one Run Record: the record of
    this run has both region keys, and the one write request sent carries
    the served record followed by the new one. *)
Lemma run_appends_one_record_witness :
  ∃ results h1 h3 evs,
    collect Scenario.platform Scenario.world [] = (Return results, h1)
    ∧ retailPrice <$> own "eastus2" (rr_regions results) = Some 0.125%float
    ∧ retailPrice <$> own "northeurope" (rr_regions results)
      = Some 0.25%float
    ∧ own "westeurope" (rr_regions results) = None
    ∧ (loadExistingData Scenario.platform Scenario.world h1).1
      = Return (VArr [record_value Scenario.sample_record])
    ∧ run Scenario.platform Scenario.world []
      = (Return tt,
         Console LOG [Str ("=== Price Check Complete ===" +:+ newline)]
         :: evs ++ h3)
    ∧ remote_writes evs
      = [ {| pb_message := "Update price data: 2025-01-01T00:00:00.000Z";
             pb_content :=
               "base64:"
               +:+ Scenario.print
                     (VArr [ record_value Scenario.sample_record;
                             record_value results ]);
             pb_branch := "main";
             pb_sha := Some "3d21ec5" |} ].
Proof.
  destruct (run_appends_one_record Scenario.platform Scenario.world [])
    as (results & h1 & Hc & Hkey & Hout & Hrun).
  assert (Hl : ∃ h2,
    loadExistingData Scenario.platform Scenario.world h1
    = (Return (VArr [record_value Scenario.sample_record]), h2))
    by (eexists; vm_compute; reflexivity).
  destruct Hl as [h2 Hl].
  destruct (Hrun _ _ Hl) as (h3 & evs & _ & _ & Hr & Hrw & _).
  exists results, h1, h3, evs. split; [exact Hc|].
  split; [|split; [|split; [|split; [by rewrite Hl|split; [exact Hr|]]]]].
  - change "eastus2"
      with (name {| name := "eastus2"; displayName := "East US 2" |}).
    erewrite (Hkey [] _
                [{| name := "northeurope"; displayName := "North Europe" |}]);
      [| reflexivity | reflexivity | reflexivity].
    reflexivity.
  - change "northeurope"
      with (name {| name := "northeurope"; displayName := "North Europe" |}).
    erewrite (Hkey [{| name := "eastus2"; displayName := "East US 2" |}] _ []);
      [| reflexivity | reflexivity | reflexivity].
    reflexivity.
  - apply Hout. rewrite REGIONS_names.
    intros [[=] | [=]%list_elem_of_singleton]%elem_of_cons.
  - rewrite Hrw. reflexivity.
Defined.

End Witnesses.

(** * Further properties of the acquisition engine *)

Module CheckerExtras.
Import Runtime Checker CheckerProofs.

Section Engine.
Context (P : Platform) (W : World).

Lemma github_requests_app evs1 evs2 :
  github_requests (evs1 ++ evs2) = github_requests evs2 ++ github_requests evs1.
Proof. unfold github_requests. by rewrite omap_app, rev_app_distr. Qed.

Lemma pacing_app evs1 evs2 : pacing (evs1 ++ evs2) = pacing evs2 ++ pacing evs1.
Proof. unfold pacing. by rewrite omap_app, rev_app_distr. Qed.

(** ** What each stage of [run] asks of the outer world *)

Lemma fetchPriceData_trace r h :
  ∃ o evs,
    fetchPriceData P W r h = (Return o, evs ++ h)
    ∧ pricing_requests evs = [pricing_request (buildApiUrl P r)]
    ∧ pacing evs = [PricingGet (pricing_request (buildApiUrl P r))]
    ∧ github_requests evs = [] ∧ local_writes evs = [].
Proof.
  unfold fetchPriceData. step_M.
  destruct (pricing_api W _ _) as [response|error]; step_M.
  - destruct (data response ≫= Items) as [[|item items]|]; step_M;
      by eexists _, [_; _; _].
  - by eexists _, [_; _; _].
Qed.

Lemma attempt_trace results rg h :
  ∃ results' evs,
    attempt P W results rg h = (Return results', evs ++ h)
    ∧ pricing_requests evs = [request_for P rg]
    ∧ pacing evs = [PricingGet (request_for P rg); SetTimeout 1000]
    ∧ github_requests evs = [] ∧ local_writes evs = [].
Proof.
  destruct (fetchPriceData_trace (name rg) h)
    as (o & evs & Hf & Hreq & Hpace & Hgh & Hlw).
  unfold attempt. step_M. rewrite Hf.
  destruct o as [sample|]; step_M.
  - exists (recorded results rg (Some sample)),
      ([SetTimeout 1000;
        Console LOG [Str "✅ "; Str (displayName rg); Str ": $";
                     Num (retailPrice sample); Str "/hour"]] ++ evs).
    split; [done|].
    by rewrite pricing_requests_app, pacing_app, github_requests_app,
         local_writes_app, Hreq, Hpace, Hgh, Hlw.
  - exists results,
      ([SetTimeout 1000;
        Console LOG [Str "❌ "; Str (displayName rg);
                     Str ": Failed to fetch data"]] ++ evs).
    split; [done|].
    by rewrite pricing_requests_app, pacing_app, github_requests_app,
         local_writes_app, Hreq, Hpace, Hgh, Hlw.
Qed.

Lemma for_of_attempt_trace regions : ∀ results h,
  ∃ results' evs,
    for_of regions (attempt P W) results h = (Return results', evs ++ h)
    ∧ pricing_requests evs = request_for P <$> regions
    ∧ pacing evs
      = regions ≫= (λ rg, [PricingGet (request_for P rg); SetTimeout 1000])
    ∧ github_requests evs = [] ∧ local_writes evs = [].
Proof.
  induction regions as [|rg regions IH]; intros results h; simpl.
  - by exists results, [].
  - destruct (attempt_trace results rg h)
      as (results1 & evs1 & Ha & Hreq & Hpace & Hgh & Hlw).
    unfold bind. rewrite Ha.
    destruct (IH results1 (evs1 ++ h))
      as (results' & evs' & Hfor & Hreq' & Hpace' & Hgh' & Hlw').
    exists results', (evs' ++ evs1). rewrite Hfor, <- app_assoc.
    split; [done|].
    by rewrite pricing_requests_app, pacing_app, github_requests_app,
         local_writes_app, Hreq, Hpace, Hgh, Hlw, Hreq', Hpace', Hgh', Hlw'.
Qed.

Lemma collect_trace h :
  ∃ results evs,
    collect P W h = (Return results, evs ++ h)
    ∧ pricing_requests evs = request_for P <$> REGIONS
    ∧ pacing evs
      = REGIONS ≫= (λ rg, [PricingGet (request_for P rg); SetTimeout 1000])
    ∧ github_requests evs = [] ∧ local_writes evs = [].
Proof.
  rewrite collect_unfold.
  destruct (for_of_attempt_trace REGIONS (first_record W h) (loop_start W h))
    as (results & evs & Hfor & Hreq & Hpace & Hgh & Hlw).
  exists results,
    (evs ++ [DateNow;
             Console LOG
               [Str "Timestamp: ";
                Str (clock W (Console LOG
                       [Str "=== Azure Spot Price Checker Started ==="]
                       :: h))];
             DateNow;
             Console LOG [Str "=== Azure Spot Price Checker Started ==="]]).
  unfold loop_start, started in Hfor. rewrite <- app_assoc.
  split; [exact Hfor|].
  by rewrite pricing_requests_app, pacing_app, github_requests_app,
       local_writes_app, Hreq, Hpace, Hgh, Hlw.
Qed.


Ltac quiet :=
  rewrite ?pricing_requests_app, ?pacing_app, ?github_requests_app,
    ?local_writes_app, ?remote_writes_app.

Lemma fetchDataFromGitHub_trace h :
  ∃ d evs,
    fetchDataFromGitHub P W h = (Return d, evs ++ h)
    ∧ pacing evs = []
    ∧ github_requests evs = (if configured W then [read_request W] else [])
    ∧ local_writes evs = [] ∧ remote_writes evs = [].
Proof.
  rewrite fetchDataFromGitHub_spec. cbv zeta.
  destruct (configured W); [|by eexists _, [_]].
  destruct (github_read W _ _) as [response|error];
    [|by destruct (is_404 error); eexists _, [_; _; _]].
  destruct (data response ≫= content) as [encoded|]; [|by eexists _, [_; _]].
  destruct (truthy _); [|by eexists _, [_; _]].
  destruct (JSON_parse P _); [by eexists _, [_; _] | by eexists _, [_; _; _]].
Qed.

Lemma loadExistingData_trace h :
  ∃ r evs,
    loadExistingData P W h = (r, evs ++ h)
    ∧ pacing evs = []
    ∧ github_requests evs = (if configured W then [read_request W] else [])
    ∧ local_writes evs = [] ∧ remote_writes evs = [].
Proof.
  destruct (fetchDataFromGitHub_trace h)
    as (gd & evs & Hgh & Hpace & Hreq & Hlw & Hrw).
  rewrite (loadExistingData_spec _ _ _ _ _ Hgh).
  assert (Hsame : ∀ r : Result Value,
    ∃ r' evs', (r, evs ++ h) = (r', evs' ++ h)
      ∧ pacing evs' = []
      ∧ github_requests evs' = (if configured W then [read_request W] else [])
      ∧ local_writes evs' = [] ∧ remote_writes evs' = []).
  { intros r. by exists r, evs. }
  assert (Hmore : ∀ (r : Result Value) (pre : History),
    pacing pre = [] → github_requests pre = [] → local_writes pre = [] →
    remote_writes pre = [] →
    ∃ r' evs', (r, pre ++ evs ++ h) = (r', evs' ++ h)
      ∧ pacing evs' = []
      ∧ github_requests evs' = (if configured W then [read_request W] else [])
      ∧ local_writes evs' = [] ∧ remote_writes evs' = []).
  { intros r pre H1 H2 H3 H4. exists r, (pre ++ evs).
    split; [by rewrite <- app_assoc|]. quiet.
    rewrite H1, H2, H3, H4, Hpace, Hreq, Hlw, Hrw. cbn.
    by rewrite app_nil_r. }
  destruct (get_length gd) as [len|e]; [|apply Hsame].
  destruct (positive P len) as [[]|e]; [| |apply Hsame].
  - destruct (template P len) as [entries|e]; [|apply Hsame].
    by apply (Hmore _ [_]).
  - unfold local_load, fresh.
    destruct (fs_readFile_result W _ _) as [text|e];
      [|by apply (Hmore _ [_; _])].
    destruct (JSON_parse P text) as [localData|];
      [|by apply (Hmore _ [_; _])].
    destruct (get_length localData ≫= template P);
      by apply (Hmore _ [_; _]).
Qed.

Lemma ensureDataDirectory_trace h :
  ∃ r evs,
    ensureDataDirectory P W h = (r, evs ++ h)
    ∧ pacing evs = [] ∧ github_requests evs = []
    ∧ local_writes evs = [] ∧ remote_writes evs = [].
Proof.
  rewrite ensureDataDirectory_spec. cbv zeta.
  destruct (fs_access_result W _ _) as [[]|e]; [by eexists _, [_; _]|].
  destruct (fs_mkdir_result W _ _) as [[]|e']; [by eexists _, [_; _; _; _]|].
  destruct (bool_decide _); by eexists _, [_; _; _; _].
Qed.

Lemma saveData_trace newData h :
  ∃ evs,
    saveData P W newData h = (Return tt, evs ++ h)
    ∧ pacing evs = [] ∧ github_requests evs = [] ∧ remote_writes evs = [].
Proof.
  rewrite saveData_spec. cbv zeta.
  destruct (ensureDataDirectory_trace h) as (r & evs & -> & Hpace & Hgh & _ & Hrw).
  destruct r as [[]|e].
  - destruct (fs_writeFile_result W _ _ _) as [[]|e].
    + eexists ([_; _] ++ evs). split; [reflexivity|]. quiet.
      by rewrite Hpace, Hgh, Hrw.
    + eexists ([local_failure_notice e; _] ++ evs). split; [reflexivity|]. quiet.
      rewrite Hpace, Hgh, Hrw. unfold local_failure_notice.
      by destruct (bool_decide _).
  - eexists ([local_failure_notice e] ++ evs). split; [reflexivity|]. quiet.
    rewrite Hpace, Hgh, Hrw. unfold local_failure_notice.
    by destruct (bool_decide _).
Qed.

Lemma error_report_trace error :
  pacing (error_report error) = []
  ∧ github_requests (error_report error) = []
  ∧ local_writes (error_report error) = []
  ∧ remote_writes (error_report error) = [].
Proof. unfold error_report. by destruct (response error). Qed.

Lemma send_trace allData sha h :
  ∃ evs,
    send P W allData sha h = (Return tt, evs ++ h)
    ∧ pacing evs = [] ∧ github_requests evs = [write_request W]
    ∧ local_writes evs = []
    ∧ remote_writes evs = [request_body P allData sha (clock W h)].
Proof.
  unfold send, caught.
  destruct (github_write W _ _ _) as [response|error].
  - destruct (data response ≫= commit) as [html_url|].
    + by eexists [_; _; _; _].
    + destruct (error_report_trace
        (TypeError "Cannot read properties of undefined (reading 'html_url')"))
        as (Hp & Hg & Hl & Hr).
      eexists (error_report _ ++ [_; _; _]). rewrite <- app_assoc.
      split; [reflexivity|]. quiet. by rewrite Hp, Hg, Hl, Hr.
  - destruct (error_report_trace error) as (Hp & Hg & Hl & Hr).
    eexists (error_report _ ++ [_; _]). rewrite <- app_assoc.
    split; [reflexivity|]. quiet. by rewrite Hp, Hg, Hl, Hr.
Qed.

(** Whether the revision token is settled by the answer to the read: the
    file exists, or the read failed with a 404. *)
Definition token_settled (h : History) : bool :=
  bool_decide (is_Some (settled W h)).

Lemma pushToGitHub_trace allData h :
  ∃ evs,
    pushToGitHub P W allData h = (Return tt, evs ++ h)
    ∧ pacing evs = [] ∧ local_writes evs = []
    ∧ github_requests evs
      = (if configured W then
           if token_settled h then [read_request W; write_request W]
           else [read_request W]
         else [])
    ∧ length (remote_writes evs)
      = (if configured W && token_settled h then 1 else 0).
Proof.
  rewrite pushToGitHub_spec. cbv zeta. unfold token_settled, settled, pushlog.
  destruct (configured W); [|by eexists [_]]. cbn [andb].
  set (h2 := GithubGet (read_request W) :: _ :: h).
  assert (Hsend : ∀ sha note,
    ∃ evs, send P W allData sha (Console LOG note :: h2) = (Return tt, evs ++ h)
           ∧ pacing evs = [] ∧ local_writes evs = []
           ∧ github_requests evs = [read_request W; write_request W]
           ∧ length (remote_writes evs) = 1).
  { intros sha0 note.
    destruct (send_trace allData sha0 (Console LOG note :: h2))
      as (evs & Hs & Hp & Hg & Hl & Hr).
    exists (evs ++ [Console LOG note; GithubGet (read_request W);
                    Console LOG
                      [Str "Pushing updated data to GitHub repository..."]]).
    rewrite <- app_assoc. split; [exact Hs|]. quiet.
    by rewrite Hp, Hg, Hl, Hr. }
  assert (Hcaught : ∀ e,
    ∃ evs, caught e h2 = (Return tt, evs ++ h)
           ∧ pacing evs = [] ∧ local_writes evs = []
           ∧ github_requests evs = [read_request W]
           ∧ length (remote_writes evs) = 0).
  { intros e. destruct (error_report_trace e) as (Hp & Hg & Hl & Hr).
    exists (error_report e ++ [GithubGet (read_request W);
                               Console LOG
                                 [Str "Pushing updated data to GitHub repository..."]]).
    unfold caught. rewrite <- app_assoc. split; [reflexivity|]. quiet.
    by rewrite Hp, Hg, Hl, Hr. }
  destruct (github_read W _ _) as [resp|error].
  - destruct (data resp) as [d|].
    + rewrite bool_decide_eq_true_2 by eauto. apply Hsend.
    + rewrite bool_decide_eq_false_2 by (by intros [? [=]]). apply Hcaught.
  - destruct (is_404 error).
    + rewrite bool_decide_eq_true_2 by eauto. apply Hsend.
    + rewrite bool_decide_eq_false_2 by (by intros [? [=]]). apply Hcaught.
Qed.


(** ** The whole run *)

(** [run] returns when the load returns an array; it throws, before
    anything is saved, when the load throws or returns something else. *)
Lemma run_trace h :
  ∃ r evs,
    run P W h = (r, evs ++ h)
    ∧ pacing evs
      = REGIONS ≫= (λ rg, [PricingGet (request_for P rg); SetTimeout 1000])
    ∧ match r with
      | Return _ =>
          ∃ h3,
            github_requests evs
            = (if configured W then
                 read_request W
                 :: (if token_settled h3 then [read_request W; write_request W]
                     else [read_request W])
               else [])
            ∧ length (remote_writes evs)
              = (if configured W && token_settled h3 then 1 else 0)
      | Throw _ =>
          github_requests evs = (if configured W then [read_request W] else [])
          ∧ remote_writes evs = [] ∧ local_writes evs = []
      end.
Proof.
  destruct (collect_trace h) as (results & evs1 & Hc & _ & Hp1 & Hg1 & Hl1).
  assert (Hr1 : remote_writes evs1 = []).
  { clear -Hg1. unfold github_requests in Hg1. unfold remote_writes.
    apply (f_equal (@rev _)) in Hg1. rewrite rev_involutive in Hg1. simpl in Hg1.
    induction evs1 as [|ev evs1 IH]; [done|].
    destruct ev; simpl in *; try discriminate; by apply IH. }
  destruct (loadExistingData_trace (evs1 ++ h))
    as (r2 & evs2 & Hl & Hp2 & Hg2 & Hl2 & Hr2).
  rewrite (run_unfold _ _ _ _ _ _ _ Hc Hl).
  assert (Hthrow : ∀ e : JsError,
    ∃ r evs,
      (Throw e : Result unit, evs2 ++ evs1 ++ h) = (r, evs ++ h)
      ∧ pacing evs
        = REGIONS ≫= (λ rg, [PricingGet (request_for P rg); SetTimeout 1000])
      ∧ match r with
        | Return _ =>
            ∃ h3,
              github_requests evs
              = (if configured W then
                   read_request W
                   :: (if token_settled h3
                       then [read_request W; write_request W]
                       else [read_request W])
                 else [])
              ∧ length (remote_writes evs)
                = (if configured W && token_settled h3 then 1 else 0)
        | Throw _ =>
            github_requests evs
            = (if configured W then [read_request W] else [])
            ∧ remote_writes evs = [] ∧ local_writes evs = []
        end).
  { intros e. exists (Throw e), (evs2 ++ evs1).
    split; [by rewrite <- app_assoc|]. quiet.
    by rewrite Hp1, Hp2, Hg1, Hg2, Hl1, Hl2, Hr1, Hr2. }
  destruct r2 as [v|e]; [|apply Hthrow].
  cbn [mbind Result_bind]. unfold push, array_method.
  destruct v as [| | | | |existing|]; cbn [mbind Result_bind];
    try apply Hthrow.
  destruct (saveData_trace results (evs2 ++ evs1 ++ h))
    as (evs3 & Hs & Hp3 & Hg3 & Hr3).
  destruct (pushToGitHub_trace (existing ++ [record_value results])
              (evs3 ++ evs2 ++ evs1 ++ h))
    as (evs4 & Hpush & Hp4 & _ & Hg4 & Hr4).
  rewrite Hs. cbv beta iota. rewrite Hpush.
  exists (Return tt),
    ([Console LOG [Str ("=== Price Check Complete ===" +:+ newline)]]
     ++ evs4 ++ evs3 ++ evs2 ++ evs1).
  split; [by rewrite <- !app_assoc|].
  quiet. rewrite Hp1, Hp2, Hp3, Hp4. split; [done|].
  exists (evs3 ++ evs2 ++ evs1 ++ h).
  rewrite Hg1, Hg2, Hg3, Hg4, Hr1, Hr2, Hr3.
  rewrite !length_app, Hr4. cbn.
  destruct (configured W); cbn; [|done].
  by destruct (token_settled _).
Qed.

(** Whatever the API, GitHub and the disk answer, one run (whether it
    returns or throws) sends exactly one pricing query per configured
    region, in the order of [REGIONS], and pauses 1000 ms after each of
    them: nothing is retried and no query is sent later in the run. *)
Theorem run_pacing (h : History) :
  ∃ r evs,
    run P W h = (r, evs ++ h)
    ∧ pacing evs
      = [ PricingGet (pricing_request (buildApiUrl P "eastus2"));
          SetTimeout 1000;
          PricingGet (pricing_request (buildApiUrl P "northeurope"));
          SetTimeout 1000 ].
Proof.
  destruct (run_trace h) as (r & evs & Hrun & Hpace & _).
  exists r, evs. split; [exact Hrun|]. rewrite Hpace. reflexivity.
Qed.

(** Without the three GitHub settings a run sends nothing to GitHub.  With
    them, a run that returns has sent the read of the load, the read of
    the revision token and at most one write, all three to the same URL
    with the same headers; a run that throws has sent the read of the load
    only, and has written nothing, remotely or locally. *)
Theorem run_github_traffic (h : History) :
  ∃ r evs,
    run P W h = (r, evs ++ h)
    ∧ (configured W = false →
       github_requests evs = [] ∧ remote_writes evs = [])
    ∧ (configured W = true →
       match r with
       | Return _ =>
           github_requests evs = [read_request W; read_request W]
           ∨ github_requests evs
             = [read_request W; read_request W; write_request W]
       | Throw _ => github_requests evs = [read_request W]
       end)
    ∧ (∀ e, r = Throw e → remote_writes evs = [] ∧ local_writes evs = [])
    ∧ (length (remote_writes evs) ≤ 1)%nat
    ∧ url (write_request W) = url (read_request W)
    ∧ headers (write_request W) = headers (read_request W).
Proof.
  destruct (run_trace h) as (r & evs & Hrun & _ & Hr).
  exists r, evs. split; [exact Hrun|].
  destruct r as [[]|e].
  - destruct Hr as (h3 & Hgh & Hlen). split.
    { intros Hc. rewrite Hc in Hgh, Hlen. split; [done|].
      by apply nil_length_inv. }
    split.
    { intros Hc. rewrite Hc in Hgh. destruct (token_settled h3); auto. }
    split; [done|]. split; [|done].
    rewrite Hlen. destruct (configured W && token_settled h3); lia.
  - destruct Hr as (Hgh & Hrw & Hlw). split.
    { intros Hc. by rewrite Hc in Hgh. }
    split; [intros Hc; by rewrite Hc in Hgh|].
    split; [done|]. split; [|done]. rewrite Hrw. simpl. lia.
Qed.


(** ** The remote save and the next load *)

(** When the read of the current file fails for another reason than a 404
    (a 5xx status, a network error), [pushToGitHub] gives up: it reports
    the error and sends no write request, so the remote file is never
    overwritten without its revision token having been looked up. *)
Theorem no_write_after_failed_read (allData : Dataset) (h : History)
    (error : JsError) :
  configured W = true →
  github_read W
    (Console LOG [Str "Pushing updated data to GitHub repository..."] :: h)
    (read_request W) = Throw error →
  is_404 error = false →
  ∃ evs,
    pushToGitHub P W allData h = (Return tt, evs ++ h)
    ∧ evs = error_report error
            ++ [ GithubGet (read_request W);
                 Console LOG
                   [Str "Pushing updated data to GitHub repository..."] ]
    ∧ github_requests evs = [read_request W]
    ∧ remote_writes evs = [].
Proof.
  intros Hc Hread H404. rewrite pushToGitHub_spec, Hc. cbv zeta.
  rewrite Hread, H404. unfold caught.
  exists (error_report error
          ++ [ GithubGet (read_request W);
               Console LOG
                 [Str "Pushing updated data to GitHub repository..."] ]).
  split; [by rewrite <- app_assoc|]. split; [reflexivity|].
  destruct (error_report_trace error) as (_ & Hg & _ & Hr).
  by rewrite github_requests_app, remote_writes_app, Hg, Hr.
Qed.

(** What one run pushes, the next run loads: when the remote read serves
    back the content of the write request made for the dataset [D], and
    decoding and parsing undo the encoding of [D], [fetchDataFromGitHub]
    returns [D]; [loadExistingData] then returns [D] as well, without
    reading the local snapshot, as soon as [D] has a record. *)
Theorem pushed_dataset_is_loaded (D : Dataset) (sha0 fileSha : option string)
    (now : string) (h : History) :
  configured W = true →
  pb_content (request_body P D sha0 now) ≠ EmptyString →
  JSON_parse P (base64_decode P (pb_content (request_body P D sha0 now)))
  = Some (VArr D) →
  github_read W (Console LOG [Str "Fetching existing data from GitHub..."] :: h)
    (read_request W)
  = Return {| data := Some {| content :=
                                Some (pb_content (request_body P D sha0 now));
                              sha := fileSha |} |} →
  fetchDataFromGitHub P W h
  = (Return (VArr D),
     GithubGet (read_request W)
     :: Console LOG [Str "Fetching existing data from GitHub..."] :: h)
  ∧ (D ≠ [] →
     loadExistingData P W h
     = (Return (VArr D),
        Console LOG [Str "✅ Loaded "; Len (length D);
                     Str " existing entries from GitHub"]
        :: GithubGet (read_request W)
        :: Console LOG [Str "Fetching existing data from GitHub..."] :: h)).
Proof.
  intros Hc Hne Hparse Hread.
  assert (Hgh : fetchDataFromGitHub P W h
                = (Return (VArr D),
                   GithubGet (read_request W)
                   :: Console LOG [Str "Fetching existing data from GitHub..."]
                   :: h)).
  { rewrite fetchDataFromGitHub_spec, Hc. cbv zeta. rewrite Hread.
    cbn [data mbind option_bind content truthy].
    destruct (String.eqb_spec (pb_content (request_body P D sha0 now))
                EmptyString) as [Heq|_]; [done|].
    cbn [negb]. by rewrite Hparse. }
  split; [exact Hgh|]. intros HD.
  rewrite (loadExistingData_array _ _ _ _ _ Hgh). by destruct D.
Qed.

(** ** The local fallback store *)

(** [ensureDataDirectory] does not try to create a directory it can
    access; and the only error it lets through is the error of a failed
    [mkdir] whose code is not [EROFS]. *)
Theorem ensureDataDirectory_minimal (h : History) :
  (fs_access_result W h (dataDir P) = Return tt →
   ensureDataDirectory P W h
   = (Return tt,
      [ Console LOG [Str "📁 Data directory exists: "; Str (dataDir P)];
        FsAccess (dataDir P) ] ++ h))
  ∧ (∀ error h1,
       ensureDataDirectory P W h = (Throw error, h1) →
       (∃ accessError, fs_access_result W h (dataDir P) = Throw accessError)
       ∧ fs_mkdir_result W
           (Console LOG [Str "📁 Creating data directory: "; Str (dataDir P)]
            :: FsAccess (dataDir P) :: h) (dataDir P) = Throw error
       ∧ code error ≠ Some "EROFS").
Proof.
  rewrite ensureDataDirectory_spec. cbv zeta. split.
  - by intros ->.
  - intros error h1.
    destruct (fs_access_result W _ _) as [[]|e0]; [done|].
    destruct (fs_mkdir_result W _ _) as [[]|e]; [done|].
    destruct (bool_decide _) eqn:Ecode; [done|]. intros [= <- _].
    split; [by eauto|]. split; [done|]. by apply bool_decide_eq_false in Ecode.
Qed.

(** [saveData] attempts the write exactly when [ensureDataDirectory]
    returns: still after a directory creation skipped for a read-only file
    system, and not after a directory creation that failed otherwise. *)
Theorem saveData_write_attempted (newData : RunRecord) (h : History) :
  ∃ evs,
    saveData P W newData h = (Return tt, evs ++ h)
    ∧ (local_writes evs = [(logFile P, JSON_stringify P (VArr [record_value newData]))]
       ↔ ∃ h1, ensureDataDirectory P W h = (Return tt, h1))
    ∧ (local_writes evs = []
       ↔ ∃ error h1, ensureDataDirectory P W h = (Throw error, h1))
    ∧ (∀ accessError mkdirError,
         fs_access_result W h (dataDir P) = Throw accessError →
         fs_mkdir_result W
           (Console LOG [Str "📁 Creating data directory: "; Str (dataDir P)]
            :: FsAccess (dataDir P) :: h) (dataDir P) = Throw mkdirError →
         if bool_decide (code mkdirError = Some "EROFS")
         then local_writes evs = [(logFile P, JSON_stringify P (VArr [record_value newData]))]
         else local_writes evs = []).
Proof.
  rewrite saveData_spec. cbv zeta.
  assert (Hspec := ensureDataDirectory_spec P W h). cbv zeta in Hspec.
  destruct (ensureDataDirectory_effects P W h) as (r & evs & Hr & Hw & _).
  rewrite Hr in Hspec |- *.
  assert (Hnotice : ∀ e, local_writes [local_failure_notice e] = []).
  { intros e. unfold local_failure_notice. by destruct (bool_decide _). }
  destruct r as [[]|e].
  - assert (Hlw : ∀ ev, local_writes
              ([ev; FsWriteFile (logFile P) (JSON_stringify P (VArr [record_value newData]))] ++ evs)
              = [(logFile P, JSON_stringify P (VArr [record_value newData]))] →
            ∃ evs',
              (Return tt,
               ev :: FsWriteFile (logFile P) (JSON_stringify P (VArr [record_value newData]))
               :: evs ++ h) = (Return tt, evs' ++ h)
              ∧ (local_writes evs' = [(logFile P, JSON_stringify P (VArr [record_value newData]))]
                 ↔ ∃ h1, (Return tt, evs ++ h) = (Return tt, h1))
              ∧ (local_writes evs' = []
                 ↔ ∃ error h1, (Return (), evs ++ h) = (Throw error, h1))
              ∧ (∀ accessError mkdirError,
                   fs_access_result W h (dataDir P) = Throw accessError →
                   fs_mkdir_result W
                     (Console LOG [Str "📁 Creating data directory: ";
                                   Str (dataDir P)]
                      :: FsAccess (dataDir P) :: h) (dataDir P)
                   = Throw mkdirError →
                   if bool_decide (code mkdirError = Some "EROFS")
                   then local_writes evs'
                        = [(logFile P, JSON_stringify P (VArr [record_value newData]))]
                   else local_writes evs' = [])).
    { intros ev Hev. eexists ([ev; _] ++ evs). split; [reflexivity|].
      rewrite Hev. split; [split; [by eauto | done]|].
      split; [split; [done | by intros (? & ? & [=])]|].
      intros e0 e Ha Hm. rewrite Ha, Hm in Hspec.
      destruct (bool_decide _); [done | discriminate Hspec]. }
    destruct (fs_writeFile_result W _ _ _) as [[]|e]; apply Hlw.
    + by rewrite local_writes_app, Hw.
    + by rewrite local_writes_app, Hw; unfold local_failure_notice;
        destruct (bool_decide _).
  - exists ([local_failure_notice e] ++ evs). split; [reflexivity|].
    rewrite local_writes_app, Hw, Hnotice.
    split; [split; [done | by intros (? & [=])]|].
    split; [split; [by eauto | done]|].
    intros e0 e' Ha Hm. rewrite Ha, Hm in Hspec.
    destruct (bool_decide _); [discriminate Hspec | done].
Qed.


(** ** The pricing query *)

Lemma list_ascii_of_string_app s1 s2 :
  String.list_ascii_of_string (s1 +:+ s2)
  = String.list_ascii_of_string s1 ++ String.list_ascii_of_string s2.
Proof. induction s1 as [|c s1 IH]; simpl; [done|]. by rewrite IH. Qed.

Lemma string_app_inv_tail s1 s2 t : s1 +:+ t = s2 +:+ t → s1 = s2.
Proof.
  intros H. apply (f_equal String.list_ascii_of_string) in H.
  rewrite !list_ascii_of_string_app in H. apply app_inv_tail in H.
  rewrite <- (String.string_of_list_ascii_of_string s1),
          <- (String.string_of_list_ascii_of_string s2).
  by rewrite H.
Qed.

(** Two regions are never queried with the same URL, provided
    [encodeURIComponent] maps different texts to different texts. *)
Theorem buildApiUrl_injective (r1 r2 : string) :
  (∀ s1 s2, encodeURIComponent P s1 = encodeURIComponent P s2 → s1 = s2) →
  buildApiUrl P r1 = buildApiUrl P r2 → r1 = r2.
Proof.
  intros Hinj. unfold buildApiUrl. cbv zeta.
  intros H. apply (inj (String.app _)) in H. apply (inj (String.app _)) in H.
  apply Hinj in H.
  repeat apply (inj (String.app _)) in H.
  by apply string_app_inv_tail in H.
Qed.

End Engine.

End CheckerExtras.

(** * Properties of the earlier revision *)

Module LegacyProofs.
Import Runtime Legacy.

Lemma retained_window existing newData :
  retained existing newData `suffix_of` existing ++ [newData]
  ∧ length (retained existing newData)
    = Nat.min (S (length existing)) maxEntries
  ∧ last (retained existing newData) = Some newData.
Proof.
  unfold retained. cbv zeta.
  assert (Hlen : length (existing ++ [newData]) = S (length existing))
    by (rewrite length_app; simpl; lia).
  unfold maxEntries in *.
  destruct (Nat.ltb_spec 1440 (length (existing ++ [newData]))) as [Hgt|Hle].
  - split; [apply suffix_drop|]. split; [rewrite length_drop; lia|].
    rewrite last_lookup, lookup_drop, length_drop.
    replace (length (existing ++ [newData]) - 1440
             + Nat.pred (length (existing ++ [newData])
                         - (length (existing ++ [newData]) - 1440)))
      with (length existing) by lia.
    by rewrite list_lookup_middle.
  - split; [done|]. split; [lia|]. apply last_snoc.
Qed.

Section Engine.
Context (P : Platform) (W : World).

Lemma legacy_ensureDataDirectory_spec h :
  ensureDataDirectory P W h
  = match fs_access_result W h (Checker.dataDir P) with
    | Return _ => (Return tt, FsAccess (Checker.dataDir P) :: h)
    | Throw _ =>
        (fs_mkdir_result W (FsAccess (Checker.dataDir P) :: h)
           (Checker.dataDir P),
         FsMkdir (Checker.dataDir P) :: FsAccess (Checker.dataDir P) :: h)
    end.
Proof.
  unfold ensureDataDirectory. step_M.
  by destruct (fs_access_result W _ _) as [[]|e].
Qed.

(** What the local file holds at history [h], as [loadExistingData] reads
    it: the empty history when it cannot be read or parsed. *)
Definition stored (h : History) : Value :=
  match fs_readFile_result W h (Checker.logFile P) with
  | Return text => default (VArr []) (JSON_parse P text)
  | Throw _ => VArr []
  end.

Lemma legacy_loadExistingData_spec h :
  loadExistingData P W h
  = (Return (stored h), FsReadFile (Checker.logFile P) :: h).
Proof.
  unfold loadExistingData, stored. step_M.
  destruct (fs_readFile_result W _ _) as [text|e]; step_M; [|done].
  by destruct (JSON_parse P text).
Qed.

Lemma legacy_saveData_spec newData h :
  saveData P W newData h
  = match ensureDataDirectory P W h with
    | (Return _, h1) =>
        let h2 := FsReadFile (Checker.logFile P) :: h1 in
        match array_method (stored h1) "existingData" "push" with
        | Return existing =>
            let kept := retained existing (record_value newData) in
            let h3 := FsWriteFile (Checker.logFile P)
                        (JSON_stringify P (VArr kept)) :: h2 in
            match fs_writeFile_result W h2 (Checker.logFile P)
                    (JSON_stringify P (VArr kept)) with
            | Return _ =>
                (Return tt,
                 Console LOG [Str "Data saved. Total entries: ";
                              Len (length kept)] :: h3)
            | Throw error => (Throw error, h3)
            end
        | Throw error => (Throw error, h2)
        end
    | (Throw error, h1) => (Throw error, h1)
    end.
Proof.
  unfold saveData. unfold bind at 1.
  destruct (ensureDataDirectory P W h) as [[[]|e] h1]; [|done].
  unfold bind at 1. rewrite legacy_loadExistingData_spec. cbv zeta.
  unfold bind at 1, lift, push.
  destruct (array_method (stored h1) _ _) as [existing|e];
    cbn [mbind Result_bind]; [|done].
  fold (retained existing (record_value newData)). step_M.
  by destruct (fs_writeFile_result W _ _ _) as [[]|e].
Qed.

Lemma github_requests_console (evs : History) :
  Forall (λ ev, ∃ lvl msg, ev = Console lvl msg) evs →
  github_requests evs = [] ∧ pricing_requests evs = [].
Proof.
  induction 1 as [|ev evs (lvl & msg & ->) _ [IH1 IH2]]; [done|].
  change (Console lvl msg :: evs) with ([Console lvl msg] ++ evs).
  by rewrite CheckerExtras.github_requests_app,
    CheckerProofs.pricing_requests_app, IH1, IH2.
Qed.

Lemma legacy_saveData_trace newData h :
  ∃ r evs,
    saveData P W newData h = (r, evs ++ h)
    ∧ github_requests evs = [] ∧ pricing_requests evs = [].
Proof.
  rewrite legacy_saveData_spec, legacy_ensureDataDirectory_spec.
  destruct (fs_access_result W _ _) as [[]|e0].
  - destruct (array_method _ _ _) as [existing|e]; [|by eexists _, [_; _]].
    cbv zeta. destruct (fs_writeFile_result W _ _ _) as [[]|e];
      [by eexists _, [_; _; _; _] | by eexists _, [_; _; _]].
  - destruct (fs_mkdir_result W _ _) as [[]|e]; [|by eexists _, [_; _]].
    destruct (array_method _ _ _) as [existing|e]; [|by eexists _, [_; _; _]].
    cbv zeta. destruct (fs_writeFile_result W _ _ _) as [[]|e];
      [by eexists _, [_; _; _; _; _] | by eexists _, [_; _; _; _]].
Qed.

(** The earlier revision keeps a window of the history.  Once the data
    directory is there and the file holds an array (or cannot be read or
    parsed, which counts as the empty one), [saveData] writes, as the
    whole file, the stored entries followed by the new one, cut down to
    the newest 1440: never more than 1440 entries, the new one always
    last.  When the file holds a document that is not an array,
    [saveData] throws before writing. *)
Theorem saveData_retention (newData : RunRecord) (h h1 : History) :
  ensureDataDirectory P W h = (Return tt, h1) →
  match stored h1 with
  | VArr existing =>
      let kept := retained existing (record_value newData) in
      ∃ r evs,
        saveData P W newData h
        = (r, evs ++ FsWriteFile (Checker.logFile P)
                       (JSON_stringify P (VArr kept))
                  :: FsReadFile (Checker.logFile P) :: h1)
        ∧ local_writes evs = []
        ∧ kept `suffix_of` existing ++ [record_value newData]
        ∧ length kept = Nat.min (S (length existing)) 1440
        ∧ last kept = Some (record_value newData)
  | _ =>
      ∃ error,
        saveData P W newData h
        = (Throw error, FsReadFile (Checker.logFile P) :: h1)
  end.
Proof.
  intros He. rewrite legacy_saveData_spec, He.
  destruct (stored h1) as [| | | | |existing|]; cbn [array_method];
    try (by eexists).
  cbv zeta.
  destruct (retained_window existing (record_value newData))
    as (Hsuf & Hlen & Hlast).
  destruct (fs_writeFile_result W _ _ _) as [[]|e].
  - by eexists _, [_].
  - by eexists _, [].
Qed.

(** In the earlier revision a local failure is fatal: an error of [mkdir]
    (a read-only file system included) or of the write is thrown by
    [saveData], nothing more is done by [run], and the process exits with
    code 1. *)
Theorem saveData_failure_is_fatal (h : History) :
  ∃ results h1,
    Checker.collect P W h = (Return results, h1)
    ∧ (∀ accessError mkdirError,
         fs_access_result W h1 (Checker.dataDir P) = Throw accessError →
         fs_mkdir_result W (FsAccess (Checker.dataDir P) :: h1)
           (Checker.dataDir P) = Throw mkdirError →
         saveData P W results h1
         = (Throw mkdirError,
            FsMkdir (Checker.dataDir P) :: FsAccess (Checker.dataDir P) :: h1))
    ∧ (∀ h2 existing error,
         ensureDataDirectory P W h1 = (Return tt, h2) →
         stored h2 = VArr existing →
         fs_writeFile_result W (FsReadFile (Checker.logFile P) :: h2)
           (Checker.logFile P)
           (JSON_stringify P
              (VArr (retained existing (record_value results))))
         = Throw error →
         saveData P W results h1
         = (Throw error,
            FsWriteFile (Checker.logFile P)
              (JSON_stringify P
                 (VArr (retained existing (record_value results))))
            :: FsReadFile (Checker.logFile P) :: h2))
    ∧ (∀ error h2,
         saveData P W results h1 = (Throw error, h2) →
         run P W h = (Throw error, h2)
         ∧ main P W h
           = (1,
              [ ProcessExit 1;
                Console ERROR [Str "Unhandled Rejection at:"; Str "reason:";
                               Str (message error)] ] ++ h2))
    ∧ (∀ h2,
         saveData P W results h1 = (Return tt, h2) →
         (main P W h).1 = 0).
Proof.
  destruct (CheckerProofs.collect_returns P W h) as (results & evs & Hc & _).
  exists results, (evs ++ h). split; [exact Hc|]. split; [|split; [|split]].
  - intros e0 e Ha Hm.
    rewrite legacy_saveData_spec, legacy_ensureDataDirectory_spec.
    rewrite Ha. rewrite Hm. reflexivity.
  - intros h2 existing e He Hst Hw.
    rewrite legacy_saveData_spec, He, Hst. cbn [array_method]. cbv zeta.
    by rewrite Hw.
  - intros e h2 Hs.
    assert (Hrun : run P W h = (Throw e, h2)).
    { unfold run. unfold bind at 1. rewrite Hc. unfold bind at 1.
      by rewrite Hs. }
    split; [exact Hrun|]. unfold main. by rewrite Hrun.
  - intros h2 Hs.
    assert (Hrun : ∃ h', run P W h = (Return tt, h')).
    { unfold run. unfold bind at 1. rewrite Hc. unfold bind at 1.
      rewrite Hs. unfold bind at 1, pushToGitHub.
      destruct (negb _ || negb _ || negb _); step_M; by eexists. }
    destruct Hrun as [h' Hrun]. unfold main. by rewrite Hrun.
Qed.

(** The earlier revision never talks to GitHub: with or without
    credentials, [pushToGitHub] only prints, and a whole run sends its two
    pricing queries and nothing else over the network. *)
Theorem run_stays_local (h : History) :
  (∀ data h0, ∃ evs,
     pushToGitHub P W data h0 = (Return tt, evs ++ h0)
     ∧ Forall (λ ev, ∃ lvl msg, ev = Console lvl msg) evs)
  ∧ ∃ r evs,
      run P W h = (r, evs ++ h)
      ∧ github_requests evs = []
      ∧ pricing_requests evs
        = [ Checker.pricing_request (Checker.buildApiUrl P "eastus2");
            Checker.pricing_request (Checker.buildApiUrl P "northeurope") ].
Proof.
  assert (Hpush : ∀ data h0, ∃ evs,
    pushToGitHub P W data h0 = (Return tt, evs ++ h0)
    ∧ Forall (λ ev, ∃ lvl msg, ev = Console lvl msg) evs).
  { intros data h0. unfold pushToGitHub.
    destruct (negb _ || negb _ || negb _); step_M.
    - eexists [_]. split; [reflexivity|]. repeat constructor; by eauto.
    - eexists [_; _]. split; [reflexivity|]. repeat constructor; by eauto. }
  split; [exact Hpush|].
  destruct (CheckerExtras.collect_trace P W h)
    as (results & evs1 & Hc & Hreq & _ & Hgh & _).
  destruct (legacy_saveData_trace results (evs1 ++ h))
    as (r2 & evs2 & Hs & Hg2 & Hp2).
  unfold run. unfold bind at 1. rewrite Hc. unfold bind at 1. rewrite Hs.
  destruct r2 as [[]|e].
  - destruct (Hpush results (evs2 ++ evs1 ++ h)) as (evs3 & Hp & Hall).
    destruct (github_requests_console _ Hall) as [Hg3 Hp3].
    unfold bind at 1. rewrite Hp. step_M.
    eexists _, ([_] ++ evs3 ++ evs2 ++ evs1).
    split; [by rewrite <- !app_assoc|].
    by rewrite !CheckerExtras.github_requests_app,
      !CheckerProofs.pricing_requests_app, Hg2, Hp2, Hg3, Hp3, Hgh, Hreq.
  - exists (Throw e), (evs2 ++ evs1). split; [by rewrite <- app_assoc|].
    by rewrite CheckerExtras.github_requests_app,
      CheckerProofs.pricing_requests_app, Hg2, Hp2, Hgh, Hreq.
Qed.

End Engine.

End LegacyProofs.

(** * Concrete runs for the further properties *)

Module ExtraWitnesses.
Import Runtime Checker.

(** Without credentials nothing is sent to GitHub; with them and an array
    served, both reads and the write; when GitHub serves a JSON string,
    the run throws after the read of the load. *)
Lemma run_github_traffic_witness :
  (∃ evs,
     run Scenario.platform Scenario.offline [] = (Return tt, evs ++ [])
     ∧ github_requests evs = [] ∧ remote_writes evs = [])
  ∧ (∃ evs,
       run Scenario.platform Scenario.world [] = (Return tt, evs ++ [])
       ∧ (length (github_requests evs) = 2 ∨ length (github_requests evs) = 3))
  ∧ (∃ evs,
       run Scenario.platform Scenario.texted []
       = (Throw (TypeError "existingData.push is not a function"), evs ++ [])
       ∧ github_requests evs = [CheckerProofs.read_request Scenario.texted]
       ∧ remote_writes evs = [] ∧ local_writes evs = []).
Proof.
  split; [|split].
  - destruct (CheckerExtras.run_github_traffic Scenario.platform
                Scenario.offline []) as (r & evs & Hrun & Hoff & _).
    exists evs. split; [|exact (Hoff eq_refl)].
    rewrite Hrun. f_equal.
    assert (Hr : (run Scenario.platform Scenario.offline []).1 = Return tt)
      by (vm_compute; reflexivity).
    by rewrite Hrun in Hr.
  - destruct (CheckerExtras.run_github_traffic Scenario.platform
                Scenario.world []) as (r & evs & Hrun & _ & Hon & _).
    assert (Hr : (run Scenario.platform Scenario.world []).1 = Return tt)
      by (vm_compute; reflexivity).
    rewrite Hrun in Hr. simpl in Hr. subst r.
    exists evs. split; [exact Hrun|].
    destruct (Hon eq_refl) as [-> | ->]; [by left | by right].
  - destruct (CheckerExtras.run_github_traffic Scenario.platform
                Scenario.texted []) as (r & evs & Hrun & _ & Hon & Hthrow & _).
    assert (Hr : (run Scenario.platform Scenario.texted []).1
                 = Throw (TypeError "existingData.push is not a function"))
      by (vm_compute; reflexivity).
    rewrite Hrun in Hr. simpl in Hr. subst r.
    exists evs. split; [exact Hrun|]. split; [exact (Hon eq_refl)|].
    by apply (Hthrow _ eq_refl).
Defined.

Lemma no_write_after_failed_read_witness :
  ∃ evs,
    pushToGitHub Scenario.platform Scenario.unavailable
      [record_value Scenario.sample_record] []
    = (Return tt, evs ++ [])
    ∧ github_requests evs = [CheckerProofs.read_request Scenario.unavailable]
    ∧ remote_writes evs = [].
Proof.
  destruct (CheckerExtras.no_write_after_failed_read Scenario.platform
              Scenario.unavailable [record_value Scenario.sample_record] []
              (Scenario.http_error 500 "server error") eq_refl eq_refl eq_refl)
    as (evs & Hp & _ & Hg & Hr).
  by exists evs.
Defined.

Lemma pushed_dataset_is_loaded_witness :
  (loadExistingData Scenario.platform Scenario.world []).1
  = Return (VArr [record_value Scenario.sample_record]).
Proof.
  destruct (CheckerExtras.pushed_dataset_is_loaded Scenario.platform
              Scenario.world [record_value Scenario.sample_record] None
              (Some "3d21ec5") "2025-01-01T00:00:30.000Z" [])
    as [_ Hload];
    [reflexivity | discriminate | vm_compute; reflexivity | reflexivity |].
  by rewrite Hload.
Defined.

Lemma buildApiUrl_injective_witness :
  buildApiUrl Scenario.platform "eastus2"
  ≠ buildApiUrl Scenario.platform "northeurope".
Proof.
  intros H.
  apply (CheckerExtras.buildApiUrl_injective Scenario.platform) in H.
  - discriminate H.
  - intros s1 s2 Hs. exact Hs.
Defined.

(** The history file holds 1440 entries: the oldest one is dropped and
    the file is written with 1440 entries again, the new one last. *)
Lemma saveData_retention_witness :
  ∃ r evs,
    Legacy.saveData Scenario.platform
      (Scenario.disk (VArr Scenario.full_history) false)
      Scenario.sample_record []
    = (r, evs ++ [ FsWriteFile "/app/data/price-logs.json"
                     (Scenario.print
                        (VArr (retained Scenario.full_history
                                 (record_value Scenario.sample_record))));
                   FsReadFile "/app/data/price-logs.json";
                   FsAccess "/app/data" ])
    ∧ length (Scenario.full_history ++ [record_value Scenario.sample_record])
      = 1441
    ∧ length (retained Scenario.full_history
                (record_value Scenario.sample_record)) = 1440
    ∧ last (retained Scenario.full_history
              (record_value Scenario.sample_record))
      = Some (record_value Scenario.sample_record).
Proof.
  pose proof (LegacyProofs.saveData_retention Scenario.platform
                (Scenario.disk (VArr Scenario.full_history) false)
                Scenario.sample_record [] [FsAccess "/app/data"] eq_refl)
    as Hkeep.
  assert (Hst : LegacyProofs.stored Scenario.platform
                  (Scenario.disk (VArr Scenario.full_history) false)
                  [FsAccess "/app/data"]
                = VArr Scenario.full_history) by (vm_compute; reflexivity).
  rewrite Hst in Hkeep. cbv zeta in Hkeep.
  destruct Hkeep as (r & evs & Hs & _ & _ & Hlen & Hlast).
  exists r, evs. split; [exact Hs|].
  split; [by vm_compute|]. split; [|exact Hlast].
  rewrite Hlen. by vm_compute.
Defined.

(** On the read-only disk the earlier revision stops with exit code 1 at
    the directory creation; on a writable disk that refuses the write, at
    the write. *)
Lemma saveData_failure_is_fatal_witness :
  (Legacy.main Scenario.platform Scenario.world []).1 = 1
  ∧ (Legacy.main Scenario.platform (Scenario.disk (VArr []) true) []).1 = 1.
Proof.
  split.
  - destruct (LegacyProofs.saveData_failure_is_fatal Scenario.platform
                Scenario.world [])
      as (results & h1 & _ & Hmkdir & _ & Hfatal & _).
    destruct (Hfatal _ _
                (Hmkdir (Scenario.fs_error "ENOENT")
                   (Scenario.fs_error "EROFS") eq_refl eq_refl))
      as [_ ->].
    reflexivity.
  - destruct (LegacyProofs.saveData_failure_is_fatal Scenario.platform
                (Scenario.disk (VArr []) true) [])
      as (results & h1 & _ & _ & Hwrite & Hfatal & _).
    destruct (Hfatal _ _
                (Hwrite (FsAccess "/app/data" :: h1) []
                   (Scenario.fs_error "ENOSPC") eq_refl eq_refl eq_refl))
      as [_ ->].
    reflexivity.
Defined.

(** On the read-only disk the current revision still attempts the write
    after the skipped directory creation. *)
Lemma saveData_write_attempted_witness :
  ∃ evs,
    saveData Scenario.platform Scenario.world Scenario.sample_record []
    = (Return tt, evs ++ [])
    ∧ local_writes evs
      = [("/app/data/price-logs.json",
          Scenario.print (VArr [record_value Scenario.sample_record]))].
Proof.
  destruct (CheckerExtras.saveData_write_attempted Scenario.platform
              Scenario.world Scenario.sample_record [])
    as (evs & Hs & _ & _ & Hmkdir).
  exists evs. split; [exact Hs|].
  exact (Hmkdir (Scenario.fs_error "ENOENT") (Scenario.fs_error "EROFS")
           eq_refl eq_refl).
Defined.

Lemma ensureDataDirectory_minimal_witness :
  ensureDataDirectory Scenario.platform (Scenario.disk (VArr []) false) []
  = (Return tt,
     [ Console LOG [Str "📁 Data directory exists: "; Str "/app/data"];
       FsAccess "/app/data" ]).
Proof.
  destruct (CheckerExtras.ensureDataDirectory_minimal Scenario.platform
              (Scenario.disk (VArr []) false) []) as [Hpresent _].
  exact (Hpresent eq_refl).
Defined.

End ExtraWitnesses.
